(** * SQL Fight Club: admission filter, complexity scorer, schema
      introspection and fight orchestration, embedded from the Python sources

    Python [str] values are modelled as [string]: a character is a code
    point in the range U+0000..U+00FF, and the character classes below are
    Python's own ([str.isspace], [str.isalnum], [str.isdigit], [str.lower])
    restricted to that range.  The admission filter is given a second
    time on every text, as a list of code points (module [Unicode]); on
    the texts of the first kind the two agree ([is_select_only_latin1]).
    Python [float] values are IEEE binary64 numbers; a finite one is
    modelled by its exact value, a rational, and every operation rounds
    its exact result to the nearest such number (module [Float]). *)

From Stdlib Require Import ZArith NArith QArith Qround Qabs Qpower.
From Stdlib Require Import Bool List Ascii String Lia Lqa.
From Stdlib Require Import Numbers.DecimalString Sorting.Permutation Sorting.Sorted.
From Stdlib Require Structures.OrderedTypeEx.
Import ListNotations.
Open Scope string_scope.

(* ================================================================== *)
(** ** Python string built-ins *)
(* ================================================================== *)

Module Py.

Definition ord (c : ascii) : N := N_of_ascii c.

Definition between (lo hi : N) (c : ascii) : bool :=
  ((lo <=? ord c) && (ord c <=? hi))%N.

Definition is_code (n : N) (c : ascii) : bool := (ord c =? n)%N.

(** [str.isspace] on one character: TAB..CR, FS..US, SPACE, NEL, NBSP. *)
Definition isspace (c : ascii) : bool :=
  between 9 13 c || between 28 32 c || is_code 133 c || is_code 160 c.

(** [str.isdigit] on one character: 0-9 and the superscripts 1, 2, 3. *)
Definition isdigit (c : ascii) : bool :=
  between 48 57 c || is_code 178 c || is_code 179 c || is_code 185 c.

(** [str.isalpha] on one character. *)
Definition isalpha (c : ascii) : bool :=
  between 65 90 c || between 97 122 c
  || is_code 170 c || is_code 181 c || is_code 186 c
  || between 192 214 c || between 216 246 c || between 248 255 c.

(** [str.isalnum] on one character: alphabetic, decimal, digit or numeric
    (the vulgar fractions U+00BC..U+00BE are numeric). *)
Definition isalnum (c : ascii) : bool :=
  isalpha c || isdigit c || between 188 190 c.

(** [str.lower] on one character. *)
Definition lower_char (c : ascii) : ascii :=
  if between 65 90 c || (between 192 222 c && negb (is_code 215 c))
  then ascii_of_N (ord c + 32)
  else c.

Fixpoint lower (s : string) : string :=
  match s with
  | EmptyString => EmptyString
  | String c s' => String (lower_char c) (lower s')
  end.

Fixpoint lstrip (s : string) : string :=
  match s with
  | EmptyString => EmptyString
  | String c s' => if isspace c then lstrip s' else s
  end.

Fixpoint rstrip (s : string) : string :=
  match s with
  | EmptyString => EmptyString
  | String c s' =>
      match rstrip s' with
      | EmptyString => if isspace c then EmptyString else String c EmptyString
      | r => String c r
      end
  end.

(** [s.strip()] *)
Definition strip (s : string) : string := rstrip (lstrip s).

(** [sub in s] *)
Fixpoint contains (sub s : string) : bool :=
  prefix sub s
  || match s with
     | EmptyString => false
     | String _ s' => contains sub s'
     end.

(** [s.count(sub)]: occurrences found scanning left to right, the scan
    resuming after the end of each occurrence (so they never overlap).
    [skip] is the number of characters still covered by the last one. *)
Fixpoint count_from (sub : string) (skip : nat) (s : string) : nat :=
  match s with
  | EmptyString => 0
  | String _ s' =>
      match skip with
      | S k => count_from sub k s'
      | O => if prefix sub s
             then S (count_from sub (String.length sub - 1) s')
             else count_from sub 0 s'
      end
  end.

Definition count (s sub : string) : nat :=
  match sub with
  | EmptyString => S (String.length s)
  | _ => count_from sub 0 s
  end.

(** [s.replace(old, new)] *)
Fixpoint replace_from (old new : string) (skip : nat) (s : string) : string :=
  match s with
  | EmptyString => EmptyString
  | String c s' =>
      match skip with
      | S k => replace_from old new k s'
      | O => if prefix old s
             then new ++ replace_from old new (String.length old - 1) s'
             else String c (replace_from old new 0 s')
      end
  end.

Fixpoint intersperse_all (new s : string) : string :=
  match s with
  | EmptyString => EmptyString
  | String c s' => String c (new ++ intersperse_all new s')
  end.

Definition replace (s old new : string) : string :=
  match old with
  | EmptyString => new ++ intersperse_all new s
  | _ => replace_from old new 0 s
  end.

(** [sep.join(parts)] *)
Fixpoint join (sep : string) (parts : list string) : string :=
  match parts with
  | [] => EmptyString
  | [p] => p
  | p :: rest => p ++ sep ++ join sep rest
  end.

(** ["".join(ch for ch in s if keep(ch))] *)
Fixpoint filter_chars (keep : ascii -> bool) (s : string) : string :=
  match s with
  | EmptyString => EmptyString
  | String c s' =>
      if keep c then String c (filter_chars keep s') else filter_chars keep s'
  end.

(** [str(n)] for an [int] *)
Definition str_of_Z (n : Z) : string := NilEmpty.string_of_int (Z.to_int n).

(** The decimal rounding behind [round(x, ndigits)]: the multiple of
    [10^-ndigits] nearest to the exact value of [x], ties to the even
    one.  [round] on a float converts it back to a float
    ([Float.round]). *)
Definition round_half_even (q : Q) : Z :=
  let n := Qnum q in
  let d := Zpos (Qden q) in
  let fl := (n / d)%Z in
  let r := (n mod d)%Z in
  match (2 * r ?= d)%Z with
  | Lt => fl
  | Gt => (fl + 1)%Z
  | Eq => if Z.even fl then fl else (fl + 1)%Z
  end.

Definition round (x : Q) (ndigits : nat) : Q :=
  let scale := Pos.pow 10 (Pos.of_nat ndigits) in
  match ndigits with
  | O => inject_Z (round_half_even x)
  | _ => Qred (round_half_even (x * inject_Z (Zpos scale)) # scale)
  end.

End Py.

(* ================================================================== *)
(** ** Python [float]: IEEE binary64, round to nearest, ties to even *)
(* ================================================================== *)

Module Float.

(** [floor(log2 x)] for [x > 0]. *)
Definition ilog2 (x : Q) : Z :=
  let k := (Z.log2 (Qnum x) - Z.log2 (Zpos (Qden x)))%Z in
  if Qle_bool (2 ^ k) x then k else (k - 1)%Z.

(** The exponent of the spacing of the floats around [x]: 53 significant
    bits, and the spacing [2^-1074] of the subnormal range at least. *)
Definition quantum (x : Q) : Z := Z.max (ilog2 (Qabs x) - 52) (-1074).

(** The float nearest to the exact value [x], ties to the even
    significand.  (Values of [2^1024] and more, where binary64 overflows,
    are out of reach of the scores of any text a machine can hold.) *)
Definition nearest (x : Q) : Q :=
  let x := Qred x in
  if Qeq_bool x 0 then 0
  else inject_Z (Py.round_half_even (x / 2 ^ quantum x)) * 2 ^ quantum x.

(** [float(n)] for an [int], as in [n * 1.5] and [n + 1.5] *)
Definition of_int (n : Z) : Q := nearest (inject_Z n).

(** A literal such as [0.2]: the float nearest to the decimal written. *)
Definition literal (d : Q) : Q := nearest d.

Definition add (a b : Q) : Q := nearest (a + b).
Definition sub (a b : Q) : Q := nearest (a - b).
Definition mul (a b : Q) : Q := nearest (a * b).

(** [round(x, ndigits)] for a float [x]: the exact value is rounded to
    the decimal, and the decimal is read back as a float. *)
Definition round (x : Q) (ndigits : nat) : Q := nearest (Py.round x ndigits).

End Float.

(* ================================================================== *)
(** ** Regular expressions, as far as [sql_safety.py] uses them *)
(* ================================================================== *)

Module Re.

(** Atoms of a pattern compiled with [re.IGNORECASE]. *)
Inductive atom : Type :=
| Bol                      (* ^  *)
| StarSpace                (* \s* *)
| Lit (c : ascii)          (* a literal, matched ignoring case *)
| WordBoundary.            (* \b *)

Definition pattern := list atom.

(** [\w]: alphanumeric or underscore. *)
Definition is_word (c : ascii) : bool := Py.isalnum c || Ascii.eqb c "_".

Definition word_before (prev : option ascii) : bool :=
  match prev with Some c => is_word c | None => false end.

Definition word_after (s : string) : bool :=
  match s with String c _ => is_word c | EmptyString => false end.

(** A literal under IGNORECASE: equal after lowering both sides. *)
Definition lit_matches (p c : ascii) : bool :=
  Ascii.eqb (Py.lower_char c) (Py.lower_char p).

(** [\s*] followed by the rest of the pattern [k]: the longest run of
    white space first, then shorter ones. *)
Fixpoint star_space (k : option ascii -> string -> bool)
         (prev : option ascii) (s : string) : bool :=
  match s with
  | String c s' =>
      if Py.isspace c then star_space k (Some c) s' || k prev s else k prev s
  | EmptyString => k prev s
  end.

(** Backtracking matcher anchored at the current position; [prev] is the
    character just before it, [None] at the start of the text. *)
Fixpoint match_here (p : pattern) (prev : option ascii) (s : string) : bool :=
  match p with
  | [] => true
  | Bol :: p' =>
      match prev with
      | None => match_here p' prev s
      | Some _ => false
      end
  | StarSpace :: p' => star_space (match_here p') prev s
  | Lit a :: p' =>
      match s with
      | String c s' => lit_matches a c && match_here p' (Some c) s'
      | EmptyString => false
      end
  | WordBoundary :: p' =>
      xorb (word_before prev) (word_after s) && match_here p' prev s
  end.

(** [pattern.match(text)]: a match starting at position 0. *)
Definition re_match (p : pattern) (text : string) : bool :=
  match_here p None text.

End Re.

(* ================================================================== *)
(** ** app/utils/sql_safety.py *)
(* ================================================================== *)

(** The part [select\b] of the pattern. *)
Definition select_word : Re.pattern :=
  [Re.Lit "s"; Re.Lit "e"; Re.Lit "l"; Re.Lit "e"; Re.Lit "c"; Re.Lit "t";
   Re.WordBoundary].

(** [re.compile(r"^\s*select\b", re.IGNORECASE)] *)
Definition SELECT_ONLY_PATTERN : Re.pattern :=
  Re.Bol :: Re.StarSpace :: select_word.

Definition FORBIDDEN_KEYWORDS : list string :=
  ["insert"; "update"; "delete"; "drop"; "alter"; "truncate";
   "create table"; "create schema"; "attach"; "copy"; "pragma"].

(** The [for kw in FORBIDDEN_KEYWORDS] loop with its early return. *)
Fixpoint no_forbidden_keyword (kws : list string) (lowered : string) : bool :=
  match kws with
  | [] => true
  | kw :: rest =>
      if Py.contains kw lowered then false
      else no_forbidden_keyword rest lowered
  end.

(** [is_select_only(sql)]; for a [str] argument [sql or ""] is [sql]. *)
Definition is_select_only (sql : string) : bool :=
  if negb (Re.re_match SELECT_ONLY_PATTERN sql) then false
  else
    let lowered := Py.lower sql in
    no_forbidden_keyword FORBIDDEN_KEYWORDS lowered.

(* ================================================================== *)
(** ** Python [str] in full: texts as lists of code points

    The admission filter again, on every text a [str] can hold.  The
    character tables are those of the Unicode Character Database, version
    14.0, as CPython 3.11 carries them. *)
(* ================================================================== *)

Module Unicode.

Local Open Scope list_scope.
Local Open Scope N_scope.

(** A text: its code points, each below [0x110000]. *)
Definition str : Type := list N.

(** [str.isspace] *)
Definition space_ranges : list (N * N) :=
  [(9, 13); (28, 32); (133, 133); (160, 160); (5760, 5760); (8192, 8202);
   (8232, 8233); (8239, 8239); (8287, 8287); (12288, 12288)]%N.

(** [str.isalnum] *)
Definition alnum_ranges : list (N * N) :=
  [(48, 57); (65, 90); (97, 122); (170, 170); (178, 179); (181, 181);
   (185, 186); (188, 190); (192, 214); (216, 246); (248, 705); (710, 721);
   (736, 740); (748, 748); (750, 750); (880, 884); (886, 887); (890, 893);
   (895, 895); (902, 902); (904, 906); (908, 908); (910, 929); (931, 1013);
   (1015, 1153); (1162, 1327); (1329, 1366); (1369, 1369); (1376, 1416); (1488, 1514);
   (1519, 1522); (1568, 1610); (1632, 1641); (1646, 1647); (1649, 1747); (1749, 1749);
   (1765, 1766); (1774, 1788); (1791, 1791); (1808, 1808); (1810, 1839); (1869, 1957);
   (1969, 1969); (1984, 2026); (2036, 2037); (2042, 2042); (2048, 2069); (2074, 2074);
   (2084, 2084); (2088, 2088); (2112, 2136); (2144, 2154); (2160, 2183); (2185, 2190);
   (2208, 2249); (2308, 2361); (2365, 2365); (2384, 2384); (2392, 2401); (2406, 2415);
   (2417, 2432); (2437, 2444); (2447, 2448); (2451, 2472); (2474, 2480); (2482, 2482);
   (2486, 2489); (2493, 2493); (2510, 2510); (2524, 2525); (2527, 2529); (2534, 2545);
   (2548, 2553); (2556, 2556); (2565, 2570); (2575, 2576); (2579, 2600); (2602, 2608);
   (2610, 2611); (2613, 2614); (2616, 2617); (2649, 2652); (2654, 2654); (2662, 2671);
   (2674, 2676); (2693, 2701); (2703, 2705); (2707, 2728); (2730, 2736); (2738, 2739);
   (2741, 2745); (2749, 2749); (2768, 2768); (2784, 2785); (2790, 2799); (2809, 2809);
   (2821, 2828); (2831, 2832); (2835, 2856); (2858, 2864); (2866, 2867); (2869, 2873);
   (2877, 2877); (2908, 2909); (2911, 2913); (2918, 2927); (2929, 2935); (2947, 2947);
   (2949, 2954); (2958, 2960); (2962, 2965); (2969, 2970); (2972, 2972); (2974, 2975);
   (2979, 2980); (2984, 2986); (2990, 3001); (3024, 3024); (3046, 3058); (3077, 3084);
   (3086, 3088); (3090, 3112); (3114, 3129); (3133, 3133); (3160, 3162); (3165, 3165);
   (3168, 3169); (3174, 3183); (3192, 3198); (3200, 3200); (3205, 3212); (3214, 3216);
   (3218, 3240); (3242, 3251); (3253, 3257); (3261, 3261); (3293, 3294); (3296, 3297);
   (3302, 3311); (3313, 3314); (3332, 3340); (3342, 3344); (3346, 3386); (3389, 3389);
   (3406, 3406); (3412, 3414); (3416, 3425); (3430, 3448); (3450, 3455); (3461, 3478);
   (3482, 3505); (3507, 3515); (3517, 3517); (3520, 3526); (3558, 3567); (3585, 3632);
   (3634, 3635); (3648, 3654); (3664, 3673); (3713, 3714); (3716, 3716); (3718, 3722);
   (3724, 3747); (3749, 3749); (3751, 3760); (3762, 3763); (3773, 3773); (3776, 3780);
   (3782, 3782); (3792, 3801); (3804, 3807); (3840, 3840); (3872, 3891); (3904, 3911);
   (3913, 3948); (3976, 3980); (4096, 4138); (4159, 4169); (4176, 4181); (4186, 4189);
   (4193, 4193); (4197, 4198); (4206, 4208); (4213, 4225); (4238, 4238); (4240, 4249);
   (4256, 4293); (4295, 4295); (4301, 4301); (4304, 4346); (4348, 4680); (4682, 4685);
   (4688, 4694); (4696, 4696); (4698, 4701); (4704, 4744); (4746, 4749); (4752, 4784);
   (4786, 4789); (4792, 4798); (4800, 4800); (4802, 4805); (4808, 4822); (4824, 4880);
   (4882, 4885); (4888, 4954); (4969, 4988); (4992, 5007); (5024, 5109); (5112, 5117);
   (5121, 5740); (5743, 5759); (5761, 5786); (5792, 5866); (5870, 5880); (5888, 5905);
   (5919, 5937); (5952, 5969); (5984, 5996); (5998, 6000); (6016, 6067); (6103, 6103);
   (6108, 6108); (6112, 6121); (6128, 6137); (6160, 6169); (6176, 6264); (6272, 6276);
   (6279, 6312); (6314, 6314); (6320, 6389); (6400, 6430); (6470, 6509); (6512, 6516);
   (6528, 6571); (6576, 6601); (6608, 6618); (6656, 6678); (6688, 6740); (6784, 6793);
   (6800, 6809); (6823, 6823); (6917, 6963); (6981, 6988); (6992, 7001); (7043, 7072);
   (7086, 7141); (7168, 7203); (7232, 7241); (7245, 7293); (7296, 7304); (7312, 7354);
   (7357, 7359); (7401, 7404); (7406, 7411); (7413, 7414); (7418, 7418); (7424, 7615);
   (7680, 7957); (7960, 7965); (7968, 8005); (8008, 8013); (8016, 8023); (8025, 8025);
   (8027, 8027); (8029, 8029); (8031, 8061); (8064, 8116); (8118, 8124); (8126, 8126);
   (8130, 8132); (8134, 8140); (8144, 8147); (8150, 8155); (8160, 8172); (8178, 8180);
   (8182, 8188); (8304, 8305); (8308, 8313); (8319, 8329); (8336, 8348); (8450, 8450);
   (8455, 8455); (8458, 8467); (8469, 8469); (8473, 8477); (8484, 8484); (8486, 8486);
   (8488, 8488); (8490, 8493); (8495, 8505); (8508, 8511); (8517, 8521); (8526, 8526);
   (8528, 8585); (9312, 9371); (9450, 9471); (10102, 10131); (11264, 11492); (11499, 11502);
   (11506, 11507); (11517, 11517); (11520, 11557); (11559, 11559); (11565, 11565); (11568, 11623);
   (11631, 11631); (11648, 11670); (11680, 11686); (11688, 11694); (11696, 11702); (11704, 11710);
   (11712, 11718); (11720, 11726); (11728, 11734); (11736, 11742); (11823, 11823); (12293, 12295);
   (12321, 12329); (12337, 12341); (12344, 12348); (12353, 12438); (12445, 12447); (12449, 12538);
   (12540, 12543); (12549, 12591); (12593, 12686); (12690, 12693); (12704, 12735); (12784, 12799);
   (12832, 12841); (12872, 12879); (12881, 12895); (12928, 12937); (12977, 12991); (13312, 19903);
   (19968, 42124); (42192, 42237); (42240, 42508); (42512, 42539); (42560, 42606); (42623, 42653);
   (42656, 42735); (42775, 42783); (42786, 42888); (42891, 42954); (42960, 42961); (42963, 42963);
   (42965, 42969); (42994, 43009); (43011, 43013); (43015, 43018); (43020, 43042); (43056, 43061);
   (43072, 43123); (43138, 43187); (43216, 43225); (43250, 43255); (43259, 43259); (43261, 43262);
   (43264, 43301); (43312, 43334); (43360, 43388); (43396, 43442); (43471, 43481); (43488, 43492);
   (43494, 43518); (43520, 43560); (43584, 43586); (43588, 43595); (43600, 43609); (43616, 43638);
   (43642, 43642); (43646, 43695); (43697, 43697); (43701, 43702); (43705, 43709); (43712, 43712);
   (43714, 43714); (43739, 43741); (43744, 43754); (43762, 43764); (43777, 43782); (43785, 43790);
   (43793, 43798); (43808, 43814); (43816, 43822); (43824, 43866); (43868, 43881); (43888, 44002);
   (44016, 44025); (44032, 55203); (55216, 55238); (55243, 55291); (63744, 64109); (64112, 64217);
   (64256, 64262); (64275, 64279); (64285, 64285); (64287, 64296); (64298, 64310); (64312, 64316);
   (64318, 64318); (64320, 64321); (64323, 64324); (64326, 64433); (64467, 64829); (64848, 64911);
   (64914, 64967); (65008, 65019); (65136, 65140); (65142, 65276); (65296, 65305); (65313, 65338);
   (65345, 65370); (65382, 65470); (65474, 65479); (65482, 65487); (65490, 65495); (65498, 65500);
   (65536, 65547); (65549, 65574); (65576, 65594); (65596, 65597); (65599, 65613); (65616, 65629);
   (65664, 65786); (65799, 65843); (65856, 65912); (65930, 65931); (66176, 66204); (66208, 66256);
   (66273, 66299); (66304, 66339); (66349, 66378); (66384, 66421); (66432, 66461); (66464, 66499);
   (66504, 66511); (66513, 66517); (66560, 66717); (66720, 66729); (66736, 66771); (66776, 66811);
   (66816, 66855); (66864, 66915); (66928, 66938); (66940, 66954); (66956, 66962); (66964, 66965);
   (66967, 66977); (66979, 66993); (66995, 67001); (67003, 67004); (67072, 67382); (67392, 67413);
   (67424, 67431); (67456, 67461); (67463, 67504); (67506, 67514); (67584, 67589); (67592, 67592);
   (67594, 67637); (67639, 67640); (67644, 67644); (67647, 67669); (67672, 67702); (67705, 67742);
   (67751, 67759); (67808, 67826); (67828, 67829); (67835, 67867); (67872, 67897); (67968, 68023);
   (68028, 68047); (68050, 68096); (68112, 68115); (68117, 68119); (68121, 68149); (68160, 68168);
   (68192, 68222); (68224, 68255); (68288, 68295); (68297, 68324); (68331, 68335); (68352, 68405);
   (68416, 68437); (68440, 68466); (68472, 68497); (68521, 68527); (68608, 68680); (68736, 68786);
   (68800, 68850); (68858, 68899); (68912, 68921); (69216, 69246); (69248, 69289); (69296, 69297);
   (69376, 69415); (69424, 69445); (69457, 69460); (69488, 69505); (69552, 69579); (69600, 69622);
   (69635, 69687); (69714, 69743); (69745, 69746); (69749, 69749); (69763, 69807); (69840, 69864);
   (69872, 69881); (69891, 69926); (69942, 69951); (69956, 69956); (69959, 69959); (69968, 70002);
   (70006, 70006); (70019, 70066); (70081, 70084); (70096, 70106); (70108, 70108); (70113, 70132);
   (70144, 70161); (70163, 70187); (70272, 70278); (70280, 70280); (70282, 70285); (70287, 70301);
   (70303, 70312); (70320, 70366); (70384, 70393); (70405, 70412); (70415, 70416); (70419, 70440);
   (70442, 70448); (70450, 70451); (70453, 70457); (70461, 70461); (70480, 70480); (70493, 70497);
   (70656, 70708); (70727, 70730); (70736, 70745); (70751, 70753); (70784, 70831); (70852, 70853);
   (70855, 70855); (70864, 70873); (71040, 71086); (71128, 71131); (71168, 71215); (71236, 71236);
   (71248, 71257); (71296, 71338); (71352, 71352); (71360, 71369); (71424, 71450); (71472, 71483);
   (71488, 71494); (71680, 71723); (71840, 71922); (71935, 71942); (71945, 71945); (71948, 71955);
   (71957, 71958); (71960, 71983); (71999, 71999); (72001, 72001); (72016, 72025); (72096, 72103);
   (72106, 72144); (72161, 72161); (72163, 72163); (72192, 72192); (72203, 72242); (72250, 72250);
   (72272, 72272); (72284, 72329); (72349, 72349); (72368, 72440); (72704, 72712); (72714, 72750);
   (72768, 72768); (72784, 72812); (72818, 72847); (72960, 72966); (72968, 72969); (72971, 73008);
   (73030, 73030); (73040, 73049); (73056, 73061); (73063, 73064); (73066, 73097); (73112, 73112);
   (73120, 73129); (73440, 73458); (73648, 73648); (73664, 73684); (73728, 74649); (74752, 74862);
   (74880, 75075); (77712, 77808); (77824, 78894); (82944, 83526); (92160, 92728); (92736, 92766);
   (92768, 92777); (92784, 92862); (92864, 92873); (92880, 92909); (92928, 92975); (92992, 92995);
   (93008, 93017); (93019, 93025); (93027, 93047); (93053, 93071); (93760, 93846); (93952, 94026);
   (94032, 94032); (94099, 94111); (94176, 94177); (94179, 94179); (94208, 100343); (100352, 101589);
   (101632, 101640); (110576, 110579); (110581, 110587); (110589, 110590); (110592, 110882); (110928, 110930);
   (110948, 110951); (110960, 111355); (113664, 113770); (113776, 113788); (113792, 113800); (113808, 113817);
   (119520, 119539); (119648, 119672); (119808, 119892); (119894, 119964); (119966, 119967); (119970, 119970);
   (119973, 119974); (119977, 119980); (119982, 119993); (119995, 119995); (119997, 120003); (120005, 120069);
   (120071, 120074); (120077, 120084); (120086, 120092); (120094, 120121); (120123, 120126); (120128, 120132);
   (120134, 120134); (120138, 120144); (120146, 120485); (120488, 120512); (120514, 120538); (120540, 120570);
   (120572, 120596); (120598, 120628); (120630, 120654); (120656, 120686); (120688, 120712); (120714, 120744);
   (120746, 120770); (120772, 120779); (120782, 120831); (122624, 122654); (123136, 123180); (123191, 123197);
   (123200, 123209); (123214, 123214); (123536, 123565); (123584, 123627); (123632, 123641); (124896, 124902);
   (124904, 124907); (124909, 124910); (124912, 124926); (124928, 125124); (125127, 125135); (125184, 125251);
   (125259, 125259); (125264, 125273); (126065, 126123); (126125, 126127); (126129, 126132); (126209, 126253);
   (126255, 126269); (126464, 126467); (126469, 126495); (126497, 126498); (126500, 126500); (126503, 126503);
   (126505, 126514); (126516, 126519); (126521, 126521); (126523, 126523); (126530, 126530); (126535, 126535);
   (126537, 126537); (126539, 126539); (126541, 126543); (126545, 126546); (126548, 126548); (126551, 126551);
   (126553, 126553); (126555, 126555); (126557, 126557); (126559, 126559); (126561, 126562); (126564, 126564);
   (126567, 126570); (126572, 126578); (126580, 126583); (126585, 126588); (126590, 126590); (126592, 126601);
   (126603, 126619); (126625, 126627); (126629, 126633); (126635, 126651); (127232, 127244); (130032, 130041);
   (131072, 173791); (173824, 177976); (177984, 178205); (178208, 183969); (183984, 191456); (194560, 195101);
   (196608, 201546)]%N.

(** The simple lower-case mapping, in runs [(first, last, image of
    first, step)]: within a run every [step]-th code point from [first]
    is mapped, by the same offset. *)
Definition tolower_runs : list (N * N * N * N) :=
  [(65, 90, 97, 1); (192, 214, 224, 1); (216, 222, 248, 1); (256, 302, 257, 2);
   (304, 304, 105, 1); (306, 310, 307, 2); (313, 327, 314, 2); (330, 374, 331, 2);
   (376, 376, 255, 1); (377, 381, 378, 2); (385, 385, 595, 1); (386, 388, 387, 2);
   (390, 390, 596, 1); (391, 391, 392, 1); (393, 394, 598, 1); (395, 395, 396, 1);
   (398, 398, 477, 1); (399, 399, 601, 1); (400, 400, 603, 1); (401, 401, 402, 1);
   (403, 403, 608, 1); (404, 404, 611, 1); (406, 406, 617, 1); (407, 407, 616, 1);
   (408, 408, 409, 1); (412, 412, 623, 1); (413, 413, 626, 1); (415, 415, 629, 1);
   (416, 420, 417, 2); (422, 422, 640, 1); (423, 423, 424, 1); (425, 425, 643, 1);
   (428, 428, 429, 1); (430, 430, 648, 1); (431, 431, 432, 1); (433, 434, 650, 1);
   (435, 437, 436, 2); (439, 439, 658, 1); (440, 440, 441, 1); (444, 444, 445, 1);
   (452, 452, 454, 1); (453, 453, 454, 1); (455, 455, 457, 1); (456, 456, 457, 1);
   (458, 458, 460, 1); (459, 475, 460, 2); (478, 494, 479, 2); (497, 497, 499, 1);
   (498, 500, 499, 2); (502, 502, 405, 1); (503, 503, 447, 1); (504, 542, 505, 2);
   (544, 544, 414, 1); (546, 562, 547, 2); (570, 570, 11365, 1); (571, 571, 572, 1);
   (573, 573, 410, 1); (574, 574, 11366, 1); (577, 577, 578, 1); (579, 579, 384, 1);
   (580, 580, 649, 1); (581, 581, 652, 1); (582, 590, 583, 2); (880, 882, 881, 2);
   (886, 886, 887, 1); (895, 895, 1011, 1); (902, 902, 940, 1); (904, 906, 941, 1);
   (908, 908, 972, 1); (910, 911, 973, 1); (913, 929, 945, 1); (931, 939, 963, 1);
   (975, 975, 983, 1); (984, 1006, 985, 2); (1012, 1012, 952, 1); (1015, 1015, 1016, 1);
   (1017, 1017, 1010, 1); (1018, 1018, 1019, 1); (1021, 1023, 891, 1); (1024, 1039, 1104, 1);
   (1040, 1071, 1072, 1); (1120, 1152, 1121, 2); (1162, 1214, 1163, 2); (1216, 1216, 1231, 1);
   (1217, 1229, 1218, 2); (1232, 1326, 1233, 2); (1329, 1366, 1377, 1); (4256, 4293, 11520, 1);
   (4295, 4295, 11559, 1); (4301, 4301, 11565, 1); (5024, 5103, 43888, 1); (5104, 5109, 5112, 1);
   (7312, 7354, 4304, 1); (7357, 7359, 4349, 1); (7680, 7828, 7681, 2); (7838, 7838, 223, 1);
   (7840, 7934, 7841, 2); (7944, 7951, 7936, 1); (7960, 7965, 7952, 1); (7976, 7983, 7968, 1);
   (7992, 7999, 7984, 1); (8008, 8013, 8000, 1); (8025, 8031, 8017, 2); (8040, 8047, 8032, 1);
   (8072, 8079, 8064, 1); (8088, 8095, 8080, 1); (8104, 8111, 8096, 1); (8120, 8121, 8112, 1);
   (8122, 8123, 8048, 1); (8124, 8124, 8115, 1); (8136, 8139, 8050, 1); (8140, 8140, 8131, 1);
   (8152, 8153, 8144, 1); (8154, 8155, 8054, 1); (8168, 8169, 8160, 1); (8170, 8171, 8058, 1);
   (8172, 8172, 8165, 1); (8184, 8185, 8056, 1); (8186, 8187, 8060, 1); (8188, 8188, 8179, 1);
   (8486, 8486, 969, 1); (8490, 8490, 107, 1); (8491, 8491, 229, 1); (8498, 8498, 8526, 1);
   (8544, 8559, 8560, 1); (8579, 8579, 8580, 1); (9398, 9423, 9424, 1); (11264, 11311, 11312, 1);
   (11360, 11360, 11361, 1); (11362, 11362, 619, 1); (11363, 11363, 7549, 1); (11364, 11364, 637, 1);
   (11367, 11371, 11368, 2); (11373, 11373, 593, 1); (11374, 11374, 625, 1); (11375, 11375, 592, 1);
   (11376, 11376, 594, 1); (11378, 11378, 11379, 1); (11381, 11381, 11382, 1); (11390, 11391, 575, 1);
   (11392, 11490, 11393, 2); (11499, 11501, 11500, 2); (11506, 11506, 11507, 1); (42560, 42604, 42561, 2);
   (42624, 42650, 42625, 2); (42786, 42798, 42787, 2); (42802, 42862, 42803, 2); (42873, 42875, 42874, 2);
   (42877, 42877, 7545, 1); (42878, 42886, 42879, 2); (42891, 42891, 42892, 1); (42893, 42893, 613, 1);
   (42896, 42898, 42897, 2); (42902, 42920, 42903, 2); (42922, 42922, 614, 1); (42923, 42923, 604, 1);
   (42924, 42924, 609, 1); (42925, 42925, 620, 1); (42926, 42926, 618, 1); (42928, 42928, 670, 1);
   (42929, 42929, 647, 1); (42930, 42930, 669, 1); (42931, 42931, 43859, 1); (42932, 42946, 42933, 2);
   (42948, 42948, 42900, 1); (42949, 42949, 642, 1); (42950, 42950, 7566, 1); (42951, 42953, 42952, 2);
   (42960, 42960, 42961, 1); (42966, 42968, 42967, 2); (42997, 42997, 42998, 1); (65313, 65338, 65345, 1);
   (66560, 66599, 66600, 1); (66736, 66771, 66776, 1); (66928, 66938, 66967, 1); (66940, 66954, 66979, 1);
   (66956, 66962, 66995, 1); (66964, 66965, 67003, 1); (68736, 68786, 68800, 1); (71840, 71871, 71872, 1);
   (93760, 93791, 93792, 1); (125184, 125217, 125218, 1)]%N.

(** Case_Ignorable *)
Definition case_ignorable_ranges : list (N * N) :=
  [(39, 39); (46, 46); (58, 58); (94, 94); (96, 96); (168, 168);
   (173, 173); (175, 175); (180, 180); (183, 184); (688, 879); (884, 885);
   (890, 890); (900, 901); (903, 903); (1155, 1161); (1369, 1369); (1375, 1375);
   (1425, 1469); (1471, 1471); (1473, 1474); (1476, 1477); (1479, 1479); (1524, 1524);
   (1536, 1541); (1552, 1562); (1564, 1564); (1600, 1600); (1611, 1631); (1648, 1648);
   (1750, 1757); (1759, 1768); (1770, 1773); (1807, 1807); (1809, 1809); (1840, 1866);
   (1958, 1968); (2027, 2037); (2042, 2042); (2045, 2045); (2070, 2093); (2137, 2139);
   (2184, 2184); (2192, 2193); (2200, 2207); (2249, 2306); (2362, 2362); (2364, 2364);
   (2369, 2376); (2381, 2381); (2385, 2391); (2402, 2403); (2417, 2417); (2433, 2433);
   (2492, 2492); (2497, 2500); (2509, 2509); (2530, 2531); (2558, 2558); (2561, 2562);
   (2620, 2620); (2625, 2626); (2631, 2632); (2635, 2637); (2641, 2641); (2672, 2673);
   (2677, 2677); (2689, 2690); (2748, 2748); (2753, 2757); (2759, 2760); (2765, 2765);
   (2786, 2787); (2810, 2815); (2817, 2817); (2876, 2876); (2879, 2879); (2881, 2884);
   (2893, 2893); (2901, 2902); (2914, 2915); (2946, 2946); (3008, 3008); (3021, 3021);
   (3072, 3072); (3076, 3076); (3132, 3132); (3134, 3136); (3142, 3144); (3146, 3149);
   (3157, 3158); (3170, 3171); (3201, 3201); (3260, 3260); (3263, 3263); (3270, 3270);
   (3276, 3277); (3298, 3299); (3328, 3329); (3387, 3388); (3393, 3396); (3405, 3405);
   (3426, 3427); (3457, 3457); (3530, 3530); (3538, 3540); (3542, 3542); (3633, 3633);
   (3636, 3642); (3654, 3662); (3761, 3761); (3764, 3772); (3782, 3782); (3784, 3789);
   (3864, 3865); (3893, 3893); (3895, 3895); (3897, 3897); (3953, 3966); (3968, 3972);
   (3974, 3975); (3981, 3991); (3993, 4028); (4038, 4038); (4141, 4144); (4146, 4151);
   (4153, 4154); (4157, 4158); (4184, 4185); (4190, 4192); (4209, 4212); (4226, 4226);
   (4229, 4230); (4237, 4237); (4253, 4253); (4348, 4348); (4957, 4959); (5906, 5908);
   (5938, 5939); (5970, 5971); (6002, 6003); (6068, 6069); (6071, 6077); (6086, 6086);
   (6089, 6099); (6103, 6103); (6109, 6109); (6155, 6159); (6211, 6211); (6277, 6278);
   (6313, 6313); (6432, 6434); (6439, 6440); (6450, 6450); (6457, 6459); (6679, 6680);
   (6683, 6683); (6742, 6742); (6744, 6750); (6752, 6752); (6754, 6754); (6757, 6764);
   (6771, 6780); (6783, 6783); (6823, 6823); (6832, 6862); (6912, 6915); (6964, 6964);
   (6966, 6970); (6972, 6972); (6978, 6978); (7019, 7027); (7040, 7041); (7074, 7077);
   (7080, 7081); (7083, 7085); (7142, 7142); (7144, 7145); (7149, 7149); (7151, 7153);
   (7212, 7219); (7222, 7223); (7288, 7293); (7376, 7378); (7380, 7392); (7394, 7400);
   (7405, 7405); (7412, 7412); (7416, 7417); (7468, 7530); (7544, 7544); (7579, 7679);
   (8125, 8125); (8127, 8129); (8141, 8143); (8157, 8159); (8173, 8175); (8189, 8190);
   (8203, 8207); (8216, 8217); (8228, 8228); (8231, 8231); (8234, 8238); (8288, 8292);
   (8294, 8303); (8305, 8305); (8319, 8319); (8336, 8348); (8400, 8432); (11388, 11389);
   (11503, 11505); (11631, 11631); (11647, 11647); (11744, 11775); (11823, 11823); (12293, 12293);
   (12330, 12333); (12337, 12341); (12347, 12347); (12441, 12446); (12540, 12542); (40981, 40981);
   (42232, 42237); (42508, 42508); (42607, 42610); (42612, 42621); (42623, 42623); (42652, 42655);
   (42736, 42737); (42752, 42785); (42864, 42864); (42888, 42890); (42994, 42996); (43000, 43001);
   (43010, 43010); (43014, 43014); (43019, 43019); (43045, 43046); (43052, 43052); (43204, 43205);
   (43232, 43249); (43263, 43263); (43302, 43309); (43335, 43345); (43392, 43394); (43443, 43443);
   (43446, 43449); (43452, 43453); (43471, 43471); (43493, 43494); (43561, 43566); (43569, 43570);
   (43573, 43574); (43587, 43587); (43596, 43596); (43632, 43632); (43644, 43644); (43696, 43696);
   (43698, 43700); (43703, 43704); (43710, 43711); (43713, 43713); (43741, 43741); (43756, 43757);
   (43763, 43764); (43766, 43766); (43867, 43871); (43881, 43883); (44005, 44005); (44008, 44008);
   (44013, 44013); (64286, 64286); (64434, 64450); (65024, 65039); (65043, 65043); (65056, 65071);
   (65106, 65106); (65109, 65109); (65279, 65279); (65287, 65287); (65294, 65294); (65306, 65306);
   (65342, 65342); (65344, 65344); (65392, 65392); (65438, 65439); (65507, 65507); (65529, 65531);
   (66045, 66045); (66272, 66272); (66422, 66426); (67456, 67461); (67463, 67504); (67506, 67514);
   (68097, 68099); (68101, 68102); (68108, 68111); (68152, 68154); (68159, 68159); (68325, 68326);
   (68900, 68903); (69291, 69292); (69446, 69456); (69506, 69509); (69633, 69633); (69688, 69702);
   (69744, 69744); (69747, 69748); (69759, 69761); (69811, 69814); (69817, 69818); (69821, 69821);
   (69826, 69826); (69837, 69837); (69888, 69890); (69927, 69931); (69933, 69940); (70003, 70003);
   (70016, 70017); (70070, 70078); (70089, 70092); (70095, 70095); (70191, 70193); (70196, 70196);
   (70198, 70199); (70206, 70206); (70367, 70367); (70371, 70378); (70400, 70401); (70459, 70460);
   (70464, 70464); (70502, 70508); (70512, 70516); (70712, 70719); (70722, 70724); (70726, 70726);
   (70750, 70750); (70835, 70840); (70842, 70842); (70847, 70848); (70850, 70851); (71090, 71093);
   (71100, 71101); (71103, 71104); (71132, 71133); (71219, 71226); (71229, 71229); (71231, 71232);
   (71339, 71339); (71341, 71341); (71344, 71349); (71351, 71351); (71453, 71455); (71458, 71461);
   (71463, 71467); (71727, 71735); (71737, 71738); (71995, 71996); (71998, 71998); (72003, 72003);
   (72148, 72151); (72154, 72155); (72160, 72160); (72193, 72202); (72243, 72248); (72251, 72254);
   (72263, 72263); (72273, 72278); (72281, 72283); (72330, 72342); (72344, 72345); (72752, 72758);
   (72760, 72765); (72767, 72767); (72850, 72871); (72874, 72880); (72882, 72883); (72885, 72886);
   (73009, 73014); (73018, 73018); (73020, 73021); (73023, 73029); (73031, 73031); (73104, 73105);
   (73109, 73109); (73111, 73111); (73459, 73460); (78896, 78904); (92912, 92916); (92976, 92982);
   (92992, 92995); (94031, 94031); (94095, 94111); (94176, 94177); (94179, 94180); (110576, 110579);
   (110581, 110587); (110589, 110590); (113821, 113822); (113824, 113827); (118528, 118573); (118576, 118598);
   (119143, 119145); (119155, 119170); (119173, 119179); (119210, 119213); (119362, 119364); (121344, 121398);
   (121403, 121452); (121461, 121461); (121476, 121476); (121499, 121503); (121505, 121519); (122880, 122886);
   (122888, 122904); (122907, 122913); (122915, 122916); (122918, 122922); (123184, 123197); (123566, 123566);
   (123628, 123631); (125136, 125142); (125252, 125259); (127995, 127999); (917505, 917505); (917536, 917631);
   (917760, 917999)]%N.

(** Cased, among the characters that are not Case_Ignorable *)
Definition cased_ranges : list (N * N) :=
  [(65, 90); (97, 122); (170, 170); (181, 181); (186, 186); (192, 214);
   (216, 246); (248, 442); (444, 447); (452, 659); (661, 687); (880, 883);
   (886, 887); (891, 893); (895, 895); (902, 902); (904, 906); (908, 908);
   (910, 929); (931, 1013); (1015, 1153); (1162, 1327); (1329, 1366); (1376, 1416);
   (4256, 4293); (4295, 4295); (4301, 4301); (4304, 4346); (4349, 4351); (5024, 5109);
   (5112, 5117); (7296, 7304); (7312, 7354); (7357, 7359); (7424, 7467); (7531, 7543);
   (7545, 7578); (7680, 7957); (7960, 7965); (7968, 8005); (8008, 8013); (8016, 8023);
   (8025, 8025); (8027, 8027); (8029, 8029); (8031, 8061); (8064, 8116); (8118, 8124);
   (8126, 8126); (8130, 8132); (8134, 8140); (8144, 8147); (8150, 8155); (8160, 8172);
   (8178, 8180); (8182, 8188); (8450, 8450); (8455, 8455); (8458, 8467); (8469, 8469);
   (8473, 8477); (8484, 8484); (8486, 8486); (8488, 8488); (8490, 8493); (8495, 8500);
   (8505, 8505); (8508, 8511); (8517, 8521); (8526, 8526); (8544, 8575); (8579, 8580);
   (9398, 9449); (11264, 11387); (11390, 11492); (11499, 11502); (11506, 11507); (11520, 11557);
   (11559, 11559); (11565, 11565); (42560, 42605); (42624, 42651); (42786, 42863); (42865, 42887);
   (42891, 42894); (42896, 42954); (42960, 42961); (42963, 42963); (42965, 42969); (42997, 42998);
   (43002, 43002); (43824, 43866); (43872, 43880); (43888, 43967); (64256, 64262); (64275, 64279);
   (65313, 65338); (65345, 65370); (66560, 66639); (66736, 66771); (66776, 66811); (66928, 66938);
   (66940, 66954); (66956, 66962); (66964, 66965); (66967, 66977); (66979, 66993); (66995, 67001);
   (67003, 67004); (68736, 68786); (68800, 68850); (71840, 71903); (93760, 93823); (119808, 119892);
   (119894, 119964); (119966, 119967); (119970, 119970); (119973, 119974); (119977, 119980); (119982, 119993);
   (119995, 119995); (119997, 120003); (120005, 120069); (120071, 120074); (120077, 120084); (120086, 120092);
   (120094, 120121); (120123, 120126); (120128, 120132); (120134, 120134); (120138, 120144); (120146, 120485);
   (120488, 120512); (120514, 120538); (120540, 120570); (120572, 120596); (120598, 120628); (120630, 120654);
   (120656, 120686); (120688, 120712); (120714, 120744); (120746, 120770); (120772, 120779); (122624, 122633);
   (122635, 122654); (125184, 125251); (127280, 127305); (127312, 127337); (127344, 127369)]%N.

(** The extra case equivalences of the [re] module: characters that
    match ignoring case though they differ in lower case. *)
Definition ignorecase_fixes_table : list (N * list N) :=
  [(105, [305]); (115, [383]); (181, [956]); (305, [105]); (383, [115]); (837, [953; 8126]); (912, [8147]); (944, [8163]); (946, [976]); (949, [1013]); (952, [977]); (953, [837; 8126]); (954, [1008]); (956, [181]); (960, [982]); (961, [1009]); (962, [963]); (963, [962]); (966, [981]); (976, [946]); (977, [952]); (981, [966]); (982, [960]); (1008, [954]); (1009, [961]); (1013, [949]); (1074, [7296]); (1076, [7297]); (1086, [7298]); (1089, [7299]); (1090, [7300; 7301]); (1098, [7302]); (1123, [7303]); (7296, [1074]); (7297, [1076]); (7298, [1086]); (7299, [1089]); (7300, [1090; 7301]); (7301, [1090; 7300]); (7302, [1098]); (7303, [1123]); (7304, [42571]); (7777, [7835]); (7835, [7777]); (8126, [837; 953]); (8147, [912]); (8163, [944]); (42571, [7304]); (64261, [64262]); (64262, [64261])]%N.

Definition in_ranges (ranges : list (N * N)) (c : N) : bool :=
  existsb (fun r => (fst r <=? c) && (c <=? snd r)) ranges.

(** [str.isspace] on one character; also the class [\s] of [re]. *)
Definition isspace (c : N) : bool := in_ranges space_ranges c.

(** [str.isalnum] on one character. *)
Definition isalnum (c : N) : bool := in_ranges alnum_ranges c.

Definition case_ignorable (c : N) : bool := in_ranges case_ignorable_ranges c.

Definition cased (c : N) : bool := in_ranges cased_ranges c.

(** The simple lower-case mapping of one character (the one [re] uses). *)
Fixpoint lookup_run (runs : list (N * N * N * N)) (c : N) : N :=
  match runs with
  | [] => c
  | (first, last, image, step) :: rest =>
      if (first <=? c) && (c <=? last) && ((c - first) mod step =? 0)
      then image + (c - first)
      else lookup_run rest c
  end.

Definition tolower (c : N) : N := lookup_run tolower_runs c.

(** The full lower-case mapping of one character: the simple one, but
    for U+0130, which becomes [i] and a combining dot above. *)
Definition lower_full (c : N) : list N :=
  if c =? 304 then [105; 775] else [tolower c].

(** The first character that is not case-ignorable, if any. *)
Fixpoint skip_ignorable (l : list N) : option N :=
  match l with
  | [] => None
  | c :: rest => if case_ignorable c then skip_ignorable rest else Some c
  end.

(** The Final_Sigma condition, for a capital sigma with [before] (nearest
    first) in front of it and [after] behind it: a cased letter in front
    and none behind, case-ignorable characters skipped. *)
Definition final_sigma (before after : list N) : bool :=
  match skip_ignorable before with
  | Some c =>
      cased c
      && match skip_ignorable after with
         | Some c' => negb (cased c')
         | None => true
         end
  | None => false
  end.

Fixpoint lower_from (before : list N) (s : str) : str :=
  match s with
  | [] => []
  | c :: rest =>
      (if c =? 931
       then [if final_sigma before rest then 962 else 963]
       else lower_full c)
      ++ lower_from (c :: before) rest
  end.

(** [s.lower()] *)
Definition lower (s : str) : str := lower_from [] s.

Fixpoint prefix (sub s : str) : bool :=
  match sub, s with
  | [], _ => true
  | a :: sub', b :: s' => (a =? b) && prefix sub' s'
  | _ :: _, [] => false
  end.

(** [sub in s] *)
Fixpoint contains (sub s : str) : bool :=
  prefix sub s
  || match s with
     | [] => false
     | _ :: s' => contains sub s'
     end.

(** Atoms of a pattern compiled with [re.IGNORECASE]. *)
Inductive atom : Type :=
| Bol                      (* ^  *)
| StarSpace                (* \s* *)
| Lit (lo : N)             (* a cased literal with lower case [lo] *)
| WordBoundary.            (* \b *)

Definition pattern := list atom.

(** [\w]: alphanumeric or underscore. *)
Definition is_word (c : N) : bool := isalnum c || (c =? 95).

Definition word_before (prev : option N) : bool :=
  match prev with Some c => is_word c | None => false end.

Definition word_after (s : str) : bool :=
  match s with c :: _ => is_word c | [] => false end.

Definition ignorecase_fixes (lo : N) : list N :=
  match find (fun e => fst e =? lo) ignorecase_fixes_table with
  | Some e => snd e
  | None => []
  end.

(** A cased literal under IGNORECASE: the lower case of the character
    read is the literal's or one of its extra equivalents. *)
Definition lit_matches (lo c : N) : bool :=
  existsb (N.eqb (tolower c)) (lo :: ignorecase_fixes lo).

Fixpoint star_space (k : option N -> str -> bool)
         (prev : option N) (s : str) : bool :=
  match s with
  | c :: s' =>
      if isspace c then star_space k (Some c) s' || k prev s else k prev s
  | [] => k prev s
  end.

Fixpoint match_here (p : pattern) (prev : option N) (s : str) : bool :=
  match p with
  | [] => true
  | Bol :: p' =>
      match prev with
      | None => match_here p' prev s
      | Some _ => false
      end
  | StarSpace :: p' => star_space (match_here p') prev s
  | Lit lo :: p' =>
      match s with
      | c :: s' => lit_matches lo c && match_here p' (Some c) s'
      | [] => false
      end
  | WordBoundary :: p' =>
      xorb (word_before prev) (word_after s) && match_here p' prev s
  end.

Definition re_match (p : pattern) (text : str) : bool :=
  match_here p None text.

(** The code points of a text of characters up to U+00FF. *)
Fixpoint of_string (s : string) : str :=
  match s with
  | EmptyString => []
  | String c s' => N_of_ascii c :: of_string s'
  end.

(** [re.compile(r"^\s*select\b", re.IGNORECASE)] *)
Definition select_word : pattern :=
  [Lit 115; Lit 101; Lit 108; Lit 101; Lit 99; Lit 116; WordBoundary].

Definition SELECT_ONLY_PATTERN : pattern := Bol :: StarSpace :: select_word.

Definition FORBIDDEN_KEYWORDS : list str :=
  map of_string
    ["insert"; "update"; "delete"; "drop"; "alter"; "truncate";
     "create table"; "create schema"; "attach"; "copy"; "pragma"]%string.

Fixpoint no_forbidden_keyword (kws : list str) (lowered : str) : bool :=
  match kws with
  | [] => true
  | kw :: rest =>
      if contains kw lowered then false
      else no_forbidden_keyword rest lowered
  end.

(** [is_select_only(sql)] *)
Definition is_select_only (sql : str) : bool :=
  if negb (re_match SELECT_ONLY_PATTERN sql) then false
  else
    let lowered := lower sql in
    no_forbidden_keyword FORBIDDEN_KEYWORDS lowered.

End Unicode.

(* ================================================================== *)
(** ** app/core/scoring.py *)
(* ================================================================== *)

Definition of_count (n : nat) : Q := inject_Z (Z.of_nat n).

Definition complexity_score (sql : string) : Q :=
  let s := Py.lower sql in
  let score := 0%Z in
  let score := (score + Z.of_nat (Py.count s " join ") * 2)%Z in
  let score :=
    Float.add (Float.of_int score)
      (Float.mul (Float.of_int (Z.of_nat (Py.count s " group by ")))
         (Float.literal (3 # 2))) in
  let score :=
    Float.add score
      (Float.mul (Float.of_int (Z.of_nat (Py.count s " order by ")))
         (Float.literal 1)) in
  let score :=
    Float.add score
      (Float.mul (Float.of_int (Z.of_nat (Py.count s " over(")))
         (Float.literal 3)) in
  let score :=
    Float.add score
      (Float.mul (Float.of_int (Z.of_nat (Py.count s " case ")))
         (Float.literal (3 # 2))) in
  let score :=
    Float.add score
      (Float.mul (Float.of_int (Z.of_nat (Py.count s "(")))
         (Float.literal (1 # 5))) in
  Float.round score 2.

(** The same chain of operations, on the six counts. *)
Definition score_of_counts (a b c d e f : Z) : Q :=
  let score := 0%Z in
  let score := (score + a * 2)%Z in
  let score :=
    Float.add (Float.of_int score)
      (Float.mul (Float.of_int b) (Float.literal (3 # 2))) in
  let score :=
    Float.add score (Float.mul (Float.of_int c) (Float.literal 1)) in
  let score :=
    Float.add score (Float.mul (Float.of_int d) (Float.literal 3)) in
  let score :=
    Float.add score (Float.mul (Float.of_int e) (Float.literal (3 # 2))) in
  let score :=
    Float.add score (Float.mul (Float.of_int f) (Float.literal (1 # 5))) in
  Float.round score 2.

(** The exact weighted sum of six counts. *)
Definition exact_sum (a b c d e f : Z) : Q :=
  0 + inject_Z a * 2 + inject_Z b * (3 # 2) + inject_Z c * 1
  + inject_Z d * 3 + inject_Z e * (3 # 2) + inject_Z f * (1 # 5).

(* ================================================================== *)
(** ** Exceptions and results of calls that may raise *)
(* ================================================================== *)

Inductive exn_class : Type :=
| ValueError | IndexError | TypeError | OtherException.

(** A raised exception: its class and [str(e)]. *)
Record exn : Type := mk_exn { exn_kind : exn_class; exn_str : string }.

Inductive outcome (A : Type) : Type :=
| Returned (a : A)
| Raised (e : exn).
Arguments Returned {A} a.
Arguments Raised {A} e.

(* ================================================================== *)
(** ** app/models/fight_log.py *)
(* ================================================================== *)

Module fight_log.

(** A preview row: [dict(zip(col_names, row))], keys in insertion order. *)
Definition dict (Value : Type) : Type := list (string * Value).

Record AgentTurn (Value : Type) : Type := {
  round_number : Z;
  agent_name : string;
  prompt : string;
  sql : string;
  is_valid_sql : bool;
  error : option string;
  rows_preview : option (list (dict Value));
  complexity_score : Q;
  duration_seconds : Q;
  estimated_tokens : option Z
}.
Arguments round_number {Value} _.
Arguments agent_name {Value} _.
Arguments prompt {Value} _.
Arguments sql {Value} _.
Arguments is_valid_sql {Value} _.
Arguments error {Value} _.
Arguments rows_preview {Value} _.
Arguments complexity_score {Value} _.
Arguments duration_seconds {Value} _.
Arguments estimated_tokens {Value} _.

End fight_log.

(* ================================================================== *)
(** ** app/config.py *)
(* ================================================================== *)

Record Settings : Type := {
  fight_rounds_default : Z;
  max_rows_preview : Z
}.

(** The values used when the environment overrides nothing. *)
Definition default_settings : Settings :=
  {| fight_rounds_default := 6; max_rows_preview := 20 |}.

(* ================================================================== *)
(** ** The database catalog behind [information_schema.columns] *)
(* ================================================================== *)

Module catalog.

(** One row of the view [information_schema.columns]: a column of a
    table or view of the connection, with its declared position. *)
Record column_row : Type := {
  table_schema : string;
  table_name : string;
  column_name : string;
  ordinal_position : nat;
  data_type : string
}.

(** The contents of the view, in no particular order. *)
Definition Catalog : Type := list column_row.

(** [WHERE table_schema = 'main'] *)
Definition in_main (r : column_row) : bool :=
  String.eqb (table_schema r) "main".

(** [ORDER BY table_name, ordinal_position] *)
Definition row_leb (a b : column_row) : bool :=
  match String.compare (table_name a) (table_name b) with
  | Lt => true
  | Gt => false
  | Eq => Nat.leb (ordinal_position a) (ordinal_position b)
  end.

Fixpoint insert_sorted {A : Type} (leb : A -> A -> bool) (x : A)
         (l : list A) : list A :=
  match l with
  | [] => [x]
  | y :: l' => if leb x y then x :: l else y :: insert_sorted leb x l'
  end.

Fixpoint order_by {A : Type} (leb : A -> A -> bool) (l : list A) : list A :=
  match l with
  | [] => []
  | x :: l' => insert_sorted leb x (order_by leb l')
  end.

(** The order relation of a boolean comparison. *)
Definition le_of {A : Type} (leb : A -> A -> bool) (a b : A) : Prop :=
  leb a b = true.

(** The projection of the [SELECT] list. *)
Definition selected (r : column_row) : string * string * string :=
  (table_name r, column_name r, data_type r).

(** The query of [introspect_schema]:
    [SELECT table_name, column_name, data_type
     FROM information_schema.columns WHERE table_schema = 'main'
     ORDER BY table_name, ordinal_position] *)
Definition schema_query (cat : Catalog) : list (string * string * string) :=
  map selected (order_by row_leb (filter in_main cat)).

(** What the database may hand back for that query: the rows of schema
    [main] in an order that [ORDER BY] allows.  Rows that agree on table
    name and position (columns of two relations of one name) may come
    in either order; [schema_query] is one such answer. *)
Definition fetched (cat : Catalog) (rows : list column_row) : Prop :=
  Permutation rows (filter in_main cat)
  /\ StronglySorted (le_of row_leb) rows.

End catalog.

(* ================================================================== *)
(** ** The collaborators of the orchestrator *)
(* ================================================================== *)

(** Identity of an agent object; [a is b] compares identities. *)
Definition ref : Type := nat.

(** [SQLAgent]: a name and the generation capability, which acts on the
    outside world (the provider) and may raise. *)
Record SQLAgent (World : Type) : Type := {
  name : string;
  generate_sql :
    string -> option string -> option string -> string ->
    World -> outcome string * World
}.
Arguments name {World} _.
Arguments generate_sql {World} _ _ _ _ _ _.

(** What [conn.execute(sql)] hands back: the column descriptions (name and
    type code per column) and the row fetch. *)
Record Cursor (World Value : Type) : Type := {
  description : option (list (string * string));
  fetchmany : Z -> World -> outcome (list (list Value)) * World
}.
Arguments description {World Value} _.
Arguments fetchmany {World Value} _ _ _.

(** Everything outside the orchestrator: the world its calls act on, the
    agent objects, the database connection, the clock and the settings. *)
Class Host : Type := {
  World : Type;
  Value : Type;
  DataFrame : Type;
  settings : Settings;
  agent_at : ref -> SQLAgent World;
  conn_execute : string -> World -> outcome (Cursor World Value) * World;
  conn_catalog : World -> catalog.Catalog;
  perf_counter : World -> Q * World;
  (** [seed_random_data(n_rows=, weirdness=, rng_seed=)]: opens the
      connection and creates the base tables. *)
  seed_random_data : Z -> Q -> Z -> World -> outcome unit * World;
  (** [conn.register(name + "_df", df)] and then [CREATE OR REPLACE TABLE
      name AS SELECT * FROM name_df]: the database may refuse either. *)
  create_table_from : string -> DataFrame -> World -> outcome unit * World;
  (** [repr] of a [str] *)
  repr_str : string -> string
}.

(* ================================================================== *)
(** ** app/core/fight_manager.py *)
(* ================================================================== *)

Module fight_manager.

(** The loop of [introspect_schema] over the fetched rows. *)
Fixpoint schema_lines (current_table : option string)
         (rows : list (string * string * string)) : list string :=
  match rows with
  | [] => []
  | (table_name, col_name, data_type) :: rest =>
      let changed :=
        match current_table with
        | Some t => negb (String.eqb table_name t)
        | None => true
        end in
      let current_table := if changed then Some table_name else current_table in
      let header :=
        if changed then [String "010" "TABLE " ++ table_name ++ ":"] else [] in
      (header
       ++ ("  - " ++ col_name ++ " (" ++ data_type ++ ")")%string
       :: schema_lines current_table rest)%list
  end.

Definition introspect_schema (conn : catalog.Catalog) : string :=
  let rows := catalog.schema_query conn in
  Py.join (String "010" "") (schema_lines None rows).

Definition _theme_prompt (theme : string) : string :=
  let theme := Py.strip (Py.lower theme) in
  if String.eqb theme "finance bros" then
    "Make an absurd finance-style query referencing salaries, bonuses, "
    ++ "offshore accounts, and suspicious transactions."
  else if String.eqb theme "space pirates" then
    "Make a chaotic, space-pirate themed query about stolen goods, "
    ++ "illegal trades, and intergalactic bounties."
  else if String.eqb theme "healthcare" then
    "Make a healthcare-flavored query about patients, treatments, "
    ++ "billing, and questionable procedures."
  else if String.eqb theme "gaming" then
    "Make a gaming-style query about players, scores, loot drops, "
    ++ "and ridiculous achievements."
  else if String.eqb theme "fantasy kingdom" then
    "Make a fantasy kingdom query involving dragons, gold, quests, "
    ++ "and wildly unbalanced magic items."
  else
    "Write an absurd, theatrical SQL query that surfaces the 'weirdest' "
    ++ "things in the data.".

Definition _difficulty_prompt (difficulty : string) : string :=
  let difficulty := Py.strip (Py.lower difficulty) in
  if String.eqb difficulty "tryhard" then
    "Use at least one JOIN, GROUP BY, and a CASE expression to make it more complex."
  else if String.eqb difficulty "insane window functions" then
    "Use multiple JOINs, nested subqueries, CTEs, and window functions "
    ++ "to make the query hilariously overengineered."
  else
    "Keep it relatively simple but still weird. One or two joins max, "
    ++ "no need for heavy window functions.".

Definition _estimate_tokens (text : string) : Z :=
  match text with
  | EmptyString => 0
  | _ => Z.max 1 (Z.of_nat (String.length text) / 4)
  end.

Definition _sanitize_table_name (name : string) : string :=
  let name := Py.strip name in
  match name with
  | EmptyString => "user_table"
  | _ =>
      let name := Py.replace (Py.lower name) " " "_" in
      let name :=
        Py.filter_chars (fun ch => Py.isalnum ch || Ascii.eqb ch "_") name in
      let name := match name with EmptyString => "user_table" | _ => name end in
      match name with
      | String c _ => if Py.isdigit c then "t_" ++ name else name
      | EmptyString => name
      end
  end.

Section Orchestrator.

Context {host : Host}.

Definition Turn : Type := fight_log.AgentTurn Value.

(** The part of a [FightManager] that [run_fight] only reads. *)
Record FightManager : Type := {
  agent_a : ref;
  agent_b : ref;
  rounds : Z;
  schema_description : string;
  extra_table_names : list string
}.

(** What [run_fight] changes: [self.turns] and the outside world (which
    holds [self.conn]). *)
Record FightState : Type := {
  turns : list Turn;
  world : World
}.

(** Computations that read and change the state and may raise. *)
Definition M (A : Type) : Type := FightState -> outcome A * FightState.

Definition ret {A : Type} (a : A) : M A := fun s => (Returned a, s).

Definition bind {A B : Type} (m : M A) (k : A -> M B) : M B :=
  fun s =>
    match m s with
    | (Returned a, s') => k a s'
    | (Raised e, s') => (Raised e, s')
    end.

Definition raise {A : Type} (e : exn) : M A := fun s => (Raised e, s).

(** [try: m  except Exception as e: handler e] *)
Definition try_except {A : Type} (m : M A) (handler : exn -> M A) : M A :=
  fun s =>
    match m s with
    | (Returned a, s') => (Returned a, s')
    | (Raised e, s') => handler e s'
    end.

(** A call into the outside world that may raise. *)
Definition call {A : Type} (f : World -> outcome A * World) : M A :=
  fun s =>
    let (r, w) := f (world s) in
    (r, {| turns := turns s; world := w |}).

(** A call into the outside world that cannot raise. *)
Definition observe {A : Type} (f : World -> A * World) : M A :=
  fun s =>
    let (a, w) := f (world s) in
    (Returned a, {| turns := turns s; world := w |}).

(** [self.turns.append(turn)] *)
Definition append_turn (t : Turn) : M unit :=
  fun s => (Returned tt, {| turns := turns s ++ [t]; world := world s |}).

Definition get_turns : M (list Turn) := fun s => (Returned (turns s), s).

Notation "x <- m ;; k" := (bind m (fun x => k))
  (at level 61, m at next level, right associativity).
Notation "' p <- m ;; k" := (bind m (fun x => let 'p := x in k))
  (at level 61, p pattern, m at next level, right associativity).

(** [for x in xs: acc = body(x, acc)] *)
Fixpoint for_each {A S : Type} (xs : list A) (body : A -> S -> M S)
         (acc : S) : M S :=
  match xs with
  | [] => ret acc
  | x :: xs' => acc' <- body x acc ;; for_each xs' body acc'
  end.

(** [range(lo, hi)] *)
Definition range (lo hi : Z) : list Z :=
  map (fun i => (lo + Z.of_nat i)%Z) (seq 0 (Z.to_nat (hi - lo))).

(** [d[k] = v] on an insertion-ordered dict *)
Fixpoint dict_set (d : fight_log.dict Value) (k : string) (v : Value) : fight_log.dict Value :=
  match d with
  | [] => [(k, v)]
  | (k', v') :: d' =>
      if String.eqb k' k then (k', v) :: d' else (k', v') :: dict_set d' k v
  end.

(** [dict(pairs)] *)
Definition dict_of (pairs : list (string * Value)) : fight_log.dict Value :=
  fold_left (fun d kv => dict_set d (fst kv) (snd kv)) pairs [].

(** [repr] of a list of [str] *)
Definition repr_list (keys : list string) : string :=
  "[" ++ Py.join ", " (map repr_str keys) ++ "]".

Definition _summarize_result (rows_preview : list (fight_log.dict Value)) : string :=
  match rows_preview with
  | [] => "No rows returned."
  | first :: _ =>
      Py.str_of_Z (Z.of_nat (List.length rows_preview))
      ++ " rows previewed; "
      ++ "first row keys: " ++ repr_list (map fst first)
  end.

(** [human_sqls[i]] *)
Definition subscript (human_sqls : option (list string)) (i : nat) : M string :=
  match human_sqls with
  | None => raise (mk_exn TypeError "'NoneType' object is not subscriptable")
  | Some l =>
      match nth_error l i with
      | Some q => ret q
      | None => raise (mk_exn IndexError "list index out of range")
      end
  end.

(** The local variables that one round hands to the next. *)
Record Locals : Type := {
  previous_query : option string;
  previous_result_summary : option string;
  challenge : string;
  current_agent : ref;
  human_turn_index : nat
}.

Definition REJECTED : string :=
  "Rejected: query is not SELECT-only or contains forbidden keywords.".

Definition is_none {A : Type} (o : option A) : bool :=
  match o with None => true | Some _ => false end.

(** How a round gets its SQL: the human's next query in ["you_vs_ai"] mode
    when it is agent A's turn, the current agent's generation otherwise.
    Gives the text, the next [human_turn_index] and [estimated_tokens]. *)
Definition obtain_sql (self : FightManager) (mode : string)
           (human_sqls : option (list string)) (loc : Locals)
  : M (string * nat * Z) :=
  if String.eqb mode "you_vs_ai"
     && Nat.eqb (current_agent loc) (agent_a self)
  then
    sql <- subscript human_sqls (human_turn_index loc) ;;
    ret (sql, S (human_turn_index loc), 0%Z)
  else
    sql <- call (generate_sql (agent_at (current_agent loc))
                   (schema_description self)
                   (previous_query loc)
                   (previous_result_summary loc)
                   (challenge loc)) ;;
    ret (sql, human_turn_index loc, _estimate_tokens sql).

(** The admission check and the guarded execution: gives [error] and
    [rows_preview]. *)
Definition check_and_execute (valid : bool) (sql : string)
  : M (option string * option (list (fight_log.dict Value))) :=
  if negb valid then ret (Some REJECTED, None)
  else
    try_except
      (result <- call (conn_execute sql) ;;
       rows <- call (fetchmany result (max_rows_preview settings)) ;;
       let col_names :=
         match description result with
         | Some ds => map fst ds
         | None => []
         end in
       ret (None, Some (map (fun row => dict_of (combine col_names row)) rows)))
      (fun e => ret (Some (exn_str e), None)).

Definition next_challenge (theme difficulty_text : string) : string :=
  "Building on the previous query and result, stay in the '"
  ++ theme ++ "' theme. " ++ difficulty_text
  ++ " Make it even more outrageous and complex than before.".

(** The body of the [for round_num in range(1, self.rounds + 1)] loop. *)
Definition round_body (self : FightManager) (mode : string)
           (human_sqls : option (list string)) (theme difficulty_text : string)
           (on_progress : option (Z -> Z -> World -> World))
           (round_num : Z) (loc : Locals) : M Locals :=
  start_time <- observe perf_counter ;;
  '(sql, next_index, estimated_tokens) <- obtain_sql self mode human_sqls loc ;;
  let valid := is_select_only sql in
  '(error, rows_preview) <- check_and_execute valid sql ;;
  end_time <- observe perf_counter ;;
  let duration := end_time - start_time in
  let score := complexity_score sql in
  let turn :=
    {| fight_log.round_number := round_num;
       fight_log.agent_name := name (agent_at (current_agent loc));
       fight_log.prompt := challenge loc;
       fight_log.sql := sql;
       fight_log.is_valid_sql := valid && is_none error;
       fight_log.error := error;
       fight_log.rows_preview := rows_preview;
       fight_log.complexity_score := score;
       fight_log.duration_seconds := duration;
       fight_log.estimated_tokens := Some estimated_tokens |} in
  _ <- append_turn turn ;;
  _ <- match on_progress with
       | Some notify => observe (fun w => (tt, notify round_num (rounds self) w))
       | None => ret tt
       end ;;
  ret {| previous_query := Some sql;
         previous_result_summary :=
           Some (_summarize_result
                   (match rows_preview with Some l => l | None => [] end));
         challenge := next_challenge theme difficulty_text;
         current_agent :=
           if Nat.eqb (current_agent loc) (agent_a self)
           then agent_b self else agent_a self;
         human_turn_index := next_index |}.

(** [not human_sqls] *)
Definition falsy (human_sqls : option (list string)) : bool :=
  match human_sqls with
  | None | Some [] => true
  | Some (_ :: _) => false
  end.

Definition len (human_sqls : option (list string)) : Z :=
  match human_sqls with
  | Some l => Z.of_nat (List.length l)
  | None => 0
  end.

(** The validation of ["you_vs_ai"] mode before the first round. *)
Definition validate_human_mode (self : FightManager) (mode : string)
           (human_sqls : option (list string)) : M unit :=
  if String.eqb mode "you_vs_ai" then
    let expected_human_turns := (rounds self / 2)%Z in
    if falsy human_sqls || negb (len human_sqls =? expected_human_turns)%Z
    then
      raise (mk_exn ValueError
               ("Expected " ++ Py.str_of_Z expected_human_turns
                ++ " human SQL queries, " ++ "but got "
                ++ Py.str_of_Z (if falsy human_sqls then 0%Z else len human_sqls)
                ++ "."))
    else ret tt
  else ret tt.

Definition run_fight (self : FightManager) (mode : string)
           (human_sqls : option (list string)) (theme difficulty : string)
           (on_progress : option (Z -> Z -> World -> World))
  : M (list Turn) :=
  let theme_text := _theme_prompt theme in
  let difficulty_text := _difficulty_prompt difficulty in
  let base_challenge := theme_text ++ " " ++ difficulty_text in
  let start :=
    {| previous_query := None;
       previous_result_summary := None;
       challenge := base_challenge;
       current_agent := agent_a self;
       human_turn_index := 0 |} in
  _ <- validate_human_mode self mode human_sqls ;;
  _ <- for_each (range 1 (rounds self + 1))
         (round_body self mode human_sqls theme difficulty_text on_progress)
         start ;;
  get_turns.

(** [rounds or settings.fight_rounds_default] *)
Definition rounds_or_default (rounds : option Z) : Z :=
  match rounds with
  | None | Some 0%Z => fight_rounds_default settings
  | Some n => n
  end.

(** The loop of [__init__] over [extra_tables]; it ends at the first
    table that the database refuses. *)
Fixpoint create_extra_tables (extra_tables : list (string * DataFrame))
         (names : list string) (w : World) : outcome (list string) * World :=
  match extra_tables with
  | [] => (Returned names, w)
  | (raw_name, df) :: rest =>
      let table_name := _sanitize_table_name raw_name in
      match create_table_from table_name df w with
      | (Raised e, w) => (Raised e, w)
      | (Returned _, w) =>
          create_extra_tables rest (names ++ [table_name])%list w
      end
  end.

(** [FightManager.__init__]: seeds the database, creates the uploaded
    tables, takes the schema snapshot and starts with no turns.  When the
    seeding or a table creation raises, no manager is made. *)
Definition init (agent_a agent_b : ref) (rounds : option Z) (n_rows : Z)
           (weirdness : Q) (rng_seed : Z)
           (extra_tables : list (string * DataFrame)) (w : World)
  : outcome (FightManager * FightState) * World :=
  match seed_random_data n_rows weirdness rng_seed w with
  | (Raised e, w) => (Raised e, w)
  | (Returned _, w) =>
      match create_extra_tables extra_tables [] w with
      | (Raised e, w) => (Raised e, w)
      | (Returned names, w) =>
          (Returned
             ({| agent_a := agent_a; agent_b := agent_b;
                 rounds := rounds_or_default rounds;
                 schema_description := introspect_schema (conn_catalog w);
                 extra_table_names := names |},
              {| turns := []; world := w |}), w)
      end
  end.

End Orchestrator.

End fight_manager.

(* ================================================================== *)
(** ** sql_fight_manager.py: the turn executor of the round-based manager *)
(* ================================================================== *)

Module sql_fight_manager.

Section ExecuteRound.

Variables World Row : Type.

(** [FightRound], with the fields its constructor calls give it. *)
Record FightRound : Type := {
  round_number : Z;
  agent_name : string;
  query : option string;
  success : bool;
  error : option string;
  execution_time : Q;
  result_row_count : Z;
  result_preview : option (list Row);
  score : Q
}.

(** [agent.generate_query(schema=, challenge=, previous_query=,
    previous_result_summary=)] *)
Definition Agent : Type :=
  string -> string -> option string -> option string ->
  World -> outcome string * World.

(** The rows fetched by [get_schema] from the catalog of the connection. *)
Variable fetch_schema_rows :
  World -> outcome (list (string * string * string)) * World.
(** [validate_query], [execute_query_safely], [calculate_query_score] and
    [time.time]: the helpers the manager imports. *)
Variable validate_query : string -> bool * string.
Variable execute_query_safely :
  string -> Z -> World -> (option (list Row) * option string) * World.
Variable calculate_query_score : string -> Z -> Q -> Q.
Variable time_time : World -> Q * World.

Definition QUERY_TIMEOUT_SECONDS : Z := 10.

Fixpoint schema_text (current_table : option string)
         (rows : list (string * string * string)) : string :=
  match rows with
  | [] => ""
  | (table, column, dtype) :: rest =>
      let changed :=
        match current_table with
        | Some t => negb (String.eqb table t)
        | None => true
        end in
      (if changed then String "010" table ++ String ":" (String "010" "") else "")
      ++ "  - " ++ column ++ " (" ++ dtype ++ String ")" (String "010" "")
      ++ schema_text (if changed then Some table else current_table) rest
  end.

Definition get_schema (w : World) : outcome string * World :=
  match fetch_schema_rows w with
  | (Returned result, w') =>
      (Returned ("Database Schema:" ++ String "010" (schema_text None result)), w')
  | (Raised e, w') => (Raised e, w')
  end.

(** [if error:] on an optional string *)
Definition truthy (error : option string) : bool :=
  match error with
  | None | Some EmptyString => false
  | Some _ => true
  end.

Definition execute_round (round_num : Z) (agent : Agent) (agent_name : string)
           (challenge : string) (previous_query : option string)
           (previous_result_summary : option string) (w : World)
  : outcome FightRound * World :=
  match get_schema w with
  | (Raised e, w) => (Raised e, w)
  | (Returned schema, w) =>
      (* try: query = agent.generate_query(...)  except Exception as e: *)
      match agent schema challenge previous_query previous_result_summary w with
      | (Raised e, w) =>
          (Returned
             {| round_number := round_num; agent_name := agent_name;
                query := None; success := false;
                error := Some ("Agent failed to generate query: " ++ exn_str e);
                execution_time := 0; result_row_count := 0;
                result_preview := None; score := 0 |}, w)
      | (Returned query, w) =>
          let (is_valid, validation_error) := validate_query query in
          if negb is_valid then
            (Returned
               {| round_number := round_num; agent_name := agent_name;
                  query := Some query; success := false;
                  error := Some ("Query validation failed: " ++ validation_error);
                  execution_time := 0; result_row_count := 0;
                  result_preview := None; score := 0 |}, w)
          else
            let (start_time, w) := time_time w in
            let '((result, error), w) :=
              execute_query_safely query QUERY_TIMEOUT_SECONDS w in
            let (end_time, w) := time_time w in
            let execution_time := end_time - start_time in
            if truthy error then
              (Returned
                 {| round_number := round_num; agent_name := agent_name;
                    query := Some query; success := false;
                    error := error;
                    execution_time := execution_time; result_row_count := 0;
                    result_preview := None; score := 0 |}, w)
            else
              let row_count :=
                match result with
                | Some ((_ :: _) as rows) => Z.of_nat (List.length rows)
                | _ => 0%Z
                end in
              let score := calculate_query_score query row_count execution_time in
              let result_preview :=
                match result with
                | Some ((_ :: _) as rows) => Some (firstn 10 rows)
                | _ => None
                end in
              (Returned
                 {| round_number := round_num; agent_name := agent_name;
                    query := Some query; success := true;
                    error := None;
                    execution_time := execution_time;
                    result_row_count := row_count;
                    result_preview := result_preview; score := score |}, w)
      end
  end.

(** The names of the two sides and the tie marker of the configuration;
    their texts hold symbols outside the character range of [string]. *)
Variables AGENT_A_NAME AGENT_B_NAME TIE : string.

(** [f"{x:.2f}"] *)
Variable format_2f : Q -> string.

(** [FightState] *)
Record FightState : Type := {
  current_round : Z;
  agent_a_score : Q;
  agent_b_score : Q;
  rounds : list FightRound;
  winner : option string
}.

(** [FightResult], with the fields its constructor call gives it. *)
Record FightResult : Type := {
  result_total_rounds : Z;
  result_agent_a_score : Q;
  result_agent_b_score : Q;
  result_winner : option string;
  result_rounds : list FightRound
}.

(** What [run_fight] reads of the manager. *)
Record FightManager : Type := {
  agent_a : Agent;
  agent_b : Agent;
  num_rounds : Z
}.

(** The table of [_generate_challenge]. *)
Definition challenges (round_num : Z) : option string :=
  match round_num with
  | 1%Z => Some "Write a SELECT query to explore the data. Keep it simple to start."
  | 2%Z => Some "Now add some JOINs. Show off your relational skills."
  | 3%Z => Some "Time to get fancy. Use aggregations, GROUP BY, or window functions."
  | 4%Z => Some "Your opponent is getting cocky. Use CTEs or subqueries to crush them."
  | 5%Z => Some ("FINAL ROUND. Go completely unhinged. Recursive CTEs? "
                 ++ "Lateral joins? Whatever it takes.")
  | _ => None
  end.

Definition _generate_challenge (round_num : Z) (agent : string)
           (opponent_query : option string) : string :=
  let base_challenge :=
    match challenges round_num with
    | Some c => c
    | None => "Write an impressive SQL query."
    end in
  match opponent_query with
  | Some q =>
      if truthy opponent_query && (1 <? round_num)%Z
      then base_challenge
           ++ String "010" (String "010" "Your opponent just wrote this:")
           ++ String "010" q
           ++ String "010" (String "010" "One-up them.")
      else base_challenge
  | None => base_challenge
  end.

(** The four [previous_*] variables of [run_fight]. *)
Record Carry : Type := {
  previous_a_query : option string;
  previous_b_query : option string;
  previous_a_summary : option string;
  previous_b_summary : option string
}.

(** [f"Returned {r.result_row_count} rows in {r.execution_time:.2f}s"] *)
Definition summary_of (r : FightRound) : string :=
  "Returned " ++ Py.str_of_Z (result_row_count r) ++ " rows in "
  ++ format_2f (execution_time r) ++ "s".

(** The body of the loop of [run_fight]: agent A's turn, then agent B's. *)
Definition fight_round (self : FightManager) (round_num : Z) (c : Carry)
           (st : FightState) (w : World)
  : outcome Carry * FightState * World :=
  let st :=
    {| current_round := round_num;
       agent_a_score := agent_a_score st; agent_b_score := agent_b_score st;
       rounds := rounds st; winner := winner st |} in
  let challenge_a := _generate_challenge round_num "A" (previous_b_query c) in
  match execute_round round_num (agent_a self) AGENT_A_NAME challenge_a
          (previous_b_query c) (previous_b_summary c) w with
  | (Raised e, w) => (Raised e, st, w)
  | (Returned round_a, w) =>
      let st :=
        {| current_round := current_round st;
           agent_a_score := agent_a_score st + score round_a;
           agent_b_score := agent_b_score st;
           rounds := (rounds st ++ [round_a])%list; winner := winner st |} in
      let c :=
        if success round_a
        then {| previous_a_query := query round_a;
                previous_b_query := previous_b_query c;
                previous_a_summary := Some (summary_of round_a);
                previous_b_summary := previous_b_summary c |}
        else c in
      let challenge_b :=
        _generate_challenge round_num "B" (previous_a_query c) in
      match execute_round round_num (agent_b self) AGENT_B_NAME challenge_b
              (previous_a_query c) (previous_a_summary c) w with
      | (Raised e, w) => (Raised e, st, w)
      | (Returned round_b, w) =>
          let st :=
            {| current_round := current_round st;
               agent_a_score := agent_a_score st;
               agent_b_score := agent_b_score st + score round_b;
               rounds := (rounds st ++ [round_b])%list;
               winner := winner st |} in
          let c :=
            if success round_b
            then {| previous_a_query := previous_a_query c;
                    previous_b_query := query round_b;
                    previous_a_summary := previous_a_summary c;
                    previous_b_summary := Some (summary_of round_b) |}
            else c in
          (Returned c, st, w)
      end
  end.

(** [for round_num in range(1, self.num_rounds + 1)] *)
Fixpoint fight_rounds (self : FightManager) (round_nums : list Z) (c : Carry)
         (st : FightState) (w : World)
  : outcome Carry * FightState * World :=
  match round_nums with
  | [] => (Returned c, st, w)
  | round_num :: rest =>
      match fight_round self round_num c st w with
      | (Raised e, st, w) => (Raised e, st, w)
      | (Returned c, st, w) => fight_rounds self rest c st w
      end
  end.

(** The winner, by the accumulated scores. *)
Definition decide_winner (a_score b_score : Q) : string :=
  if negb (Qle_bool a_score b_score) then AGENT_A_NAME
  else if negb (Qle_bool b_score a_score) then AGENT_B_NAME
  else TIE.

Definition run_fight (self : FightManager) (st : FightState) (w : World)
  : outcome FightResult * FightState * World :=
  let start :=
    {| previous_a_query := None; previous_b_query := None;
       previous_a_summary := None; previous_b_summary := None |} in
  match fight_rounds self (fight_manager.range 1 (num_rounds self + 1))
          start st w with
  | (Raised e, st, w) => (Raised e, st, w)
  | (Returned _, st, w) =>
      let st :=
        {| current_round := current_round st;
           agent_a_score := agent_a_score st;
           agent_b_score := agent_b_score st;
           rounds := rounds st;
           winner :=
             Some (decide_winner (agent_a_score st) (agent_b_score st)) |} in
      (Returned
         {| result_total_rounds := num_rounds self;
            result_agent_a_score := agent_a_score st;
            result_agent_b_score := agent_b_score st;
            result_winner := winner st;
            result_rounds := rounds st |}, st, w)
  end.

(** [FightManager.__init__]: the state a manager starts with. *)
Definition initial_state : FightState :=
  {| current_round := 0; agent_a_score := 0; agent_b_score := 0;
     rounds := []; winner := None |}.

End ExecuteRound.

End sql_fight_manager.

(* ================================================================== *)
(** ** The properties, as the specification words them *)
(* ================================================================== *)

Module spec.

(** [s] without its first [n] characters. *)
Definition drop (n : nat) (s : string) : string :=
  substring n (String.length s - n) s.

(** The text begins, after leading white space, with the token SELECT in
    any letter case: the six letters, then the end of the text or a
    character that cannot continue a word. *)
Definition begins_with_select_token (text : string) : bool :=
  let t := Py.lstrip text in
  String.eqb (Py.lower (substring 0 6 t)) "select"
  && negb (Re.word_after (drop 6 t)).

(** [kw] occurs in [text] at some position, letter case ignored. *)
Definition occurs_ignoring_case (kw text : string) : Prop :=
  exists pre mid post,
    text = pre ++ mid ++ post /\ Py.lower mid = Py.lower kw.

(** The text without its leading white space. *)
Fixpoint lstrip (s : Unicode.str) : Unicode.str :=
  match s with
  | c :: s' => if Unicode.isspace c then lstrip s' else s
  | [] => []
  end.

(** What follows in [t] after one character of each of the [letters], in
    order; [None] when [t] does not begin so. *)
Fixpoint after_letters (letters : list (list N)) (t : Unicode.str)
  : option Unicode.str :=
  match letters, t with
  | [], _ => Some t
  | variants :: letters', c :: t' =>
      if existsb (N.eqb c) variants then after_letters letters' t' else None
  | _ :: _, [] => None
  end.

(** The text begins, after leading white space, with a word spelled by
    [letters]: its letters, then the end of the text or a character that
    cannot continue a word. *)
Definition begins_with_word (letters : list (list N)) (text : Unicode.str)
  : bool :=
  match after_letters letters (lstrip text) with
  | Some rest => negb (Unicode.word_after rest)
  | None => false
  end.

(** SELECT, each letter in upper or lower case. *)
Definition SELECT_letters : list (list N) :=
  [[83; 115]; [69; 101]; [76; 108]; [69; 101]; [67; 99]; [84; 116]]%N.

(** SELECT as [re.IGNORECASE] reads it: the long s, U+017F, is one more
    case of the letter S. *)
Definition SELECT_ignoring_case : list (list N) :=
  [[83; 115; 383]; [69; 101]; [76; 108]; [69; 101]; [67; 99]; [84; 116]]%N.

(** The weighted substrings of the scorer. *)
Definition WEIGHTS : list (string * Q) :=
  [(" join ", 2); (" group by ", 3 # 2); (" order by ", 1);
   (" over(", 3); (" case ", 3 # 2); ("(", 1 # 5)].

Definition same_letter (a b : ascii) : bool :=
  Ascii.eqb (Py.lower_char a) (Py.lower_char b).

(** [sub] stands at the start of [s], letter case ignored. *)
Fixpoint prefix_ignoring_case (sub s : string) : bool :=
  match sub, s with
  | EmptyString, _ => true
  | String a sub', String b s' => same_letter a b && prefix_ignoring_case sub' s'
  | String _ _, EmptyString => false
  end.

(** Occurrences of [sub] in [text], letter case ignored, taken from left
    to right without overlap. *)
Fixpoint occurrences_from (sub : string) (skip : nat) (text : string) : nat :=
  match text with
  | EmptyString => 0
  | String _ rest =>
      match skip with
      | S k => occurrences_from sub k rest
      | O => if prefix_ignoring_case sub text
             then S (occurrences_from sub (String.length sub - 1) rest)
             else occurrences_from sub 0 rest
      end
  end.

Definition occurrences (sub text : string) : nat := occurrences_from sub 0 text.

(** The sum over the table of count times weight. *)
Definition weighted_sum (text : string) : Q :=
  fold_left
    (fun acc (entry : string * Q) =>
       acc + of_count (occurrences (fst entry) text) * snd entry)
    WEIGHTS 0.

(** A number of hundredths. *)
Definition hundredths (q : Q) : Prop := exists z : Z, q == z # 100.

(** The schema text: per table of the active schema, ordered by name, a
    header line and then a line per column in declared position order. *)
Definition header (name : string) : string :=
  String "010" "TABLE " ++ name ++ ":".

Definition column_line (r : catalog.column_row) : string :=
  "  - " ++ catalog.column_name r ++ " (" ++ catalog.data_type r ++ ")".

(** A table of the description: its name and its columns. *)
Definition block : Type := string * list catalog.column_row.

Definition block_lines (b : block) : list string :=
  header (fst b) :: map column_line (snd b).

Definition schema_text (blocks : list block) : string :=
  Py.join (String "010" "") (flat_map block_lines blocks).

Definition name_before (a b : string) : Prop := String.compare a b = Lt.

Definition by_position (a b : catalog.column_row) : Prop :=
  (catalog.ordinal_position a <= catalog.ordinal_position b)%nat.

(** [blocks] describes the catalog: the table names of schema [main],
    each once and in increasing order; with each name its columns, at
    least one, in position order; together they are the rows of schema
    [main], each once. *)
Definition describes (cat : catalog.Catalog) (blocks : list block) : Prop :=
  StronglySorted name_before (map fst blocks)
  /\ Forall (fun b : block =>
               snd b <> []
               /\ Forall (fun r => catalog.table_name r = fst b) (snd b)
               /\ StronglySorted by_position (snd b)) blocks
  /\ Permutation (flat_map snd blocks) (filter catalog.in_main cat).

(** A lexically safe identifier: not empty, only alphanumeric characters
    and underscores, no digit in front. *)
Fixpoint all_chars (ok : ascii -> bool) (s : string) : bool :=
  match s with
  | EmptyString => true
  | String c s' => ok c && all_chars ok s'
  end.

Definition safe_identifier (s : string) : bool :=
  match s with
  | EmptyString => false
  | String c _ =>
      negb (Py.isdigit c)
      && all_chars (fun ch => Py.isalnum ch || Ascii.eqb ch "_") s
  end.

Section Records.

Context {host : Host}.

(** The invariant of a turn record: an error excludes validity, and a
    valid record without error carries a row preview. *)
Definition turn_ok (t : fight_manager.Turn) : Prop :=
  (forall e, fight_log.error t = Some e -> fight_log.is_valid_sql t = false)
  /\ (fight_log.error t = None -> fight_log.is_valid_sql t = true ->
      exists rows, fight_log.rows_preview t = Some rows).

(** The agent whose turn the [i]-th record (from 0) is: A, B, A, B, ... *)
Definition side (self : fight_manager.FightManager) (i : nat) : ref :=
  if Nat.even i then fight_manager.agent_a self else fight_manager.agent_b self.

(** Every call of every agent's generation capability returns text. *)
Definition agents_return_text : Prop :=
  forall (r : ref) schema previous_query previous_result_summary challenge w,
  exists text w',
    generate_sql (agent_at r) schema previous_query previous_result_summary
      challenge w = (Returned text, w').

End Records.

End spec.

(* ================================================================== *)
(** ** A concrete host: one table [t] of five rows and scripted agents *)
(* ================================================================== *)

Module demo.

Definition SELECT_ALL : string := "SELECT * FROM t".

(** The world counts the calls made to the agents and to the database. *)
Definition scripted (agent_name text : string) : SQLAgent nat :=
  {| name := agent_name;
     generate_sql := fun _ _ _ _ w => (Returned text, S w) |}.

Definition failing (agent_name : string) : SQLAgent nat :=
  {| name := agent_name;
     generate_sql := fun _ _ _ _ w =>
       (Raised (mk_exn OtherException "provider unavailable"), S w) |}.

Definition five_rows : list (list Z) :=
  [[1; 10]; [2; 20]; [3; 30]; [4; 40]; [5; 50]]%Z.

Definition cursor : Cursor nat Z :=
  {| description := Some [("id", "NUMBER"); ("v", "NUMBER")];
     fetchmany := fun n w => (Returned (firstn (Z.to_nat n) five_rows), w) |}.

Definition column (tbl col : string) (pos : nat) (ty : string)
  : catalog.column_row :=
  {| catalog.table_schema := "main"; catalog.table_name := tbl;
     catalog.column_name := col; catalog.ordinal_position := pos;
     catalog.data_type := ty |}.

Definition tables : catalog.Catalog :=
  [column "t" "id" 1 "INTEGER"; column "t" "v" 2 "INTEGER"].

(** A second table, its columns held out of order. *)
Definition people : catalog.Catalog :=
  [column "people" "name" 2 "VARCHAR"; column "people" "id" 1 "INTEGER"].

Definition host_with (agents : ref -> SQLAgent nat) : Host :=
  {| World := nat;
     Value := Z;
     DataFrame := unit;
     settings := default_settings;
     agent_at := agents;
     conn_execute := fun sql w =>
       if String.eqb sql SELECT_ALL then (Returned cursor, S w)
       else (Raised (mk_exn OtherException "Parser Error"), S w);
     conn_catalog := fun _ => tables;
     perf_counter := fun w => (inject_Z (Z.of_nat w), w);
     seed_random_data := fun _ _ _ w => (Returned tt, w);
     create_table_from := fun _ _ w => (Returned tt, w);
     repr_str := fun s => "'" ++ s ++ "'" |}.

(** Both agents answer [SELECT * FROM t]. *)
Definition host : Host :=
  host_with (fun r => if Nat.eqb r 0 then scripted "Agent A" SELECT_ALL
                      else scripted "Agent B" SELECT_ALL).

(** Agent A's provider fails. *)
Definition failing_host : Host :=
  host_with (fun r => if Nat.eqb r 0 then failing "Agent A"
                      else scripted "Agent B" SELECT_ALL).

(** [FightManager(agent_a, agent_b, rounds=n)] on a fresh world: the
    manager and its state as [__init__] leaves them.  On the hosts of
    this section the construction never raises; where it does there is
    no manager, and [fresh] keeps the agents and the rounds only. *)
Definition fresh (h : Host) (w : @World h) (n : Z)
  : fight_manager.FightManager * @fight_manager.FightState h :=
  match @fight_manager.init h 0%nat 1%nat (Some n) 200%Z 1%Q 42%Z [] w with
  | (Returned made, _) => made
  | (Raised _, w') =>
      ({| fight_manager.agent_a := 0%nat; fight_manager.agent_b := 1%nat;
          fight_manager.rounds := @fight_manager.rounds_or_default h (Some n);
          fight_manager.schema_description := "";
          fight_manager.extra_table_names := [] |},
       @fight_manager.Build_FightState h [] w')
  end.

(** [manager.run_fight(mode=, human_sqls=)] with the default theme and
    difficulty and no progress callback. *)
Definition fight (h : Host) (self : fight_manager.FightManager)
           (mode : string) (human_sqls : option (list string))
  : @fight_manager.M h (list (@fight_manager.Turn h)) :=
  @fight_manager.run_fight h self mode human_sqls "Default chaos" "Chill" None.

(** The state of a two-round manager after one dual-agent fight. *)
Definition after_first_fight : @fight_manager.FightState host :=
  snd (fight host (fst (fresh host 0%nat 2)) "ai_vs_ai" None
         (snd (fresh host 0%nat 2))).

End demo.

(* ================================================================== *)
(** ** Vocabulary of the further properties *)
(* ================================================================== *)

Module props.

(** The characters that a run maps to [t]. *)
Fixpoint preimages (runs : list (N * N * N * N)) (t : N) : list N :=
  match runs with
  | [] => []
  | (first, last, image, step) :: rest =>
      ((if (image <=? t) && (t <=? image + (last - first))
           && ((t - image) mod step =? 0)
        then [first + (t - image)] else [])
       ++ preimages rest t)%N%list
  end.

(** The text "ſelect 1": a long s, then [elect 1]. *)
Definition long_s_select : Unicode.str :=
  [383; 101; 108; 101; 99; 116; 32; 49]%N.
(** The code point of the character in front, if any. *)
Definition code_of (prev : option ascii) : option N :=
  option_map N_of_ascii prev.

(** The rows grouped by table name: each run of rows of one name, with
    that name. *)
Fixpoint group (rows : list catalog.column_row) : list spec.block :=
  match rows with
  | [] => []
  | r :: rest =>
      match group rest with
      | (n, rs) :: bs =>
          if String.eqb (catalog.table_name r) n then (n, r :: rs) :: bs
          else (catalog.table_name r, [r]) :: (n, rs) :: bs
      | [] => [(catalog.table_name r, [r])]
      end
  end.

(** What [ORDER BY table_name, ordinal_position] compares. *)
Definition position_key (r : catalog.column_row) : string * nat :=
  (catalog.table_name r, catalog.ordinal_position r).

(** A character that [_sanitize_table_name] leaves alone: alphanumeric or
    underscore, and not changed by [str.lower]. *)
Definition tidy_char (c : ascii) : bool :=
  (Py.isalnum c || Ascii.eqb c "_") && Ascii.eqb (Py.lower_char c) c.

(** A name made of such characters, not empty, no digit in front. *)
Definition tidy_name (s : string) : bool :=
  match s with
  | EmptyString => false
  | String c _ => negb (Py.isdigit c) && spec.all_chars tidy_char s
  end.

Section Rounds.

Context {host : Host}.

(** The record a round makes of the SQL it obtained, the outcome of the
    guarded execution and the time it took. *)
Definition turn_of (round_num : Z) (loc : fight_manager.Locals)
           (q : string) (tokens : Z) (error : option string)
           (rows_preview : option (list (fight_log.dict Value)))
           (duration : Q) : fight_manager.Turn :=
  {| fight_log.round_number := round_num;
     fight_log.agent_name :=
       name (agent_at (fight_manager.current_agent loc));
     fight_log.prompt := fight_manager.challenge loc;
     fight_log.sql := q;
     fight_log.is_valid_sql := is_select_only q && fight_manager.is_none error;
     fight_log.error := error;
     fight_log.rows_preview := rows_preview;
     fight_log.complexity_score := complexity_score q;
     fight_log.duration_seconds := duration;
     fight_log.estimated_tokens := Some tokens |}.

(** The local variables a round hands on. *)
Definition locals_after (self : fight_manager.FightManager)
           (theme difficulty_text : string) (loc : fight_manager.Locals)
           (q : string) (idx : nat)
           (rows_preview : option (list (fight_log.dict Value)))
  : fight_manager.Locals :=
  {| fight_manager.previous_query := Some q;
     fight_manager.previous_result_summary :=
       Some (fight_manager._summarize_result
               (match rows_preview with Some l => l | None => [] end));
     fight_manager.challenge :=
       fight_manager.next_challenge theme difficulty_text;
     fight_manager.current_agent :=
       if Nat.eqb (fight_manager.current_agent loc)
                  (fight_manager.agent_a self)
       then fight_manager.agent_b self else fight_manager.agent_a self;
     fight_manager.human_turn_index := idx |}.

(** The world once the progress callback, if any, has been told. *)
Definition after_progress (on_progress : option (Z -> Z -> World -> World))
           (round_num total : Z) (w : World) : World :=
  match on_progress with
  | Some notify => notify round_num total w
  | None => w
  end.

(** What holds of every record, whatever the round: the score is that of
    its SQL text; a record marked valid holds admitted SQL and no error;
    a text that is not admitted is recorded with the fixed rejection
    message and without rows. *)
Definition record_ok (t : fight_manager.Turn) : Prop :=
  fight_log.complexity_score t = complexity_score (fight_log.sql t)
  /\ (fight_log.is_valid_sql t = true ->
      is_select_only (fight_log.sql t) = true /\ fight_log.error t = None)
  /\ (is_select_only (fight_log.sql t) = false ->
      fight_log.error t = Some fight_manager.REJECTED
      /\ fight_log.rows_preview t = None).

(** The prompt of the record of index [i]: the theme and difficulty
    texts at first, the follow-up text from then on. *)
Definition prompt_at (theme difficulty : string) (i : nat) : string :=
  match i with
  | O => fight_manager._theme_prompt theme ++ " "
         ++ fight_manager._difficulty_prompt difficulty
  | S _ => fight_manager.next_challenge theme
             (fight_manager._difficulty_prompt difficulty)
  end.

End Rounds.

(** A host whose agents always answer with a statement that is not
    admitted. *)
Definition dropping_host : Host :=
  demo.host_with (fun _ => demo.scripted "Agent A" "DROP TABLE t").

Section PreviewRows.

Context {host : Host}.

(** [d.get(k)] *)
Fixpoint dict_get (d : fight_log.dict Value) (k : string) : option Value :=
  match d with
  | [] => None
  | (k', v) :: d' => if String.eqb k' k then Some v else dict_get d' k
  end.

(** The value paired with the last occurrence of [k]. *)
Fixpoint last_value (pairs : list (string * Value)) (k : string)
  : option Value :=
  match pairs with
  | [] => None
  | (k', v) :: rest =>
      match last_value rest k with
      | Some v' => Some v'
      | None => if String.eqb k' k then Some v else None
      end
  end.

End PreviewRows.

(** The members of even index (0, 2, ...) and of odd index of a list. *)
Fixpoint evens {A : Type} (l : list A) : list A :=
  match l with
  | [] => []
  | a :: rest =>
      a :: match rest with
           | [] => []
           | _ :: rest' => evens rest'
           end
  end.

Definition odds {A : Type} (l : list A) : list A :=
  match l with
  | [] => []
  | _ :: rest => evens rest
  end.

(** What holds of every record of the round-based executor: it carries
    the round number and the side's name it was made for; a success has
    no error and holds its query; a failure has an error, scores zero,
    counts no rows and shows none; a preview holds between one and ten
    rows. *)
Definition round_ok {Row : Type} (round_num : Z) (agent_name : string)
           (r : sql_fight_manager.FightRound Row) : Prop :=
  sql_fight_manager.round_number Row r = round_num
  /\ sql_fight_manager.agent_name Row r = agent_name
  /\ (sql_fight_manager.success Row r = true ->
      sql_fight_manager.error Row r = None
      /\ sql_fight_manager.query Row r <> None)
  /\ (sql_fight_manager.success Row r = false ->
      sql_fight_manager.error Row r <> None
      /\ sql_fight_manager.score Row r = 0
      /\ sql_fight_manager.result_row_count Row r = 0%Z
      /\ sql_fight_manager.result_preview Row r = None)
  /\ (forall rows, sql_fight_manager.result_preview Row r = Some rows ->
      (1 <= List.length rows <= 10)%nat).

(** A small arena for the round-based manager: the world counts the
    queries executed; agent A answers, agent B's provider fails. *)
Definition arena_fetch (w : nat)
  : outcome (list (string * string * string)) * nat :=
  (Returned [("t", "id", "INTEGER")], w).

Definition arena_validate (q : string) : bool * string :=
  (is_select_only q, "only SELECT statements are allowed").

Definition arena_execute (q : string) (timeout : Z) (w : nat)
  : (option (list Z) * option string) * nat :=
  ((Some [1; 2; 3]%Z, None), S w).

Definition arena_score (q : string) (row_count : Z) (seconds : Q) : Q :=
  inject_Z row_count.

Definition arena_time (w : nat) : Q * nat := (inject_Z (Z.of_nat w), w).

Definition arena_answering (text : string) : sql_fight_manager.Agent nat :=
  fun _ _ _ _ w => (Returned text, w).

Definition arena_failing : sql_fight_manager.Agent nat :=
  fun _ _ _ _ w => (Raised (mk_exn OtherException "provider unavailable"), w).

Definition arena_manager (n : Z) : sql_fight_manager.FightManager nat :=
  {| sql_fight_manager.agent_a := arena_answering "SELECT 1";
     sql_fight_manager.agent_b := arena_failing;
     sql_fight_manager.num_rounds := n |}.

(** [manager.run_fight()] in the arena. *)
Definition arena_run (self : sql_fight_manager.FightManager nat)
           (st : sql_fight_manager.FightState Z) (w : nat) :=
  sql_fight_manager.run_fight nat Z arena_fetch arena_validate arena_execute
    arena_score arena_time "Agent Alpha" "Agent Beta" "TIE"
    (fun _ => "0.00") self st w.

End props.

(* ================================================================== *)
(** * Proofs *)
(* ================================================================== *)

(** ** Characters and strings *)

Ltac each_char c := destruct c as [[] [] [] [] [] [] [] []].

Lemma space_is_not_s (c : ascii) :
  Py.isspace c = true -> Re.lit_matches "s" c = false.
Proof. each_char c; vm_compute; intro H; (reflexivity || discriminate H). Qed.

Lemma letter_t_is_word (c : ascii) :
  Re.lit_matches "t" c = true -> Re.is_word c = true.
Proof. each_char c; vm_compute; intro H; (reflexivity || discriminate H). Qed.

Lemma lit_matches_eqb (a c : ascii) :
  Py.lower_char a = a ->
  Re.lit_matches a c = Ascii.eqb (Py.lower_char c) a.
Proof. intro Ha. unfold Re.lit_matches. now rewrite Ha. Qed.

Lemma substring_whole (s : string) : substring 0 (String.length s) s = s.
Proof. induction s as [|c s IH]; simpl; [reflexivity | now rewrite IH]. Qed.

Lemma lower_app (a b : string) : Py.lower (a ++ b) = Py.lower a ++ Py.lower b.
Proof. induction a as [|c a IH]; simpl; [reflexivity | now rewrite IH]. Qed.

Lemma prefix_app (a b : string) : prefix a (a ++ b) = true.
Proof.
  induction a as [|c a IH]; simpl.
  - now destruct b.
  - destruct (ascii_dec c c) as [_|ne]; [exact IH | now elim ne].
Qed.

Lemma contains_prefix (sub s : string) :
  prefix sub s = true -> Py.contains sub s = true.
Proof. intro H. destruct s; cbn [Py.contains]; now rewrite H. Qed.

Lemma contains_app (sub pre post : string) :
  Py.contains sub (pre ++ sub ++ post) = true.
Proof.
  induction pre as [|c pre IH].
  - simpl append. apply contains_prefix, prefix_app.
  - simpl append. cbn [Py.contains]. rewrite IH. apply orb_true_r.
Qed.

(** ** The admission filter *)

Section StarSpace.

Variable k : option ascii -> string -> bool.
Hypothesis k_ignores_prev : forall p1 p2 s, k p1 s = k p2 s.
Hypothesis k_rejects_space :
  forall prev c s, Py.isspace c = true -> k prev (String c s) = false.

(** [\s*] in front of a pattern that cannot start with white space skips
    exactly the leading white space. *)
Lemma star_space_lstrip (s : string) (prev : option ascii) :
  Re.star_space k prev s = k None (Py.lstrip s).
Proof.
  revert prev. induction s as [|c s IH]; intro prev; simpl.
  - apply k_ignores_prev.
  - destruct (Py.isspace c) eqn:Hc.
    + rewrite IH, (k_rejects_space prev c s Hc). apply orb_false_r.
    + apply k_ignores_prev.
Qed.

End StarSpace.

Lemma drop_six (c1 c2 c3 c4 c5 c6 : ascii) (rest : string) :
  spec.drop 6
    (String c1 (String c2 (String c3 (String c4 (String c5 (String c6 rest))))))
  = rest.
Proof. unfold spec.drop. simpl. rewrite Nat.sub_0_r. apply substring_whole. Qed.

Lemma select_word_token (prev : option ascii) (t : string) :
  Re.match_here select_word prev t
  = String.eqb (Py.lower (substring 0 6 t)) "select"
    && negb (Re.word_after (spec.drop 6 t)).
Proof.
  unfold select_word.
  destruct t as [|c1 [|c2 [|c3 [|c4 [|c5 [|c6 rest]]]]]];
    cbn [Re.match_here substring Py.lower String.eqb];
    rewrite ?(lit_matches_eqb "s"), ?(lit_matches_eqb "e"),
            ?(lit_matches_eqb "l"), ?(lit_matches_eqb "c"),
            ?(lit_matches_eqb "t") by reflexivity;
    repeat match goal with
           | |- context [Ascii.eqb (Py.lower_char ?c) ?a] =>
               destruct (Ascii.eqb (Py.lower_char c) a) eqn:?
           end;
    cbn [andb]; try reflexivity.
  rewrite drop_six.
  replace (substring 0 0 rest) with EmptyString by (now destruct rest).
  assert (Hw : Re.is_word c6 = true)
    by (apply letter_t_is_word;
        rewrite (lit_matches_eqb "t") by reflexivity; assumption).
  cbn [Re.word_before]. rewrite Hw.
  destruct (Re.word_after rest); reflexivity.
Qed.

(** The compiled pattern accepts exactly the texts that begin, after
    leading white space, with the token SELECT. *)
Lemma select_only_pattern_spec (text : string) :
  Re.re_match SELECT_ONLY_PATTERN text = spec.begins_with_select_token text.
Proof.
  unfold Re.re_match, SELECT_ONLY_PATTERN, spec.begins_with_select_token.
  cbn [Re.match_here].
  change (Re.star_space (Re.match_here select_word) None text = 
          String.eqb (Py.lower (substring 0 6 (Py.lstrip text))) "select"
          && negb (Re.word_after (spec.drop 6 (Py.lstrip text)))).
  rewrite star_space_lstrip.
  - apply select_word_token.
  - intros p1 p2 s. now rewrite !select_word_token.
  - intros prev c s Hc. unfold select_word. cbn [Re.match_here].
    now rewrite (space_is_not_s c Hc).
Qed.

(** *** The filter on every text *)

Lemma lookup_run_preimage (runs : list (N * N * N * N)) (c t : N) :
  Unicode.lookup_run runs c = t ->
  c = t \/ In c (props.preimages runs t).
Proof.
  induction runs as [|[[[first last] image] step] rest IH];
    cbn [Unicode.lookup_run props.preimages].
  - now left.
  - destruct ((first <=? c)%N && (c <=? last)%N
              && ((c - first) mod step =? 0)%N) eqn:Hrun.
    + intro Ht. right. apply in_or_app. left.
      apply andb_true_iff in Hrun. destruct Hrun as [Hrange Hmod].
      apply andb_true_iff in Hrange. destruct Hrange as [H1 H2].
      apply N.leb_le in H1, H2. apply N.eqb_eq in Hmod.
      assert (E : (t - image = c - first)%N) by lia.
      rewrite E, Hmod.
      replace ((image <=? t)%N) with true by (symmetry; apply N.leb_le; lia).
      replace ((t <=? image + (last - first))%N) with true
        by (symmetry; apply N.leb_le; lia).
      cbn. left. lia.
    + intro H. destruct (IH H) as [E|Hin]; [now left|].
      right. apply in_or_app. now right.
Qed.

Lemma existsb_eqb (c : N) (l : list N) : existsb (N.eqb c) l = true <-> In c l.
Proof.
  rewrite existsb_exists. split.
  - intros (x & Hx & E). apply N.eqb_eq in E. now subst.
  - intro H. exists c. split; [exact H | apply N.eqb_refl].
Qed.

(** Which characters a cased literal matches, from the tables. *)
Lemma lit_matches_variants (lo c : N) (variants : list N) :
  forallb (fun t =>
             forallb (fun x => existsb (N.eqb x) variants)
                     (t :: props.preimages Unicode.tolower_runs t))
          (lo :: Unicode.ignorecase_fixes lo) = true ->
  forallb (Unicode.lit_matches lo) variants = true ->
  Unicode.lit_matches lo c = existsb (N.eqb c) variants.
Proof.
  intros Hpre Hvar.
  destruct (existsb (N.eqb c) variants) eqn:Hc.
  - apply existsb_eqb in Hc.
    exact (proj1 (forallb_forall _ _) Hvar c Hc).
  - destruct (Unicode.lit_matches lo c) eqn:Hm; [|reflexivity].
    unfold Unicode.lit_matches in Hm. apply existsb_exists in Hm.
    destruct Hm as (t & Ht & E). apply N.eqb_eq in E.
    pose proof (proj1 (forallb_forall _ _) Hpre t Ht) as Hall.
    assert (Hin : In c (t :: props.preimages Unicode.tolower_runs t)).
    { destruct (lookup_run_preimage _ _ _ E) as [->|H]; [now left | now right]. }
    pose proof (proj1 (forallb_forall _ _) Hall c Hin) as Hex.
    congruence.
Qed.

Lemma lit_s (c : N) :
  Unicode.lit_matches 115 c = existsb (N.eqb c) [83; 115; 383]%N.
Proof. apply lit_matches_variants; vm_compute; reflexivity. Qed.

Lemma lit_e (c : N) :
  Unicode.lit_matches 101 c = existsb (N.eqb c) [69; 101]%N.
Proof. apply lit_matches_variants; vm_compute; reflexivity. Qed.

Lemma lit_l (c : N) :
  Unicode.lit_matches 108 c = existsb (N.eqb c) [76; 108]%N.
Proof. apply lit_matches_variants; vm_compute; reflexivity. Qed.

Lemma lit_c (c : N) :
  Unicode.lit_matches 99 c = existsb (N.eqb c) [67; 99]%N.
Proof. apply lit_matches_variants; vm_compute; reflexivity. Qed.

Lemma lit_t (c : N) :
  Unicode.lit_matches 116 c = existsb (N.eqb c) [84; 116]%N.
Proof. apply lit_matches_variants; vm_compute; reflexivity. Qed.

Lemma variants_cases (c : N) (l : list N) (P : N -> Prop) :
  Forall P l -> existsb (N.eqb c) l = true -> P c.
Proof.
  intros Hall Hc. apply existsb_eqb in Hc.
  exact (proj1 (Forall_forall _ _) Hall c Hc).
Qed.

Lemma space_is_not_s_u (c : N) :
  Unicode.isspace c = true -> Unicode.lit_matches 115 c = false.
Proof.
  intro Hs. rewrite lit_s.
  destruct (existsb (N.eqb c) [83; 115; 383]%N) eqn:Hc; [|reflexivity].
  assert (H : Unicode.isspace c = false).
  { apply (variants_cases c _ (fun c => Unicode.isspace c = false)) in Hc;
      [exact Hc|]. repeat constructor. }
  congruence.
Qed.

Lemma letter_t_is_word_u (c : N) :
  existsb (N.eqb c) [84; 116]%N = true -> Unicode.is_word c = true.
Proof.
  apply (variants_cases c _ (fun c => Unicode.is_word c = true)).
  repeat constructor.
Qed.

Section StarSpaceU.

Variable k : option N -> Unicode.str -> bool.
Hypothesis k_ignores_prev : forall p1 p2 s, k p1 s = k p2 s.
Hypothesis k_rejects_space :
  forall prev c s, Unicode.isspace c = true -> k prev (c :: s) = false.

Lemma star_space_lstrip_u (s : Unicode.str) (prev : option N) :
  Unicode.star_space k prev s = k None (spec.lstrip s).
Proof.
  revert prev. induction s as [|c s IH]; intro prev;
    cbn [Unicode.star_space spec.lstrip].
  - apply k_ignores_prev.
  - destruct (Unicode.isspace c) eqn:Hc.
    + rewrite IH, (k_rejects_space prev c s Hc). apply orb_false_r.
    + apply k_ignores_prev.
Qed.

End StarSpaceU.

Lemma select_word_letters (prev : option N) (t : Unicode.str) :
  Unicode.match_here Unicode.select_word prev t
  = match spec.after_letters spec.SELECT_ignoring_case t with
    | Some rest => negb (Unicode.word_after rest)
    | None => false
    end.
Proof.
  unfold Unicode.select_word, spec.SELECT_ignoring_case.
  destruct t as [|c1 [|c2 [|c3 [|c4 [|c5 [|c6 rest]]]]]];
    cbn [Unicode.match_here spec.after_letters];
    rewrite ?lit_s, ?lit_e, ?lit_l, ?lit_c, ?lit_t;
    repeat match goal with
           | |- context [if existsb (N.eqb ?c) ?l then _ else _] =>
               destruct (existsb (N.eqb c) l) eqn:?
           end;
    cbn [andb]; try reflexivity.
  assert (Hw : Unicode.is_word c6 = true) by now apply letter_t_is_word_u.
  cbn [Unicode.word_before]. rewrite Hw.
  destruct (Unicode.word_after rest); reflexivity.
Qed.

Lemma select_only_pattern_words (text : Unicode.str) :
  Unicode.re_match Unicode.SELECT_ONLY_PATTERN text
  = spec.begins_with_word spec.SELECT_ignoring_case text.
Proof.
  unfold Unicode.re_match, Unicode.SELECT_ONLY_PATTERN,
    spec.begins_with_word.
  cbn [Unicode.match_here].
  rewrite (star_space_lstrip_u (Unicode.match_here Unicode.select_word)).
  - apply select_word_letters.
  - intros p1 p2 s. now rewrite !select_word_letters.
  - intros prev c s Hc. unfold Unicode.select_word.
    cbn [Unicode.match_here]. now rewrite (space_is_not_s_u c Hc).
Qed.

(** C2, amended.  A text that does not begin, after leading white space,
    with the token SELECT in any letter case is rejected by
    [is_select_only], where the long s (U+017F) counts as a case of the
    letter S, as [re.IGNORECASE] has it. *)
Theorem is_select_only_requires_select (text : Unicode.str) :
  spec.begins_with_word spec.SELECT_ignoring_case text = false ->
  Unicode.is_select_only text = false.
Proof.
  intro H. unfold Unicode.is_select_only.
  now rewrite select_only_pattern_words, H.
Qed.

Lemma is_select_only_requires_select_witness :
  spec.begins_with_word spec.SELECT_ignoring_case
    (Unicode.of_string "INSERT INTO people VALUES (1)") = false
  /\ Unicode.is_select_only
       (Unicode.of_string "INSERT INTO people VALUES (1)") = false.
Proof.
  split; [vm_compute; reflexivity|].
  apply (is_select_only_requires_select
           (Unicode.of_string "INSERT INTO people VALUES (1)")).
  vm_compute. reflexivity.
Defined.

(** The text made of a long s and [elect 1] is accepted, though it does
    not begin with the letters of SELECT in upper or lower case, and
    though its first six characters in lower case are not [select]. *)
Lemma long_s_select_accepted :
  Unicode.is_select_only props.long_s_select = true
  /\ spec.begins_with_word spec.SELECT_letters props.long_s_select = false
  /\ Unicode.lower (firstn 6 props.long_s_select)
     <> Unicode.of_string "select".
Proof.
  split; [vm_compute; reflexivity|].
  split; [vm_compute; reflexivity|].
  vm_compute. discriminate.
Qed.

(** *** Texts of characters up to U+00FF *)

Lemma isspace_latin1 (c : ascii) :
  Unicode.isspace (N_of_ascii c) = Py.isspace c.
Proof. each_char c; vm_compute; reflexivity. Qed.

Lemma is_word_latin1 (c : ascii) :
  Unicode.is_word (N_of_ascii c) = Re.is_word c.
Proof. each_char c; vm_compute; reflexivity. Qed.

Lemma lower_latin1 (c : ascii) :
  (N_of_ascii c =? 931)%N = false
  /\ Unicode.lower_full (N_of_ascii c) = [N_of_ascii (Py.lower_char c)].
Proof. each_char c; vm_compute; split; reflexivity. Qed.

Lemma lit_latin1 (c : ascii) :
  Unicode.lit_matches 115 (N_of_ascii c) = Re.lit_matches "s" c
  /\ Unicode.lit_matches 101 (N_of_ascii c) = Re.lit_matches "e" c
  /\ Unicode.lit_matches 108 (N_of_ascii c) = Re.lit_matches "l" c
  /\ Unicode.lit_matches 99 (N_of_ascii c) = Re.lit_matches "c" c
  /\ Unicode.lit_matches 116 (N_of_ascii c) = Re.lit_matches "t" c.
Proof. each_char c; vm_compute; repeat split; reflexivity. Qed.

Lemma of_string_app (a b : string) :
  Unicode.of_string (a ++ b) = (Unicode.of_string a ++ Unicode.of_string b)%list.
Proof. induction a as [|c a IH]; simpl; [reflexivity | now rewrite IH]. Qed.

Lemma lower_from_latin1 (s : string) (seen : list N) :
  Unicode.lower_from seen (Unicode.of_string s)
  = Unicode.of_string (Py.lower s).
Proof.
  revert seen. induction s as [|c s IH]; intro seen; [reflexivity|].
  cbn [Unicode.of_string Unicode.lower_from Py.lower].
  destruct (lower_latin1 c) as [-> ->]. cbn [app]. now rewrite IH.
Qed.

Lemma prefix_latin1 (a b : string) :
  Unicode.prefix (Unicode.of_string a) (Unicode.of_string b) = prefix a b.
Proof.
  revert b. induction a as [|x a IH]; intro b; [now destruct b|].
  destruct b as [|y b]; [reflexivity|].
  cbn [Unicode.of_string Unicode.prefix prefix].
  destruct (ascii_dec x y) as [->|Hne].
  - rewrite N.eqb_refl. apply IH.
  - destruct (N.eqb_spec (N_of_ascii x) (N_of_ascii y)) as [E|_]; [|reflexivity].
    elim Hne. rewrite <- (ascii_N_embedding x), <- (ascii_N_embedding y).
    now rewrite E.
Qed.

Lemma contains_latin1 (a b : string) :
  Unicode.contains (Unicode.of_string a) (Unicode.of_string b)
  = Py.contains a b.
Proof.
  induction b as [|y b IH].
  - cbn [Unicode.of_string Unicode.contains Py.contains].
    now rewrite <- (prefix_latin1 a "").
  - cbn [Unicode.of_string Unicode.contains Py.contains].
    change (N_of_ascii y :: Unicode.of_string b)
      with (Unicode.of_string (String y b)).
    now rewrite prefix_latin1, IH.
Qed.

Lemma no_forbidden_latin1 (kws : list string) (lowered : string) :
  Unicode.no_forbidden_keyword (map Unicode.of_string kws)
    (Unicode.of_string lowered)
  = no_forbidden_keyword kws lowered.
Proof.
  induction kws as [|kw kws IH]; [reflexivity|].
  cbn [map Unicode.no_forbidden_keyword no_forbidden_keyword].
  now rewrite contains_latin1, IH.
Qed.

Lemma word_after_latin1 (s : string) :
  Unicode.word_after (Unicode.of_string s) = Re.word_after s.
Proof. destruct s; [reflexivity | apply is_word_latin1]. Qed.

Lemma word_before_latin1 (prev : option ascii) :
  Unicode.word_before (props.code_of prev) = Re.word_before prev.
Proof. destruct prev; [apply is_word_latin1 | reflexivity]. Qed.

Lemma select_word_latin1 (prev : option ascii) (s : string) :
  Unicode.match_here Unicode.select_word (props.code_of prev) (Unicode.of_string s)
  = Re.match_here select_word prev s.
Proof.
  unfold Unicode.select_word, select_word.
  destruct s as [|c1 [|c2 [|c3 [|c4 [|c5 [|c6 rest]]]]]];
    cbn [Unicode.of_string Unicode.match_here Re.match_here];
    repeat match goal with
           | |- context [Unicode.lit_matches _ (N_of_ascii ?c)] =>
               let H1 := fresh in
               let H2 := fresh in
               let H3 := fresh in
               let H4 := fresh in
               let H5 := fresh in
               destruct (lit_latin1 c) as (H1 & H2 & H3 & H4 & H5);
               rewrite ?H1, ?H2, ?H3, ?H4, ?H5;
               clear H1 H2 H3 H4 H5
           end;
    try reflexivity.
  change (Some (N_of_ascii c6)) with (props.code_of (Some c6)).
  now rewrite word_before_latin1, word_after_latin1.
Qed.

Lemma star_space_latin1 (prev : option ascii) (s : string) :
  Unicode.star_space (Unicode.match_here Unicode.select_word) (props.code_of prev)
    (Unicode.of_string s)
  = Re.star_space (Re.match_here select_word) prev s.
Proof.
  revert prev. induction s as [|c s IH]; intro prev.
  - apply (select_word_latin1 prev "").
  - cbn [Unicode.of_string Unicode.star_space Re.star_space].
    rewrite isspace_latin1.
    change (N_of_ascii c :: Unicode.of_string s)
      with (Unicode.of_string (String c s)).
    change (Some (N_of_ascii c)) with (props.code_of (Some c)).
    now rewrite IH, select_word_latin1.
Qed.

(** On a text of characters up to U+00FF the filter is the one on
    [string]. *)
Lemma is_select_only_latin1 (s : string) :
  Unicode.is_select_only (Unicode.of_string s) = is_select_only s.
Proof.
  unfold Unicode.is_select_only, is_select_only, Unicode.re_match,
    Re.re_match, Unicode.SELECT_ONLY_PATTERN, SELECT_ONLY_PATTERN.
  cbn [Unicode.match_here Re.match_here].
  change (@None N) with (props.code_of None).
  rewrite star_space_latin1.
  unfold Unicode.lower. rewrite lower_from_latin1.
  unfold Unicode.FORBIDDEN_KEYWORDS.
  change (["insert"; "update"; "delete"; "drop"; "alter"; "truncate";
           "create table"; "create schema"; "attach"; "copy"; "pragma"])
    with FORBIDDEN_KEYWORDS.
  now rewrite no_forbidden_latin1.
Qed.

Lemma forbidden_keyword_found (kws : list string) (kw lowered : string) :
  In kw kws -> Py.contains kw lowered = true ->
  no_forbidden_keyword kws lowered = false.
Proof.
  intros Hin Hc. induction kws as [|k kws IH]; [contradiction|].
  simpl. destruct Hin as [->|Hin].
  - now rewrite Hc.
  - destruct (Py.contains k lowered); [reflexivity | now apply IH].
Qed.

Lemma forbidden_keywords_lowercase (kw : string) :
  In kw FORBIDDEN_KEYWORDS -> Py.lower kw = kw.
Proof.
  unfold FORBIDDEN_KEYWORDS. simpl.
  intros H; repeat (destruct H as [<-|H]; [reflexivity|]); contradiction.
Qed.

(** C3. A text in which a keyword of the denylist occurs at any position,
    letter case ignored, is rejected by [is_select_only], whether or not
    it begins with SELECT. *)
Theorem is_select_only_rejects_forbidden (text kw : string) :
  In kw FORBIDDEN_KEYWORDS ->
  spec.occurs_ignoring_case kw text ->
  is_select_only text = false.
Proof.
  intros Hin (pre & mid & post & -> & Hmid).
  unfold is_select_only.
  destruct (Re.re_match _ _); [|reflexivity].
  cbn [negb]. apply forbidden_keyword_found with (kw := kw); [exact Hin|].
  rewrite !lower_app, Hmid, (forbidden_keywords_lowercase kw Hin).
  apply contains_app.
Qed.

Lemma is_select_only_rejects_forbidden_witness :
  spec.begins_with_select_token "SELECT 1; Drop TABLE people" = true
  /\ is_select_only "SELECT 1; Drop TABLE people" = false.
Proof.
  split; [reflexivity|].
  apply (is_select_only_rejects_forbidden
           "SELECT 1; Drop TABLE people" "drop").
  - simpl. tauto.
  - exists "SELECT 1; ", "Drop", " TABLE people". split; reflexivity.
Defined.

(** ** Table names *)

Lemma filter_chars_all (ok : ascii -> bool) (s : string) :
  spec.all_chars ok (Py.filter_chars ok s) = true.
Proof.
  induction s as [|c s IH]; simpl; [reflexivity|].
  destruct (ok c) eqn:Hc; simpl; [now rewrite Hc | exact IH].
Qed.

(** C10. Whatever the input, [_sanitize_table_name] returns a non-empty
    string of alphanumeric characters and underscores whose first
    character is not a digit. *)
Theorem sanitize_table_name_safe (name : string) :
  spec.safe_identifier (fight_manager._sanitize_table_name name) = true.
Proof.
  unfold fight_manager._sanitize_table_name.
  destruct (Py.strip name) as [|c0 s0]; [reflexivity|].
  set (ok := fun ch : ascii => Py.isalnum ch || Ascii.eqb ch "_").
  pose proof (filter_chars_all ok
                (Py.replace (Py.lower (String c0 s0)) " " "_")) as Hall.
  destruct (Py.filter_chars ok _) as [|c r]; [reflexivity|].
  destruct (Py.isdigit c) eqn:Hd.
  - change ("t_" ++ String c r) with (String "t" (String "_" (String c r))).
    unfold spec.safe_identifier. fold ok.
    cbn [spec.all_chars] in *. now rewrite Hall.
  - unfold spec.safe_identifier. fold ok. now rewrite Hd, Hall.
Qed.

(** ** The complexity scorer *)

Lemma prefix_lower (sub s : string) :
  Py.lower sub = sub ->
  prefix sub (Py.lower s) = spec.prefix_ignoring_case sub s.
Proof.
  revert s. induction sub as [|a sub IH]; intros s Hlow.
  - now destruct s.
  - simpl in Hlow. injection Hlow as Ha Hsub.
    destruct s as [|b s]; [reflexivity|].
    simpl. unfold spec.same_letter. rewrite Ha.
    destruct (ascii_dec a (Py.lower_char b)) as [->|ne].
    + rewrite Ascii.eqb_refl. now apply IH.
    + apply Ascii.eqb_neq in ne. now rewrite ne.
Qed.

Lemma count_from_lower (sub s : string) (skip : nat) :
  Py.lower sub = sub ->
  Py.count_from sub skip (Py.lower s) = spec.occurrences_from sub skip s.
Proof.
  intro Hlow. revert skip. induction s as [|c s IH]; intro skip; [reflexivity|].
  cbn [Py.lower Py.count_from spec.occurrences_from].
  destruct skip as [|k]; [|apply IH].
  change (String (Py.lower_char c) (Py.lower s)) with (Py.lower (String c s)).
  rewrite (prefix_lower sub (String c s) Hlow), !IH. reflexivity.
Qed.

(** Counting in the lowered text is counting in the text with letter case
    ignored. *)
Lemma count_lower (sub text : string) :
  sub <> EmptyString -> Py.lower sub = sub ->
  Py.count (Py.lower text) sub = spec.occurrences sub text.
Proof.
  intros Hne Hlow. unfold Py.count, spec.occurrences.
  destruct sub; [now elim Hne | now apply count_from_lower].
Qed.

Ltac count_as_occurrences :=
  rewrite !count_lower by (discriminate || reflexivity).

(** *** Rounding to the nearest integer and to the nearest float *)

Lemma rhe_bounds (q : Q) :
  2 * inject_Z (Py.round_half_even q) - 1 <= 2 * q
  /\ 2 * q <= 2 * inject_Z (Py.round_half_even q) + 1.
Proof.
  destruct q as [n d]. unfold Py.round_half_even. cbn [Qnum Qden].
  pose proof (Z.div_mod n (Zpos d) ltac:(lia)) as Hdm.
  pose proof (Z.mod_pos_bound n (Zpos d) ltac:(lia)) as Hr.
  set (f := (n / Zpos d)%Z) in *. set (r := (n mod Zpos d)%Z) in *.
  assert (H : forall z : Z,
             ((2 * z - 1) * Zpos d <= 2 * n <= (2 * z + 1) * Zpos d)%Z ->
             2 * inject_Z z - 1 <= 2 * (n # d)
             /\ 2 * (n # d) <= 2 * inject_Z z + 1).
  { intros z [H1 H2].
    assert (HD : 0 < inject_Z (Zpos d)) by reflexivity.
    assert (Hx : (n # d) * inject_Z (Zpos d) == inject_Z n).
    { rewrite (Qmake_Qdiv n d). field. discriminate. }
    rewrite Zle_Qle in H1, H2.
    rewrite !inject_Z_mult in H1, H2. rewrite inject_Z_plus in H2.
    rewrite inject_Z_mult in H2.
    change (inject_Z 2) with 2 in *. change (inject_Z 1) with 1 in *.
    assert (H1' : inject_Z (2 * z - 1) == 2 * inject_Z z - 1).
    { unfold Z.sub. rewrite inject_Z_plus, inject_Z_mult. reflexivity. }
    rewrite H1' in H1. clear H1'.
    split.
    - apply (Qmult_le_r _ _ (inject_Z (Zpos d)) HD).
      rewrite <- Qmult_assoc, Hx. exact H1.
    - apply (Qmult_le_r _ _ (inject_Z (Zpos d)) HD).
      rewrite <- Qmult_assoc, Hx. exact H2. }
  destruct (Z.compare_spec (2 * r) (Zpos d)) as [E|E|E].
  - destruct (Z.even f); apply H; nia.
  - apply H; nia.
  - apply H; nia.
Qed.

Lemma Zlt_succ_of_Q (a b : Z) : inject_Z a < inject_Z b + 1 -> (a <= b)%Z.
Proof.
  intro H. change 1 with (inject_Z 1) in H.
  rewrite <- inject_Z_plus, <- Zlt_Qlt in H. lia.
Qed.

Lemma rhe_near (q : Q) (n : Z) :
  inject_Z n - (1 # 2) < q -> q < inject_Z n + (1 # 2) ->
  Py.round_half_even q = n.
Proof.
  intros H1 H2. destruct (rhe_bounds q) as [B1 B2].
  set (z := Py.round_half_even q) in *.
  assert (Hlt1 : inject_Z z < inject_Z n + 1) by lra.
  assert (Hlt2 : inject_Z n < inject_Z z + 1) by lra.
  apply Zlt_succ_of_Q in Hlt1, Hlt2. lia.
Qed.

Lemma rhe_int (q : Q) (n : Z) : q == inject_Z n -> Py.round_half_even q = n.
Proof. intro H. apply rhe_near; rewrite H; lra. Qed.

Lemma rhe_ge (q : Q) (n : Z) : inject_Z n <= q -> (n <= Py.round_half_even q)%Z.
Proof.
  intro H. destruct (rhe_bounds q) as [_ B2].
  set (z := Py.round_half_even q) in *.
  assert (Hlt : inject_Z n < inject_Z z + 1) by lra.
  apply Zlt_succ_of_Q in Hlt. lia.
Qed.

Lemma rhe_le (q : Q) (n : Z) : q <= inject_Z n -> (Py.round_half_even q <= n)%Z.
Proof.
  intro H. destruct (rhe_bounds q) as [B1 _].
  set (z := Py.round_half_even q) in *.
  assert (Hlt : inject_Z z < inject_Z n + 1) by lra.
  apply Zlt_succ_of_Q in Hlt. lia.
Qed.

(** Powers of two *)
Lemma pow2_pos (e : Z) : 0 < 2 ^ e.
Proof. apply Qpower_0_lt. reflexivity. Qed.

Lemma pow2_add (a b : Z) : 2 ^ (a + b) == 2 ^ a * 2 ^ b.
Proof. apply Qpower_plus. discriminate. Qed.

Lemma pow2_le (a b : Z) : (a <= b)%Z -> 2 ^ a <= 2 ^ b.
Proof. intro H. apply Qpower_le_compat_l; [exact H | discriminate]. Qed.

Lemma pow2_lt (a b : Z) : (a < b)%Z -> 2 ^ a < 2 ^ b.
Proof. intro H. apply Qpower_lt_compat_l; [exact H | reflexivity]. Qed.

Lemma pow2_lt_inv (a b : Z) : 2 ^ a < 2 ^ b -> (a < b)%Z.
Proof. intro H. apply (Qpower_lt_compat_l_inv 2); [exact H | reflexivity]. Qed.

Lemma pow2_Z (a : Z) : (0 <= a)%Z -> 2 ^ a == inject_Z (2 ^ a).
Proof. intro H. symmetry. apply (Zpower_Qpower 2 a H). Qed.

Lemma pow2_S (a : Z) : 2 ^ (a + 1) == 2 * 2 ^ a.
Proof. rewrite pow2_add. change (2 ^ 1) with 2. ring. Qed.

Lemma ilog2_spec (x : Q) :
  0 < x -> 2 ^ Float.ilog2 x <= x /\ x < 2 ^ (Float.ilog2 x + 1).
Proof.
  intro Hx. unfold Float.ilog2.
  destruct x as [n d]. cbn [Qnum Qden].
  assert (Hn : (0 < n)%Z) by (unfold Qlt in Hx; cbn in Hx; lia).
  destruct (Z.log2_spec n Hn) as [Ha1 Ha2].
  destruct (Z.log2_spec (Zpos d) ltac:(lia)) as [Hb1 Hb2].
  pose proof (Z.log2_nonneg n) as Ha0.
  pose proof (Z.log2_nonneg (Zpos d)) as Hb0.
  set (a := Z.log2 n) in *. set (b := Z.log2 (Zpos d)) in *.
  assert (Hx_eq : (n # d) == inject_Z n / inject_Z (Zpos d)) by apply Qmake_Qdiv.
  assert (Hd : 0 < inject_Z (Zpos d)) by reflexivity.
  assert (Hlow : 2 ^ (a - b - 1) < n # d).
  { rewrite Hx_eq. apply Qlt_shift_div_l; [exact Hd|].
    replace (a - b - 1)%Z with (a + - (b + 1))%Z by lia.
    rewrite pow2_add, Qpower_opp.
    rewrite (pow2_Z a Ha0), (pow2_Z (b + 1)) by lia.
    assert (Hb' : 0 < inject_Z (2 ^ (b + 1))).
    { rewrite <- (pow2_Z (b + 1)) by lia. apply pow2_pos. }
    assert (Hgoal : inject_Z (2 ^ a) * inject_Z (Z.pos d)
                    < inject_Z n * inject_Z (2 ^ (b + 1))).
    { rewrite <- !inject_Z_mult, <- Zlt_Qlt. nia. }
    apply Qlt_shift_div_r in Hgoal; [|exact Hb'].
    unfold Qdiv in Hgoal. lra. }
  assert (Hhigh : n # d < 2 ^ (a - b + 1)).
  { rewrite Hx_eq. apply Qlt_shift_div_r; [exact Hd|].
    replace (a - b + 1)%Z with ((a + 1) + - b)%Z by lia.
    rewrite pow2_add, Qpower_opp.
    rewrite (pow2_Z (a + 1)), (pow2_Z b Hb0) by lia.
    assert (Hb' : 0 < inject_Z (2 ^ b)).
    { rewrite <- (pow2_Z b Hb0). apply pow2_pos. }
    assert (Hgoal : inject_Z n * inject_Z (2 ^ b)
                    < inject_Z (2 ^ (a + 1)) * inject_Z (Z.pos d)).
    { rewrite <- !inject_Z_mult, <- Zlt_Qlt. nia. }
    apply Qlt_shift_div_l in Hgoal; [|exact Hb'].
    unfold Qdiv in Hgoal. lra. }
  destruct (Qle_bool (2 ^ (a - b)) (n # d)) eqn:E.
  - apply Qle_bool_iff in E. split; [exact E | exact Hhigh].
  - split; [apply Qlt_le_weak; exact Hlow|].
    replace (a - b - 1 + 1)%Z with (a - b)%Z by lia.
    apply Qnot_le_lt. intro H. apply Qle_bool_iff in H. congruence.
Qed.

Lemma nearest_comp (x y : Q) : x == y -> Float.nearest x = Float.nearest y.
Proof.
  intro H. unfold Float.nearest. now rewrite (Qred_complete x y H).
Qed.

Lemma scaled_round (x p : Q) :
  0 < p ->
  inject_Z (Py.round_half_even (x / p)) * p - (1 # 2) * p <= x
  /\ x <= inject_Z (Py.round_half_even (x / p)) * p + (1 # 2) * p.
Proof.
  intro Hp. destruct (rhe_bounds (x / p)) as [B1 B2].
  set (z := inject_Z (Py.round_half_even (x / p))) in *.
  assert (Hx : x == (x / p) * p) by (field; lra).
  set (q := x / p) in *. rewrite Hx. clearbody z. clearbody q.
  assert (H1 : 0 <= (2 * q - (2 * z - 1)) * p)
    by (apply Qmult_le_0_compat; lra).
  assert (H2 : 0 <= (2 * z + 1 - 2 * q) * p)
    by (apply Qmult_le_0_compat; lra).
  split; lra.
Qed.

Lemma Qabs_of_pos (x : Q) : 0 < x -> Qabs x = x.
Proof.
  destruct x as [n d]. unfold Qlt. cbn. intro H.
  rewrite Z.abs_eq by lia. reflexivity.
Qed.

Lemma ilog2_le (x : Q) (E : Z) :
  0 < x -> x < 2 ^ (E + 1) -> (Float.ilog2 x <= E)%Z.
Proof.
  intros Hx Hlt. destruct (ilog2_spec x Hx) as [H1 _].
  assert (H : 2 ^ Float.ilog2 x < 2 ^ (E + 1)) by (eapply Qle_lt_trans; eauto).
  apply pow2_lt_inv in H. lia.
Qed.

Lemma ilog2_ge (x : Q) (j : Z) :
  2 ^ j <= x -> (j <= Float.ilog2 x)%Z.
Proof.
  intros Hle.
  assert (Hx : 0 < x) by (eapply Qlt_le_trans; [apply (pow2_pos j) | exact Hle]).
  destruct (ilog2_spec x Hx) as [_ H2].
  assert (H : 2 ^ j < 2 ^ (Float.ilog2 x + 1)) by (eapply Qle_lt_trans; eauto).
  apply pow2_lt_inv in H. lia.
Qed.

Lemma nearest_pos_eq (x : Q) :
  0 < x ->
  Float.nearest x
  = inject_Z (Py.round_half_even (Qred x / 2 ^ Float.quantum (Qred x)))
    * 2 ^ Float.quantum (Qred x).
Proof.
  intro Hx. unfold Float.nearest. cbv zeta.
  destruct (Qeq_bool (Qred x) 0) eqn:E; [|reflexivity].
  apply Qeq_bool_eq in E. rewrite Qred_correct in E. rewrite E in Hx.
  discriminate.
Qed.

Lemma nearest_zero (x : Q) : x == 0 -> Float.nearest x = 0.
Proof. intro H. now rewrite (nearest_comp x 0 H). Qed.

Lemma nearest_error (x : Q) (E : Z) :
  0 <= x -> x < 2 ^ (E + 1) -> (-1022 <= E)%Z ->
  Float.nearest x - x <= 2 ^ (E - 53) /\ x - Float.nearest x <= 2 ^ (E - 53).
Proof.
  intros Hx Hlt HE.
  pose proof (pow2_pos (E - 53)) as Hpos.
  destruct (Qle_lt_or_eq _ _ Hx) as [Hx'|Hx'].
  2:{ rewrite (nearest_zero x) by (symmetry; exact Hx'). rewrite <- Hx'.
      split; lra. }
  rewrite (nearest_pos_eq x Hx').
  pose proof (Qred_correct x) as Hred.
  set (y := Qred x) in *.
  assert (Hy : 0 < y) by (rewrite Hred; exact Hx').
  assert (Hq : (Float.quantum y <= E - 52)%Z).
  { unfold Float.quantum. rewrite (Qabs_of_pos y Hy).
    assert (Float.ilog2 y <= E)%Z by (apply ilog2_le; [exact Hy | now rewrite Hred]).
    lia. }
  destruct (scaled_round y (2 ^ Float.quantum y) (pow2_pos _)) as [S1 S2].
  set (r := inject_Z _ * _) in *.
  assert (Hhalf : (1 # 2) * 2 ^ Float.quantum y <= 2 ^ (E - 53)).
  { assert (H2 : 2 ^ (E - 52) == 2 * 2 ^ (E - 53)).
    { rewrite <- pow2_S. now replace (E - 53 + 1)%Z with (E - 52)%Z by lia. }
    pose proof (pow2_le _ _ Hq) as Hle. lra. }
  rewrite <- Hred. split; lra.
Qed.

Lemma nearest_exact (m k : Z) :
  (0 <= m < 2 ^ 53)%Z -> (-1074 <= k)%Z ->
  Float.nearest (inject_Z m * 2 ^ k) == inject_Z m * 2 ^ k.
Proof.
  intros [Hm0 Hm] Hk.
  destruct (Z.eq_dec m 0) as [->|Hne].
  { rewrite nearest_zero; [|ring]. ring. }
  set (x := inject_Z m * 2 ^ k).
  assert (Hmq : 0 < inject_Z m) by (change 0 with (inject_Z 0); rewrite <- Zlt_Qlt; lia).
  assert (Hx : 0 < x).
  { unfold x. pose proof (pow2_pos k). nra. }
  rewrite (nearest_pos_eq x Hx).
  pose proof (Qred_correct x) as Hred.
  set (y := Qred x) in *.
  assert (Hy : 0 < y) by (rewrite Hred; exact Hx).
  set (e := Float.quantum y).
  assert (He : (e <= k)%Z).
  { unfold e, Float.quantum. rewrite (Qabs_of_pos y Hy).
    assert (Float.ilog2 y <= 52 + k)%Z.
    { apply ilog2_le; [exact Hy|]. rewrite Hred. unfold x.
      replace (52 + k + 1)%Z with (53 + k)%Z by lia. rewrite pow2_add.
      assert (inject_Z m < 2 ^ 53).
      { rewrite (pow2_Z 53) by lia. rewrite <- Zlt_Qlt. exact Hm. }
      pose proof (pow2_pos k). nra. }
    lia. }
  assert (Hdiv : y / 2 ^ e == inject_Z (m * 2 ^ (k - e))).
  { rewrite Hred. unfold x. rewrite inject_Z_mult, <- (pow2_Z (k - e)) by lia.
    replace (k - e)%Z with (k + - e)%Z by lia.
    rewrite pow2_add, Qpower_opp. field.
    pose proof (pow2_pos e). lra. }
  rewrite (rhe_int _ _ Hdiv). rewrite inject_Z_mult, <- (pow2_Z (k - e)) by lia.
  unfold x. rewrite <- Qmult_assoc, <- pow2_add.
  now replace (k - e + e)%Z with k by lia.
Qed.

Lemma nearest_nonneg (x : Q) : 0 <= x -> 0 <= Float.nearest x.
Proof.
  intro Hx. destruct (Qle_lt_or_eq _ _ Hx) as [Hx'|Hx'].
  2:{ rewrite (nearest_zero x) by (symmetry; exact Hx'). lra. }
  rewrite (nearest_pos_eq x Hx').
  pose proof (Qred_correct x) as Hred. set (y := Qred x) in *.
  assert (Hy0 : 0 < y) by (rewrite Hred; exact Hx').
  assert (Hy : 0 <= y / 2 ^ Float.quantum y).
  { apply Qle_shift_div_l; [apply pow2_pos|]. rewrite Qmult_0_l.
    now apply Qlt_le_weak. }
  change 0 with (inject_Z 0) in Hy. apply rhe_ge in Hy.
  rewrite Zle_Qle in Hy. change (inject_Z 0) with 0 in Hy.
  pose proof (pow2_pos (Float.quantum y)). nra.
Qed.

Lemma nearest_ge_pow2 (x : Q) (j : Z) :
  (-1074 <= j)%Z -> 2 ^ j <= x -> 2 ^ j <= Float.nearest x.
Proof.
  intros Hj Hle.
  assert (Hx : 0 < x) by (eapply Qlt_le_trans; [apply (pow2_pos j) | exact Hle]).
  rewrite (nearest_pos_eq x Hx).
  pose proof (Qred_correct x) as Hred. set (y := Qred x) in *.
  assert (Hy : 0 < y) by (rewrite Hred; exact Hx).
  set (e := Float.quantum y).
  assert (Hlog : (j <= Float.ilog2 y)%Z) by (apply ilog2_ge; now rewrite Hred).
  destruct (ilog2_spec y Hy) as [Hl _].
  assert (He : (e <= j)%Z \/ (e = Float.ilog2 y - 52)%Z).
  { unfold e, Float.quantum. rewrite (Qabs_of_pos y Hy). lia. }
  pose proof (pow2_pos e) as Hpe.
  destruct He as [He|He].
  - (* 2^j is a multiple of the quantum *)
    assert (Hq : inject_Z (2 ^ (j - e)) <= y / 2 ^ e).
    { rewrite <- (pow2_Z (j - e)) by lia.
      apply Qle_shift_div_l; [exact Hpe|]. rewrite <- pow2_add.
      replace (j - e + e)%Z with j by lia. now rewrite Hred. }
    apply rhe_ge in Hq. rewrite Zle_Qle in Hq.
    rewrite <- (pow2_Z (j - e)) in Hq by lia.
    assert (E : 2 ^ j == 2 ^ (j - e) * 2 ^ e).
    { rewrite <- pow2_add. now replace (j - e + e)%Z with j by lia. }
    rewrite E. nra.
  - assert (Hq : inject_Z (2 ^ 52) <= y / 2 ^ e).
    { rewrite <- (pow2_Z 52) by lia.
      apply Qle_shift_div_l; [exact Hpe|]. rewrite <- pow2_add.
      replace (52 + e)%Z with (Float.ilog2 y) by lia. exact Hl. }
    apply rhe_ge in Hq. rewrite Zle_Qle in Hq.
    rewrite <- (pow2_Z 52) in Hq by lia.
    assert (E : 2 ^ Float.ilog2 y == 2 ^ 52 * 2 ^ e).
    { rewrite <- pow2_add. now replace (52 + e)%Z with (Float.ilog2 y) by lia. }
    pose proof (pow2_le _ _ Hlog) as Hjl.
    rewrite E in Hjl. nra.
Qed.


(** The chain of float operations of the scorer, on the six counts. *)
(** *** The scorer *)

Lemma of_int_exact (n : Z) :
  (0 <= n < 2 ^ 53)%Z -> Float.of_int n == inject_Z n.
Proof.
  intro H. unfold Float.of_int.
  rewrite (nearest_comp _ (inject_Z n * 2 ^ 0)) by (change (2 ^ 0) with 1; ring).
  rewrite nearest_exact by lia. change (2 ^ 0) with 1. ring.
Qed.

Lemma halves_exact (x : Q) (m : Z) :
  (0 <= m < 2 ^ 53)%Z -> x == inject_Z m * (1 # 2) ->
  Float.nearest x == inject_Z m * (1 # 2).
Proof.
  intros Hm Hx.
  rewrite (nearest_comp _ (inject_Z m * 2 ^ (-1))) by exact Hx.
  now rewrite nearest_exact by lia.
Qed.

Lemma mul_count (n k : Z) (lit : Q) :
  (0 <= n < 2 ^ 40)%Z -> (0 <= k <= 6)%Z -> lit == inject_Z k * (1 # 2) ->
  Float.mul (Float.of_int n) (Float.literal lit)
  == inject_Z (n * k) * (1 # 2).
Proof.
  intros Hn Hk Hlit. unfold Float.mul, Float.literal.
  apply halves_exact; [nia|].
  rewrite of_int_exact by lia.
  rewrite (halves_exact lit k) by (lia || exact Hlit).
  rewrite inject_Z_mult. ring.
Qed.

Lemma add_halves (x y : Q) (m n : Z) :
  x == inject_Z m * (1 # 2) -> y == inject_Z n * (1 # 2) ->
  (0 <= m)%Z -> (0 <= n)%Z -> (m + n < 2 ^ 53)%Z ->
  Float.add x y == inject_Z (m + n) * (1 # 2).
Proof.
  intros Hx Hy Hm Hn Hlt. unfold Float.add.
  apply halves_exact; [lia|]. rewrite Hx, Hy, inject_Z_plus. ring.
Qed.

(** The float written [0.2]. *)
Lemma literal_fifth :
  Float.literal (1 # 5) == 3602879701896397 # 18014398509481984.
Proof. vm_compute. reflexivity. Qed.

(** Rounding to two places gives the number of hundredths within half a
    hundredth. *)
Lemma round_near_hundredths (x : Q) (k : Z) :
  inject_Z k * (1 # 100) - (1 # 200) < x ->
  x < inject_Z k * (1 # 100) + (1 # 200) ->
  Py.round x 2 == inject_Z k * (1 # 100).
Proof.
  intros H1 H2. unfold Py.round.
  change (Pos.pow 10 (Pos.of_nat 2)) with 100%positive.
  rewrite Qred_correct.
  rewrite (rhe_near (x * inject_Z 100) k).
  - rewrite (Qmake_Qdiv k 100). field.
  - change (inject_Z 100) with 100. lra.
  - change (inject_Z 100) with 100. lra.
Qed.

Lemma hundredths_add (p q : Q) :
  spec.hundredths p -> spec.hundredths q -> spec.hundredths (p + q).
Proof.
  intros [a Ha] [b Hb]. exists (a + b)%Z. rewrite Ha, Hb.
  unfold Qeq, Qplus. simpl. ring.
Qed.

Lemma hundredths_count (n : nat) (w : Q) :
  spec.hundredths w -> spec.hundredths (of_count n * w).
Proof.
  intros [a Ha]. exists (Z.of_nat n * a)%Z. rewrite Ha.
  unfold Qeq, Qmult, of_count. simpl. ring.
Qed.

Lemma weights_hundredths (sub : string) (w : Q) :
  In (sub, w) spec.WEIGHTS -> spec.hundredths w.
Proof.
  unfold spec.WEIGHTS. simpl.
  intros [H|[H|[H|[H|[H|[H|[]]]]]]]; injection H as _ <-;
    [exists 200%Z | exists 150%Z | exists 100%Z
     | exists 300%Z | exists 150%Z | exists 20%Z]; reflexivity.
Qed.

Lemma weighted_sum_hundredths (text : string) :
  spec.hundredths (spec.weighted_sum text).
Proof.
  unfold spec.weighted_sum.
  assert (H0 : spec.hundredths 0) by (exists 0%Z; reflexivity).
  revert H0. generalize 0.
  assert (Hw : forall e, In e spec.WEIGHTS -> spec.hundredths (snd e))
    by (intros [sub w] He; exact (weights_hundredths sub w He)).
  induction spec.WEIGHTS as [|e ws IH]; intros acc Hacc; [exact Hacc|].
  simpl. apply IH.
  - intros e' He'. apply Hw. now right.
  - apply hundredths_add; [exact Hacc|].
    apply hundredths_count, Hw. now left.
Qed.

Lemma inject_Z_bounds (n lo hi : Z) :
  (lo <= n < hi)%Z -> inject_Z lo <= inject_Z n /\ inject_Z n < inject_Z hi.
Proof. intros [H1 H2]. rewrite <- Zle_Qle, <- Zlt_Qlt. auto. Qed.

Lemma score_of_counts_nearest (a b c d e f : Z) :
  (0 <= a < 2 ^ 40)%Z -> (0 <= b < 2 ^ 40)%Z -> (0 <= c < 2 ^ 40)%Z ->
  (0 <= d < 2 ^ 40)%Z -> (0 <= e < 2 ^ 40)%Z -> (0 <= f < 2 ^ 40)%Z ->
  score_of_counts a b c d e f = Float.nearest (exact_sum a b c d e f).
Proof.
  intros Ha Hb Hc Hd He Hf. unfold score_of_counts. cbv zeta.
  set (p := Float.mul (Float.of_int f) (Float.literal (1 # 5))).
  set (M := (a * 4 + b * 3 + c * 2 + d * 6 + e * 3)%Z).
  match goal with
  | |- Float.round (Float.add ?s p) 2 = _ => set (s4 := s)
  end.
  assert (Hs4 : s4 == inject_Z M * (1 # 2)).
  { unfold s4, M.
    repeat (apply add_halves;
            [ | apply mul_count; [lia | lia | reflexivity] | try lia | try lia
              | try lia ]).
    rewrite of_int_exact by lia.
    replace (0 + a * 2)%Z with (a * 2)%Z by lia.
    rewrite !inject_Z_mult. change (inject_Z 2) with 2.
    change (inject_Z 4) with 4. ring. }
  clearbody s4.
  (* the last product *)
  set (L := 3602879701896397 # 18014398509481984).
  assert (Hfq := inject_Z_bounds f 0 (2 ^ 40) Hf).
  change (inject_Z 0) with 0 in Hfq.
  change (inject_Z (2 ^ 40)) with 1099511627776 in Hfq.
  assert (HMq := inject_Z_bounds M 0 (18 * 2 ^ 40) ltac:(unfold M; lia)).
  change (inject_Z 0) with 0 in HMq.
  change (inject_Z (18 * 2 ^ 40)) with 19791209299968 in HMq.
  assert (Hp : p = Float.nearest (inject_Z f * L)).
  { unfold p, Float.mul. apply nearest_comp.
    rewrite of_int_exact by lia. now rewrite literal_fifth. }
  assert (HfL : 0 <= inject_Z f * L /\ inject_Z f * L < 2 ^ (39 + 1)).
  { change (2 ^ (39 + 1)) with 1099511627776. unfold L. split; [|lra].
    apply Qmult_le_0_compat; [lra | discriminate]. }
  destruct (nearest_error (inject_Z f * L) 39 (proj1 HfL) (proj2 HfL)
              ltac:(lia)) as [Ep1 Ep2].
  rewrite <- Hp in Ep1, Ep2. change (2 ^ (39 - 53)) with (1 # 16384) in Ep1, Ep2.
  assert (Hp0 : 0 <= p) by (rewrite Hp; apply nearest_nonneg, (proj1 HfL)).
  clearbody p.
  assert (Hsum : 0 <= s4 + p /\ s4 + p < 2 ^ (43 + 1)).
  { change (2 ^ (43 + 1)) with 17592186044416. rewrite Hs4. unfold L in *.
    split; lra. }
  unfold Float.round, Float.add.
  destruct (nearest_error (s4 + p) 43 (proj1 Hsum) (proj2 Hsum) ltac:(lia))
    as [Es1 Es2].
  set (s5 := Float.nearest (s4 + p)) in *. clearbody s5.
  change (2 ^ (43 - 53)) with (1 # 1024) in Es1, Es2.
  apply nearest_comp.
  assert (E : exact_sum a b c d e f
              == inject_Z (M * 50 + f * 20) * (1 # 100)).
  { unfold exact_sum, M.
    repeat (rewrite inject_Z_plus || rewrite inject_Z_mult).
    change (inject_Z 4) with 4. change (inject_Z 3) with 3.
    change (inject_Z 2) with 2. change (inject_Z 6) with 6.
    change (inject_Z 50) with 50. change (inject_Z 20) with 20.
    field. }
  rewrite E. apply round_near_hundredths.
  - rewrite inject_Z_plus, !inject_Z_mult.
    change (inject_Z 50) with 50. change (inject_Z 20) with 20.
    unfold L in *. lra.
  - rewrite inject_Z_plus, !inject_Z_mult.
    change (inject_Z 50) with 50. change (inject_Z 20) with 20.
    unfold L in *. lra.
Qed.

Lemma occurrences_from_le (sub text : string) (skip : nat) :
  (spec.occurrences_from sub skip text <= String.length text)%nat.
Proof.
  revert skip. induction text as [|c text IH]; intro skip; [apply Nat.le_refl|].
  cbn [spec.occurrences_from String.length].
  destruct skip as [|k].
  - destruct (spec.prefix_ignoring_case sub (String c text)).
    + apply le_n_S, IH.
    + apply Nat.le_le_succ_r, IH.
  - apply Nat.le_le_succ_r, IH.
Qed.

Lemma occurrences_bound (sub text : string) :
  (Z.of_nat (String.length text) < 2 ^ 40)%Z ->
  (0 <= Z.of_nat (spec.occurrences sub text) < 2 ^ 40)%Z.
Proof.
  intro H. pose proof (occurrences_from_le sub text 0). unfold spec.occurrences.
  lia.
Qed.

Lemma complexity_score_counts (text : string) :
  complexity_score text
  = score_of_counts
      (Z.of_nat (spec.occurrences " join " text))
      (Z.of_nat (spec.occurrences " group by " text))
      (Z.of_nat (spec.occurrences " order by " text))
      (Z.of_nat (spec.occurrences " over(" text))
      (Z.of_nat (spec.occurrences " case " text))
      (Z.of_nat (spec.occurrences "(" text)).
Proof.
  unfold complexity_score, score_of_counts. cbv zeta.
  rewrite !count_lower by (discriminate || reflexivity). reflexivity.
Qed.

Lemma weighted_sum_counts (text : string) :
  spec.weighted_sum text
  = exact_sum
      (Z.of_nat (spec.occurrences " join " text))
      (Z.of_nat (spec.occurrences " group by " text))
      (Z.of_nat (spec.occurrences " order by " text))
      (Z.of_nat (spec.occurrences " over(" text))
      (Z.of_nat (spec.occurrences " case " text))
      (Z.of_nat (spec.occurrences "(" text)).
Proof. reflexivity. Qed.

Lemma complexity_score_nearest (text : string) :
  (Z.of_nat (String.length text) < 2 ^ 40)%Z ->
  complexity_score text = Float.nearest (spec.weighted_sum text).
Proof.
  intro H. rewrite complexity_score_counts, weighted_sum_counts.
  apply score_of_counts_nearest; now apply occurrences_bound.
Qed.

Lemma weighted_sum_range (text : string) :
  (Z.of_nat (String.length text) < 2 ^ 40)%Z ->
  0 <= spec.weighted_sum text /\ spec.weighted_sum text < 2 ^ (43 + 1).
Proof.
  intro H. rewrite weighted_sum_counts. unfold exact_sum.
  pose proof (inject_Z_bounds _ 0 (2 ^ 40) (occurrences_bound " join " text H)).
  pose proof (inject_Z_bounds _ 0 (2 ^ 40) (occurrences_bound " group by " text H)).
  pose proof (inject_Z_bounds _ 0 (2 ^ 40) (occurrences_bound " order by " text H)).
  pose proof (inject_Z_bounds _ 0 (2 ^ 40) (occurrences_bound " over(" text H)).
  pose proof (inject_Z_bounds _ 0 (2 ^ 40) (occurrences_bound " case " text H)).
  pose proof (inject_Z_bounds _ 0 (2 ^ 40) (occurrences_bound "(" text H)).
  change (inject_Z 0) with 0 in *.
  change (inject_Z (2 ^ 40)) with 1099511627776 in *.
  change (2 ^ (43 + 1)) with 17592186044416.
  split; lra.
Qed.

(** The score is within a thousandth of the exact weighted sum. *)
Lemma complexity_score_close (text : string) :
  (Z.of_nat (String.length text) < 2 ^ 40)%Z ->
  complexity_score text - spec.weighted_sum text <= 1 # 1024
  /\ spec.weighted_sum text - complexity_score text <= 1 # 1024.
Proof.
  intro H. rewrite (complexity_score_nearest text H).
  destruct (weighted_sum_range text H) as [H0 H1].
  exact (nearest_error (spec.weighted_sum text) 43 H0 H1 ltac:(lia)).
Qed.

(** C5. For a text of fewer than 2^40 characters, the score is the float
    nearest to the exact weighted sum: the sum, over the six weighted
    substrings, of the count of its occurrences (letter case ignored)
    times its weight.  That sum is a number of hundredths, so the score
    is the weighted sum at two decimal places. *)
Theorem complexity_score_weighted_sum (text : string) :
  (Z.of_nat (String.length text) < 2 ^ 40)%Z ->
  complexity_score text = Float.nearest (spec.weighted_sum text)
  /\ spec.hundredths (spec.weighted_sum text).
Proof.
  intro H. split; [exact (complexity_score_nearest text H)|].
  apply weighted_sum_hundredths.
Qed.

Lemma complexity_score_weighted_sum_witness :
  complexity_score "SELECT a, (b) FROM t JOIN u ON (t.x = u.x) GROUP BY a"
  = Float.nearest (39 # 10).
Proof.
  destruct (complexity_score_weighted_sum
              "SELECT a, (b) FROM t JOIN u ON (t.x = u.x) GROUP BY a")
    as [H _]; [vm_compute; reflexivity|].
  rewrite H. apply nearest_comp. vm_compute. reflexivity.
Defined.

(** The bound is far out but not idle: at some 2^47 parentheses the
    rounding errors of the sum reach the second decimal place. *)
Example score_of_counts_drifts :
  ~ score_of_counts 0 0 0 0 0 270672124899512
    == Float.nearest (exact_sum 0 0 0 0 0 270672124899512).
Proof. vm_compute. discriminate. Qed.

(** The rounding is needed: three parentheses sum to
    0.6000000000000001 in floating point, and the score is still the
    float written 0.6. *)
Example rounding_is_needed :
  ~ Float.mul (Float.of_int 3) (Float.literal (1 # 5)) == Float.literal (3 # 5)
  /\ complexity_score "(((" == Float.literal (3 # 5).
Proof.
  split; [|vm_compute; reflexivity].
  vm_compute. discriminate.
Qed.

Lemma of_count_S (n : nat) : of_count (S n) == of_count n + 1.
Proof.
  unfold of_count. rewrite Nat2Z.inj_succ. unfold Z.succ.
  now rewrite inject_Z_plus.
Qed.

Lemma weights_positive (sub : string) (w : Q) :
  In (sub, w) spec.WEIGHTS -> 0 < w.
Proof.
  unfold spec.WEIGHTS. simpl.
  intros [H|[H|[H|[H|[H|[H|[]]]]]]]; injection H as _ <-; reflexivity.
Qed.

(** One more occurrence of one weighted substring, the other counts
    unchanged, adds that substring's weight to the weighted sum. *)
Lemma weighted_sum_one_more (t1 t2 sub : string) (w : Q) :
  In (sub, w) spec.WEIGHTS ->
  spec.occurrences sub t2 = S (spec.occurrences sub t1) ->
  (forall sub' w', In (sub', w') spec.WEIGHTS -> sub' <> sub ->
     spec.occurrences sub' t2 = spec.occurrences sub' t1) ->
  spec.weighted_sum t2 == spec.weighted_sum t1 + w.
Proof.
  intros Hin Hone Hother.
  assert (Hocc : forall p w', In (p, w') spec.WEIGHTS ->
            spec.occurrences p t2
            = if String.eqb p sub then S (spec.occurrences p t1)
              else spec.occurrences p t1).
  { intros p w' Hp. destruct (String.eqb_spec p sub) as [->|ne];
      [exact Hone | exact (Hother p w' Hp ne)]. }
  unfold spec.weighted_sum, spec.WEIGHTS. cbn [fold_left fst snd].
  rewrite (Hocc " join " 2), (Hocc " group by " (3 # 2)),
    (Hocc " order by " 1), (Hocc " over(" 3), (Hocc " case " (3 # 2)),
    (Hocc "(" (1 # 5)) by (unfold spec.WEIGHTS; simpl; auto 10).
  unfold spec.WEIGHTS in Hin. simpl in Hin.
  destruct Hin as [H|[H|[H|[H|[H|[H|[]]]]]]]; injection H as <- <-;
    cbn [String.eqb Ascii.eqb Bool.eqb]; rewrite of_count_S; ring.
Qed.

Lemma hundredths_scaled (w : Q) :
  spec.hundredths w -> exists z : Z, w == inject_Z z * (1 # 100).
Proof.
  intros [z Hz]. exists z. rewrite Hz, (Qmake_Qdiv z 100). field.
Qed.

Lemma weights_range (sub : string) (w : Q) :
  In (sub, w) spec.WEIGHTS -> 1 # 5 <= w /\ w <= 3.
Proof.
  unfold spec.WEIGHTS. simpl.
  intros [H|[H|[H|[H|[H|[H|[]]]]]]]; injection H as _ <-; split; lra.
Qed.

(** C6. Of two texts (of fewer than 2^40 characters) whose
    weighted-substring counts agree except that one weighted substring
    occurs once more in the second, the second scores strictly more; read
    at two decimal places its score is the first's plus that substring's
    weight, and the difference of the two scores, rounded to two places,
    is the weight. *)
Theorem one_more_occurrence_adds_weight (t1 t2 sub : string) (w : Q) :
  (Z.of_nat (String.length t1) < 2 ^ 40)%Z ->
  (Z.of_nat (String.length t2) < 2 ^ 40)%Z ->
  In (sub, w) spec.WEIGHTS ->
  spec.occurrences sub t2 = S (spec.occurrences sub t1) ->
  (forall sub' w', In (sub', w') spec.WEIGHTS -> sub' <> sub ->
     spec.occurrences sub' t2 = spec.occurrences sub' t1) ->
  complexity_score t1 < complexity_score t2
  /\ Py.round (complexity_score t2) 2 == Py.round (complexity_score t1) 2 + w
  /\ Float.round (Float.sub (complexity_score t2) (complexity_score t1)) 2
     = Float.literal w.
Proof.
  intros Hlen1 Hlen2 Hin Hone Hother.
  pose proof (weighted_sum_one_more t1 t2 sub w Hin Hone Hother) as Hsum.
  destruct (weights_range sub w Hin) as [Hw1 Hw2].
  destruct (hundredths_scaled w (weights_hundredths sub w Hin)) as [zw Hzw].
  destruct (hundredths_scaled _ (weighted_sum_hundredths t1)) as [z1 Hz1].
  destruct (hundredths_scaled _ (weighted_sum_hundredths t2)) as [z2 Hz2].
  destruct (complexity_score_close t1 Hlen1) as [A1 A2].
  destruct (complexity_score_close t2 Hlen2) as [B1 B2].
  set (s1 := complexity_score t1) in *. set (s2 := complexity_score t2) in *.
  clearbody s1 s2.
  set (W1 := spec.weighted_sum t1) in *. set (W2 := spec.weighted_sum t2) in *.
  clearbody W1 W2.
  split; [lra|]. split.
  - rewrite (round_near_hundredths s2 z2), (round_near_hundredths s1 z1)
      by lra.
    rewrite <- Hz1, <- Hz2. exact Hsum.
  - unfold Float.round, Float.literal. apply nearest_comp.
    assert (Hd : 0 <= s2 - s1 /\ s2 - s1 < 2 ^ (1 + 1)).
    { change (2 ^ (1 + 1)) with 4. split; lra. }
    destruct (nearest_error (s2 - s1) 1 (proj1 Hd) (proj2 Hd) ltac:(lia))
      as [D1 D2].
    unfold Float.sub. set (d := Float.nearest (s2 - s1)) in *. clearbody d.
    assert (Hpow : 2 ^ (1 - 53) <= 1 # 1024).
    { change (1 # 1024) with (2 ^ (-10)). apply pow2_le. lia. }
    rewrite Hzw. apply round_near_hundredths; lra.
Qed.

Lemma one_more_occurrence_adds_weight_witness :
  complexity_score "a join b" < complexity_score "a join b join c"
  /\ Py.round (complexity_score "a join b join c") 2
     == Py.round (complexity_score "a join b") 2 + 2
  /\ Float.round (Float.sub (complexity_score "a join b join c")
                    (complexity_score "a join b")) 2
     = Float.literal 2.
Proof.
  apply (one_more_occurrence_adds_weight
           "a join b" "a join b join c" " join " 2).
  - vm_compute. reflexivity.
  - vm_compute. reflexivity.
  - unfold spec.WEIGHTS. simpl. auto.
  - reflexivity.
  - unfold spec.WEIGHTS. simpl.
    intros sub' w' [H|[H|[H|[H|[H|[H|[]]]]]]] Hne; injection H as <- _;
      (reflexivity || now elim Hne).
Defined.

(** In floating point the scores themselves do not add up: the score of
    three parentheses is not the float sum of the score of two and the
    weight. *)
Example float_sum_differs :
  ~ complexity_score "(((" == Float.add (complexity_score "((") (Float.literal (1 # 5)).
Proof. vm_compute. discriminate. Qed.

(** ** Ordering rows: [ORDER BY] as an insertion sort *)

Section OrderBy.

Variable A : Type.
Variable leb : A -> A -> bool.

Hypothesis leb_total : forall a b, leb a b = true \/ leb b a = true.
Hypothesis leb_trans :
  forall a b c, leb a b = true -> leb b c = true -> leb a c = true.

Lemma insert_sorted_perm (x : A) (l : list A) :
  Permutation (x :: l) (catalog.insert_sorted leb x l).
Proof.
  induction l as [|y l IH]; simpl; [reflexivity|].
  destruct (leb x y); [reflexivity|].
  rewrite perm_swap. now apply perm_skip.
Qed.

Lemma order_by_perm (l : list A) : Permutation l (catalog.order_by leb l).
Proof.
  induction l as [|x l IH]; simpl; [constructor|].
  rewrite <- insert_sorted_perm. now apply perm_skip.
Qed.

Lemma insert_sorted_sorted (x : A) (l : list A) :
  StronglySorted (catalog.le_of leb) l -> StronglySorted (catalog.le_of leb) (catalog.insert_sorted leb x l).
Proof.
  induction 1 as [|y l Hl IH Hy]; simpl.
  - repeat constructor.
  - destruct (leb x y) eqn:Hxy.
    + constructor; [now constructor|].
      constructor; [exact Hxy|].
      eapply Forall_impl; [|exact Hy].
      intros z Hz. exact (leb_trans x y z Hxy Hz).
    + constructor; [exact IH|].
      apply (Permutation_Forall (insert_sorted_perm x l)).
      constructor; [|exact Hy].
      destruct (leb_total x y) as [H|H]; [congruence | exact H].
Qed.

Lemma order_by_sorted (l : list A) :
  StronglySorted (catalog.le_of leb) (catalog.order_by leb l).
Proof.
  induction l as [|x l IH]; simpl; [constructor|].
  now apply insert_sorted_sorted.
Qed.

(** Two sorted arrangements of the same elements coincide when the order
    tells the elements apart. *)
Lemma sorted_perm_unique (l1 l2 : list A) :
  (forall a b, In a l1 -> In b l1 ->
     leb a b = true -> leb b a = true -> a = b) ->
  StronglySorted (catalog.le_of leb) l1 -> StronglySorted (catalog.le_of leb) l2 ->
  Permutation l1 l2 -> l1 = l2.
Proof.
  intros Hanti H1. revert l2.
  induction H1 as [|a l1 Hs1 IH Ha]; intros l2 H2 Hperm.
  - now apply Permutation_nil in Hperm.
  - destruct H2 as [|b l2 Hs2 Hb].
    + symmetry in Hperm. now apply Permutation_nil in Hperm.
    + assert (a = b) as <-.
      { assert (Hab : In a (b :: l2))
          by (apply (Permutation_in _ Hperm); now left).
        assert (Hba : In b (a :: l1))
          by (apply (Permutation_in _ (Permutation_sym Hperm)); now left).
        destruct Hab as [->|Hab]; [reflexivity|].
        destruct Hba as [->|Hba]; [reflexivity|].
        apply Hanti; [now left | now right | |].
        - exact (proj1 (Forall_forall _ _) Ha b Hba).
        - exact (proj1 (Forall_forall _ _) Hb a Hab). }
      f_equal. apply IH.
      * intros x y Hx Hy. apply Hanti; now right.
      * exact Hs2.
      * exact (Permutation_cons_inv Hperm).
Qed.

End OrderBy.

(** ** The order of strings *)

Lemma compare_refl (s : string) : String.compare s s = Eq.
Proof.
  pose proof (String.compare_antisym s s) as H.
  destruct (String.compare s s); simpl in H; congruence.
Qed.

Lemma compare_lt_trans (a b c : string) :
  String.compare a b = Lt -> String.compare b c = Lt ->
  String.compare a c = Lt.
Proof.
  intros Hab Hbc.
  apply OrderedTypeEx.String_as_OT.cmp_lt.
  apply OrderedTypeEx.String_as_OT.lt_trans with b;
    now apply OrderedTypeEx.String_as_OT.cmp_lt.
Qed.

(** ** The catalog query *)

Lemma row_leb_total (a b : catalog.column_row) :
  catalog.row_leb a b = true \/ catalog.row_leb b a = true.
Proof.
  unfold catalog.row_leb.
  rewrite (String.compare_antisym (catalog.table_name a)).
  destruct (String.compare (catalog.table_name b) (catalog.table_name a));
    simpl; auto.
  destruct (Nat.leb_spec (catalog.ordinal_position a)
                         (catalog.ordinal_position b)); [now left|].
  right. apply Nat.leb_le. lia.
Qed.

Lemma row_leb_trans (a b c : catalog.column_row) :
  catalog.row_leb a b = true -> catalog.row_leb b c = true ->
  catalog.row_leb a c = true.
Proof.
  unfold catalog.row_leb. intros Hab Hbc.
  destruct (String.compare (catalog.table_name a) (catalog.table_name b))
    eqn:Eab; try discriminate;
    destruct (String.compare (catalog.table_name b) (catalog.table_name c))
      eqn:Ebc; try discriminate.
  - apply String.compare_eq_iff in Eab, Ebc. rewrite Eab, Ebc, compare_refl.
    apply Nat.leb_le in Hab, Hbc. apply Nat.leb_le. lia.
  - apply String.compare_eq_iff in Eab. now rewrite Eab, Ebc.
  - apply String.compare_eq_iff in Ebc. now rewrite <- Ebc, Eab.
  - now rewrite (compare_lt_trans _ _ _ Eab Ebc).
Qed.

Lemma group_flat (rows : list catalog.column_row) :
  flat_map snd (props.group rows) = rows.
Proof.
  induction rows as [|r rest IH]; [reflexivity|].
  cbn [props.group]. destruct (props.group rest) as [|[n rs] bs].
  - cbn in *. now rewrite <- IH.
  - destruct (String.eqb (catalog.table_name r) n); cbn in *; now rewrite <- IH.
Qed.

Lemma group_named (rows : list catalog.column_row) :
  Forall (fun b : spec.block =>
            snd b <> []
            /\ Forall (fun r => catalog.table_name r = fst b) (snd b))
         (props.group rows).
Proof.
  induction rows as [|r rest IH]; [constructor|].
  cbn [props.group]. destruct (props.group rest) as [|[n rs] bs].
  - constructor; [|constructor]. cbn. split; [discriminate|].
    constructor; [reflexivity | constructor].
  - inversion IH as [|? ? [Hne Hn] Hbs]; subst.
    destruct (String.eqb_spec (catalog.table_name r) n) as [E|E].
    + constructor; [|exact Hbs]. cbn in *. split; [discriminate|].
      constructor; [exact E | exact Hn].
    + constructor; [|exact IH]. cbn. split; [discriminate|].
      constructor; [reflexivity | constructor].
Qed.

(** The lines of the loop are the blocks of the groups; the header of
    the first group is left out when its table is the current one. *)
Lemma lines_group (rows : list catalog.column_row) :
  forall cur,
    fight_manager.schema_lines cur (map catalog.selected rows)
    = match props.group rows with
      | [] => []
      | b :: bs =>
          ((if match cur with
                | Some t => String.eqb (fst b) t
                | None => false
                end
            then map spec.column_line (snd b)
            else spec.block_lines b)
           ++ flat_map spec.block_lines bs)%list
      end.
Proof.
  induction rows as [|r rest IH]; intro cur; [reflexivity|].
  cbn [map fight_manager.schema_lines catalog.selected].
  set (changed := match cur with
                  | Some t => negb (String.eqb (catalog.table_name r) t)
                  | None => true
                  end).
  assert (Hcur : (if changed then Some (catalog.table_name r) else cur)
                 = Some (catalog.table_name r)).
  { unfold changed. destruct cur as [t|]; [|reflexivity].
    destruct (String.eqb_spec (catalog.table_name r) t) as [->|]; reflexivity. }
  rewrite Hcur, IH. clear IH Hcur.
  assert (Hhead : match cur with
                  | Some t => String.eqb (catalog.table_name r) t
                  | None => false
                  end = negb changed).
  { unfold changed. destruct cur; [now rewrite negb_involutive | reflexivity]. }
  cbn [props.group].
  destruct (props.group rest) as [|[n rs] bs].
  - cbn [fst snd]. rewrite Hhead. unfold spec.block_lines, spec.header,
      spec.column_line. cbn [fst snd map flat_map].
    destruct changed; reflexivity.
  - cbn [fst snd].
    destruct (String.eqb_spec n (catalog.table_name r)) as [E|E].
    + subst n. rewrite String.eqb_refl. cbn [fst snd]. rewrite Hhead.
      unfold spec.block_lines, spec.header, spec.column_line.
      cbn [fst snd map flat_map].
      destruct changed; cbn [negb app]; reflexivity.
    + destruct (String.eqb_spec (catalog.table_name r) n) as [E'|_];
        [now elim E|].
      cbn [fst snd]. rewrite Hhead.
      unfold spec.block_lines, spec.header, spec.column_line.
      cbn [fst snd map flat_map].
      destruct changed; cbn [negb app]; reflexivity.
Qed.

Lemma lines_blocks (rows : list catalog.column_row) :
  fight_manager.schema_lines None (map catalog.selected rows)
  = flat_map spec.block_lines (props.group rows).
Proof.
  rewrite lines_group. now destruct (props.group rows).
Qed.

Lemma row_leb_name (a b : catalog.column_row) :
  catalog.row_leb a b = true ->
  catalog.table_name a = catalog.table_name b
  \/ spec.name_before (catalog.table_name a) (catalog.table_name b).
Proof.
  unfold catalog.row_leb, spec.name_before.
  destruct (String.compare _ _) eqn:E; try discriminate; intros _.
  - left. now apply String.compare_eq_iff.
  - now right.
Qed.

Lemma row_leb_position (a b : catalog.column_row) :
  catalog.row_leb a b = true ->
  catalog.table_name a = catalog.table_name b -> spec.by_position a b.
Proof.
  unfold catalog.row_leb, spec.by_position. intros H E.
  rewrite E, compare_refl in H. now apply Nat.leb_le.
Qed.

Lemma group_sorted (rows : list catalog.column_row) :
  StronglySorted (catalog.le_of catalog.row_leb) rows ->
  StronglySorted spec.name_before (map fst (props.group rows))
  /\ Forall (fun b : spec.block => StronglySorted spec.by_position (snd b))
            (props.group rows).
Proof.
  induction 1 as [|r rest Hs IH Hr]; [split; constructor|].
  destruct IH as [IHn IHp].
  pose proof (group_flat rest) as Hflat.
  pose proof (group_named rest) as Hnamed.
  cbn [props.group]. destruct (props.group rest) as [|[n rs] bs].
  - split; repeat constructor.
  - cbn [flat_map snd] in Hflat.
    assert (Hin : forall r', In r' rs -> catalog.row_leb r r' = true).
    { intros r' Hr'. apply (proj1 (Forall_forall _ _) Hr).
      rewrite <- Hflat. apply in_or_app. now left. }
    clear Hflat Hr Hs.
    inversion Hnamed as [|? ? [Hne Hn] Hbs]; subst. cbn [fst snd] in *.
    inversion IHp as [|? ? Hprs Hpbs]; subst. cbn [snd] in Hprs.
    destruct (String.eqb_spec (catalog.table_name r) n) as [E|E].
    + split; [exact IHn|]. constructor; [|exact Hpbs]. cbn [snd].
      constructor; [exact Hprs|].
      apply Forall_forall. intros r' Hr'.
      apply row_leb_position; [now apply Hin|].
      rewrite E. symmetry. exact (proj1 (Forall_forall _ _) Hn r' Hr').
    + split; [|constructor; [repeat constructor | exact IHp]].
      cbn [map fst]. constructor; [exact IHn|].
      inversion IHn as [|? ? Hsn Hfn]; subst.
      assert (Hlt : spec.name_before (catalog.table_name r) n).
      { destruct rs as [|r' rs']; [now elim Hne|].
        pose proof (Hin r' (or_introl eq_refl)) as Hle.
        inversion Hn as [|? ? Hr'n _]; subst.
        destruct (row_leb_name r r' Hle) as [Heq|Hlt]; [now elim E | exact Hlt]. }
      constructor; [exact Hlt|].
      eapply Forall_impl; [|exact Hfn].
      intros m Hm. exact (compare_lt_trans _ _ _ Hlt Hm).
Qed.

Lemma group_describes (cat : catalog.Catalog) (rows : list catalog.column_row) :
  catalog.fetched cat rows -> spec.describes cat (props.group rows).
Proof.
  intros [Hperm Hsorted]. destruct (group_sorted rows Hsorted) as [Hn Hp].
  split; [exact Hn|]. split.
  - pose proof (group_named rows) as Hnamed.
    apply Forall_forall. intros b Hb.
    destruct (proj1 (Forall_forall _ _) Hnamed b Hb) as [H1 H2].
    repeat split; auto. exact (proj1 (Forall_forall _ _) Hp b Hb).
  - now rewrite group_flat.
Qed.

Lemma query_fetched (cat : catalog.Catalog) :
  catalog.fetched cat
    (catalog.order_by catalog.row_leb (filter catalog.in_main cat)).
Proof.
  split.
  - symmetry. apply order_by_perm.
  - apply order_by_sorted; [exact row_leb_total | exact row_leb_trans].
Qed.

(** C9. Whatever the catalog holds, [introspect_schema] gives a text of
    blocks that describe it: for each table name of schema [main], once
    and in order of name, a header line followed by one line per column
    of that name, in declared position order, showing the column's name
    and declared type.  Every block has at least one column line: a table
    is in the catalog by its columns.  The same holds of every order in
    which the database may return rows that [ORDER BY] does not tell
    apart. *)
Theorem introspect_schema_describes_catalog (cat : catalog.Catalog) :
  (exists blocks,
      spec.describes cat blocks
      /\ fight_manager.introspect_schema cat = spec.schema_text blocks)
  /\ forall rows,
      catalog.fetched cat rows ->
      exists blocks,
        spec.describes cat blocks
        /\ Py.join (String "010" "")
             (fight_manager.schema_lines None (map catalog.selected rows))
           = spec.schema_text blocks.
Proof.
  assert (H : forall rows,
             catalog.fetched cat rows ->
             exists blocks,
               spec.describes cat blocks
               /\ Py.join (String "010" "")
                    (fight_manager.schema_lines None
                       (map catalog.selected rows))
                  = spec.schema_text blocks).
  { intros rows Hf. exists (props.group rows).
    split; [now apply group_describes|].
    unfold spec.schema_text. now rewrite lines_blocks. }
  split; [|exact H].
  exact (H _ (query_fetched cat)).
Qed.

(** Two relations of one name in schema [main] (one of them in an
    attached database, say) share one block. *)
Example same_name_shares_block :
  fight_manager.introspect_schema
    [demo.column "t" "b" 1 "VARCHAR"; demo.column "t" "c" 2 "DATE";
     demo.column "t" "a" 1 "INTEGER"]
  = String "010" "TABLE t:" ++ String "010" "  - b (VARCHAR)"
    ++ String "010" "  - a (INTEGER)" ++ String "010" "  - c (DATE)".
Proof. reflexivity. Qed.

(** ** The orchestrator *)

Section Orchestration.

Import fight_manager.

Context {host : Host}.

Variables (self : FightManager) (mode : string)
          (human_sqls : option (list string)) (theme difficulty_text : string)
          (on_progress : option (Z -> Z -> World -> World)).

(** The state once the round has read the clock. *)
Local Abbreviation started s :=
  {| turns := turns s; world := snd (perf_counter (world s)) |}.

(** The agent that takes over after [r]. *)
Local Abbreviation swapped r :=
  (if Nat.eqb r (agent_a self) then agent_b self else agent_a self).

Lemma obtain_sql_turns (loc : Locals) (s : FightState) :
  turns (snd (obtain_sql self mode human_sqls loc s)) = turns s.
Proof.
  unfold obtain_sql, bind, subscript, call, ret, raise.
  destruct (_ && _).
  - destruct human_sqls as [l|]; [|reflexivity].
    destruct (nth_error l _); reflexivity.
  - destruct (generate_sql _ _ _ _ _ _) as [[text|e] w]; reflexivity.
Qed.

(** The guarded execution never raises, keeps the turns, and gives either
    an error or a row preview. *)
Lemma check_and_execute_spec (valid : bool) (q : string) (s : FightState) :
  exists error rows_preview s',
    check_and_execute valid q s = (Returned (error, rows_preview), s')
    /\ turns s' = turns s
    /\ (valid = false -> error <> None)
    /\ (error = None -> exists rows, rows_preview = Some rows).
Proof.
  unfold check_and_execute, try_except, bind, call, ret.
  destruct valid; cbn [negb].
  - destruct (conn_execute q (world s)) as [[result|e] w]; cbn.
    + destruct (fetchmany result _ w) as [[rows|e] w']; cbn;
        do 3 eexists; (split; [reflexivity|]); repeat split;
        try discriminate; eauto.
    + do 3 eexists; (split; [reflexivity|]); repeat split;
        try discriminate; eauto.
  - do 3 eexists; (split; [reflexivity|]); repeat split;
      try discriminate; eauto.
Qed.

(** One round: if getting the SQL raises, the exception leaves the round
    and no record is made; otherwise the round ends normally with exactly
    one new record. *)
Lemma round_body_cases (round_num : Z) (loc : Locals) (s : FightState) :
  (exists e s2,
      obtain_sql self mode human_sqls loc (started s) = (Raised e, s2)
      /\ round_body self mode human_sqls theme difficulty_text on_progress
           round_num loc s = (Raised e, s2)
      /\ turns s2 = turns s)
  \/ (exists q idx tokens s2 loc' s' t,
         obtain_sql self mode human_sqls loc (started s)
         = (Returned (q, idx, tokens), s2)
         /\ round_body self mode human_sqls theme difficulty_text on_progress
              round_num loc s = (Returned loc', s')
         /\ turns s' = (turns s ++ [t])%list
         /\ fight_log.round_number t = round_num
         /\ fight_log.agent_name t = name (agent_at (current_agent loc))
         /\ fight_log.sql t = q
         /\ spec.turn_ok t
         /\ current_agent loc' = swapped (current_agent loc)).
Proof.
  pose proof (obtain_sql_turns loc (started s)) as Hturns.
  remember (round_body self mode human_sqls theme difficulty_text on_progress
              round_num loc s) as r eqn:Hr.
  unfold round_body, bind, observe in Hr.
  destruct (perf_counter (world s)) as [start_time w0].
  cbn [snd] in *. cbv beta iota in Hr.
  destruct (obtain_sql self mode human_sqls loc _)
    as [[[[q idx] tokens]|e] s2]; cbn [snd turns] in Hturns.
  2:{ left. exists e, s2. auto. }
  right.
  destruct (check_and_execute_spec (is_select_only q) q s2)
    as (error & rows_preview & s3 & Hexec & Hturns3 & Hinvalid & Hpreview).
  rewrite Hexec in Hr. cbv beta iota in Hr.
  unfold append_turn, ret in Hr.
  destruct (perf_counter (world s3)) as [end_time w3].
  destruct on_progress as [notify|]; cbv beta iota in Hr; rewrite Hr;
    do 7 eexists; (split; [reflexivity|]); (split; [reflexivity|]);
    cbn; rewrite Hturns3, Hturns;
    (split; [reflexivity|]); repeat (split; [reflexivity|]);
    (split; [|reflexivity]);
    (split; cbn;
     [ intros e He; rewrite He; apply andb_false_r
     | intros He _; exact (Hpreview He) ]).
Qed.

End Orchestration.

Section Fights.

Import fight_manager.

Context {host : Host}.

Variables (self : FightManager) (human_sqls : option (list string))
          (theme difficulty : string)
          (on_progress : option (Z -> Z -> World -> World)).

Local Abbreviation started s :=
  {| turns := turns s; world := snd (perf_counter (world s)) |}.

(** Whatever a loop body appends, the loop appends. *)
Lemma for_each_appends {A S : Type} (P : Turn -> Prop) (body : A -> S -> M S) :
  (forall x acc s, exists new,
      turns (snd (body x acc s)) = (turns s ++ new)%list /\ Forall P new) ->
  forall xs acc s, exists new,
    turns (snd (for_each xs body acc s)) = (turns s ++ new)%list
    /\ Forall P new.
Proof.
  intros Hbody xs. induction xs as [|x xs IH]; intros acc s; simpl.
  - exists []. rewrite app_nil_r. split; constructor.
  - unfold bind. destruct (Hbody x acc s) as (n1 & H1 & P1).
    destruct (body x acc s) as [[acc'|e] s1]; simpl in H1.
    + destruct (IH acc' s1) as (n2 & H2 & P2). exists (n1 ++ n2)%list.
      rewrite H2, H1, app_assoc. split; [reflexivity|].
      apply Forall_app. now split.
    + exists n1. now split.
Qed.

Lemma round_body_appends (mode difficulty_text : string) (round_num : Z)
      (loc : Locals) (s : FightState) :
  exists new,
    turns (snd (round_body self mode human_sqls theme difficulty_text
                  on_progress round_num loc s))
    = (turns s ++ new)%list
    /\ Forall spec.turn_ok new.
Proof.
  destruct (round_body_cases self mode human_sqls theme difficulty_text
              on_progress round_num loc s)
    as [(e & s2 & _ & -> & Ht)
       |(q & idx & tok & s2 & loc' & s' & t & _ & -> & Ht & _ & _ & _ & Hok & _)].
  - exists []. rewrite app_nil_r. split; [exact Ht | constructor].
  - exists [t]. split; [exact Ht | constructor; [exact Hok | constructor]].
Qed.

(** The validation either raises at once, leaving the state as it was, or
    passes, leaving the state as it was. *)
Lemma validate_human_mode_you_vs_ai (s : FightState) :
  validate_human_mode self "you_vs_ai" human_sqls s
  = if falsy human_sqls || negb (len human_sqls =? rounds self / 2)%Z
    then (Raised
            (mk_exn ValueError
               ("Expected " ++ Py.str_of_Z (rounds self / 2)
                ++ " human SQL queries, " ++ "but got "
                ++ Py.str_of_Z (if falsy human_sqls then 0%Z
                                else len human_sqls)
                ++ ".")), s)
    else (Returned tt, s).
Proof.
  unfold validate_human_mode.
  change (String.eqb "you_vs_ai" "you_vs_ai") with true. cbv iota.
  now destruct (_ || _).
Qed.

Lemma validate_human_mode_state (mode : string) (s : FightState) :
  snd (validate_human_mode self mode human_sqls s) = s.
Proof.
  unfold validate_human_mode.
  destruct (String.eqb mode "you_vs_ai"); [|reflexivity].
  now destruct (_ || _).
Qed.

(** The records of a fight: what [run_fight] adds to [self.turns], and
    what it returns when it returns. *)
Lemma run_fight_appends (mode : string) (s : FightState) :
  exists new,
    turns (snd (run_fight self mode human_sqls theme difficulty on_progress s))
    = (turns s ++ new)%list
    /\ Forall spec.turn_ok new
    /\ forall l,
        fst (run_fight self mode human_sqls theme difficulty on_progress s)
        = Returned l ->
        l = (turns s ++ new)%list.
Proof.
  unfold run_fight, bind.
  pose proof (validate_human_mode_state mode s) as Hv.
  destruct (validate_human_mode self mode human_sqls s) as [[[]|e] s1];
    cbn [snd] in Hv; subst s1.
  2:{ exists []. rewrite app_nil_r. repeat split; [constructor | discriminate]. }
  destruct (for_each_appends spec.turn_ok
              (round_body self mode human_sqls theme
                 (_difficulty_prompt difficulty) on_progress)
              (fun x acc s0 =>
                 round_body_appends mode (_difficulty_prompt difficulty) x acc s0)
              (range 1 (rounds self + 1))
              {| previous_query := None; previous_result_summary := None;
                 challenge := (_theme_prompt theme ++ " "
                               ++ _difficulty_prompt difficulty)%string;
                 current_agent := agent_a self; human_turn_index := 0 |} s)
    as (new & Hnew & Hok).
  destruct (for_each _ _ _ s) as [[loc'|e] s']; cbn [snd] in Hnew.
  - exists new. unfold get_turns. cbn. repeat split; auto.
    intros l [= <-]. exact Hnew.
  - exists new. cbn. repeat split; auto. discriminate.
Qed.

(** C8. Every record that [run_fight] adds to the turns satisfies: with an
    error recorded, [is_valid_sql] is false; without an error and with
    [is_valid_sql] true, the guarded execution completed and the record
    carries a row preview (a list, empty or not).  What [run_fight]
    returns is the manager's list with these records at its end. *)
Theorem run_fight_records_well_formed (mode : string) (s : FightState) :
  exists new,
    turns (snd (run_fight self mode human_sqls theme difficulty on_progress s))
    = (turns s ++ new)%list
    /\ Forall spec.turn_ok new
    /\ forall l,
        fst (run_fight self mode human_sqls theme difficulty on_progress s)
        = Returned l ->
        l = (turns s ++ new)%list.
Proof. exact (run_fight_appends mode s). Qed.

End Fights.

Section DualAgent.

Import fight_manager.

Context {host : Host}.

Variables (self : FightManager) (human_sqls : option (list string))
          (theme difficulty_text : string)
          (on_progress : option (Z -> Z -> World -> World)).

Hypothesis text_always : spec.agents_return_text.

Lemma obtain_sql_ai (loc : Locals) (s : FightState) :
  exists text s',
    obtain_sql self "ai_vs_ai" human_sqls loc s
    = (Returned (text, human_turn_index loc, _estimate_tokens text), s').
Proof.
  unfold obtain_sql.
  change (String.eqb "ai_vs_ai" "you_vs_ai") with false. cbn [andb].
  unfold bind, call, ret.
  destruct (text_always (current_agent loc) (schema_description self)
              (previous_query loc) (previous_result_summary loc)
              (challenge loc) (world s)) as (text & w' & E).
  rewrite E. eauto.
Qed.

Lemma ai_round (round_num : Z) (loc : Locals) (s : FightState) :
  exists loc' s' t,
    round_body self "ai_vs_ai" human_sqls theme difficulty_text on_progress
      round_num loc s = (Returned loc', s')
    /\ turns s' = (turns s ++ [t])%list
    /\ fight_log.round_number t = round_num
    /\ fight_log.agent_name t = name (agent_at (current_agent loc))
    /\ current_agent loc'
       = if Nat.eqb (current_agent loc) (agent_a self)
         then agent_b self else agent_a self.
Proof.
  destruct (round_body_cases self "ai_vs_ai" human_sqls theme difficulty_text
              on_progress round_num loc s)
    as [(e & s2 & Hraised & _)
       |(q & idx & tok & s2 & loc' & s' & t & _ & Hrun & Ht & Hn & Ha & _ & _ & Hc)].
  - destruct (obtain_sql_ai loc
                {| turns := turns s; world := snd (perf_counter (world s)) |})
      as (text & s' & E).
    rewrite E in Hraised. discriminate.
  - exists loc', s', t. auto.
Qed.

Lemma side_next (i : nat) :
  (if Nat.eqb (spec.side self i) (agent_a self)
   then agent_b self else agent_a self)
  = spec.side self (S i).
Proof.
  unfold spec.side. rewrite Nat.even_succ, <- Nat.negb_even.
  destruct (Nat.even i); cbn [negb].
  - now rewrite Nat.eqb_refl.
  - destruct (Nat.eqb_spec (agent_b self) (agent_a self)) as [E|_];
      [exact E | reflexivity].
Qed.

(** The rounds from number [1 + a] on, begun with the agent whose turn the
    record of index [a] is. *)
Lemma ai_loop (n : nat) :
  forall (a : nat) (loc : Locals) (s : FightState),
    current_agent loc = spec.side self a ->
    exists loc' s' new,
      for_each (map (fun i => (1 + Z.of_nat i)%Z) (seq a n))
        (round_body self "ai_vs_ai" human_sqls theme difficulty_text
           on_progress)
        loc s = (Returned loc', s')
      /\ turns s' = (turns s ++ new)%list
      /\ List.length new = n
      /\ forall i t, nth_error new i = Some t ->
           fight_log.round_number t = (Z.of_nat (a + i) + 1)%Z
           /\ fight_log.agent_name t = name (agent_at (spec.side self (a + i))).
Proof.
  induction n as [|n IH]; intros a loc s Hside.
  - exists loc, s, []. cbn. rewrite app_nil_r. repeat split; auto;
      destruct i; discriminate.
  - cbn [seq map for_each]. unfold bind.
    destruct (ai_round (1 + Z.of_nat a) loc s)
      as (loc1 & s1 & t & -> & Ht & Hn & Ha & Hc).
    rewrite Hside, side_next in Hc.
    destruct (IH (S a) loc1 s1 Hc) as (loc' & s' & new & -> & Hnew & Hlen & Hrec).
    exists loc', s', (t :: new). split; [reflexivity|].
    split; [rewrite Hnew, Ht, <- app_assoc; reflexivity|].
    split; [cbn; now rewrite Hlen|].
    intros [|i] u; cbn [nth_error].
    + intros [= <-]. rewrite Nat.add_0_r, Hn, Ha, Hside. split; [lia|reflexivity].
    + intro Hu. rewrite Nat.add_succ_r. exact (Hrec i u Hu).
Qed.

End DualAgent.

(** C4, amended.  In dual-agent mode, with agents that always return text,
    [run_fight] appends exactly N records to the manager's turns, N the
    configured number of rounds; their round numbers are 1..N in order and
    their agents alternate A, B, A, B, ...; it returns the manager's whole
    list, which on a newly built manager is these N records. *)
Theorem dual_agent_fight_appends_rounds
        {host : Host} (self : fight_manager.FightManager)
        (human_sqls : option (list string)) (theme difficulty : string)
        (on_progress : option (Z -> Z -> World -> World))
        (s : fight_manager.FightState) :
  spec.agents_return_text ->
  exists new s',
    fight_manager.run_fight self "ai_vs_ai" human_sqls theme difficulty
      on_progress s
    = (Returned (fight_manager.turns s ++ new)%list, s')
    /\ fight_manager.turns s' = (fight_manager.turns s ++ new)%list
    /\ List.length new = Z.to_nat (fight_manager.rounds self)
    /\ forall i t, nth_error new i = Some t ->
         fight_log.round_number t = (Z.of_nat i + 1)%Z
         /\ fight_log.agent_name t = name (agent_at (spec.side self i)).
Proof.
  intro Htext.
  unfold fight_manager.run_fight, fight_manager.bind,
    fight_manager.validate_human_mode.
  change (String.eqb "ai_vs_ai" "you_vs_ai") with false. cbv iota.
  unfold fight_manager.ret at 1. unfold fight_manager.range.
  replace (fight_manager.rounds self + 1 - 1)%Z
    with (fight_manager.rounds self) by lia.
  destruct (ai_loop self human_sqls theme
              (fight_manager._difficulty_prompt difficulty) on_progress Htext
              (Z.to_nat (fight_manager.rounds self)) 0
              {| fight_manager.previous_query := None;
                 fight_manager.previous_result_summary := None;
                 fight_manager.challenge :=
                   (fight_manager._theme_prompt theme ++ " "
                    ++ fight_manager._difficulty_prompt difficulty)%string;
                 fight_manager.current_agent := fight_manager.agent_a self;
                 fight_manager.human_turn_index := 0 |} s eq_refl)
    as (loc' & s' & new & Hloop & Hturns & Hlen & Hrec).
  rewrite Hloop. exists new, s'. unfold fight_manager.get_turns.
  rewrite Hturns. repeat split; auto; now apply Hrec.
Qed.

Lemma demo_agents_return_text : @spec.agents_return_text demo.host.
Proof.
  intros r schema pq ps ch w. cbn.
  destruct (Nat.eqb r 0); do 2 eexists; reflexivity.
Qed.

Lemma dual_agent_fight_appends_rounds_witness :
  @spec.agents_return_text demo.host
  /\ exists new s',
       demo.fight demo.host (fst (demo.fresh demo.host 0%nat 2)) "ai_vs_ai"
         None demo.after_first_fight
       = (Returned (@fight_manager.turns demo.host demo.after_first_fight
                    ++ new)%list, s')
       /\ List.length new = 2%nat.
Proof.
  split; [exact demo_agents_return_text|].
  destruct (@dual_agent_fight_appends_rounds demo.host
              (fst (demo.fresh demo.host 0%nat 2)) None "Default chaos" "Chill"
              None demo.after_first_fight demo_agents_return_text)
    as (new & s' & Hrun & _ & Hlen & _).
  exists new, s'. split; [exact Hrun | exact Hlen].
Defined.

(** A second fight on the same manager returns the records of both
    fights: four records for two rounds, round numbers 1, 2, 1, 2. *)
Lemma second_fight_returns_earlier_records :
  fight_manager.rounds (fst (demo.fresh demo.host 0%nat 2)) = 2%Z
  /\ exists l s',
       demo.fight demo.host (fst (demo.fresh demo.host 0%nat 2)) "ai_vs_ai"
         None demo.after_first_fight = (Returned l, s')
       /\ List.length l = 4%nat
       /\ map fight_log.round_number l = [1; 2; 1; 2]%Z.
Proof.
  split; [reflexivity|].
  do 2 eexists. split; [vm_compute; reflexivity|]. split; reflexivity.
Qed.

Section HumanMode.

Import fight_manager.

Context {host : Host}.

Variables (self : FightManager) (theme difficulty : string)
          (on_progress : option (Z -> Z -> World -> World)).

(** The first round of a human-vs-agent fight takes the human's first
    query and records it. *)
Lemma first_human_round (first : string) (rest : list string)
      (difficulty_text : string) (loc : Locals) (s : FightState) :
  current_agent loc = agent_a self -> human_turn_index loc = 0%nat ->
  exists loc' s' t,
    round_body self "you_vs_ai" (Some (first :: rest)) theme difficulty_text
      on_progress 1 loc s = (Returned loc', s')
    /\ turns s' = (turns s ++ [t])%list
    /\ fight_log.round_number t = 1%Z
    /\ fight_log.sql t = first.
Proof.
  intros Hagent Hindex.
  assert (Hobtain : forall st,
            obtain_sql self "you_vs_ai" (Some (first :: rest)) loc st
            = (Returned (first, 1%nat, 0%Z), st)).
  { intro st. unfold obtain_sql.
    change (String.eqb "you_vs_ai" "you_vs_ai") with true.
    rewrite Hagent, Nat.eqb_refl, Hindex. reflexivity. }
  destruct (round_body_cases self "you_vs_ai" (Some (first :: rest)) theme
              difficulty_text on_progress 1 loc s)
    as [(e & s2 & Hraised & _)
       |(q & idx & tok & s2 & loc' & s' & t & Hq & Hrun & Ht & Hn & _ & Hsql & _)].
  - rewrite Hobtain in Hraised. discriminate.
  - rewrite Hobtain in Hq. injection Hq as <- _ _ _.
    exists loc', s', t. auto.
Qed.

Lemma rounds_at_least_two (k : nat) :
  Z.of_nat (S k) = (rounds self / 2)%Z ->
  exists n, Z.to_nat (rounds self + 1 - 1) = S n.
Proof.
  intro H.
  destruct (Z.to_nat (rounds self + 1 - 1)) as [|n] eqn:E; [|now exists n].
  assert (Hle : (rounds self / 2 <= 0)%Z)
    by (apply Z.div_le_upper_bound; lia).
  lia.
Qed.

End HumanMode.

(** C7, amended.  In human-vs-agent mode [run_fight] raises the
    configuration error (a [ValueError]) before any turn executes, the
    manager and the world left as they were, if and only if the list of
    human queries is missing or empty or its length differs from
    [rounds // 2]; with a non-empty list of length [rounds // 2] there is
    no such error and the fight proceeds: the human's first query is
    recorded as round 1. *)
Theorem human_mode_validation
        {host : Host} (self : fight_manager.FightManager)
        (human_sqls : option (list string)) (theme difficulty : string)
        (on_progress : option (Z -> Z -> World -> World))
        (s : fight_manager.FightState) :
  (fight_manager.falsy human_sqls = true
   \/ fight_manager.len human_sqls <> (fight_manager.rounds self / 2)%Z ->
   exists msg,
     fight_manager.run_fight self "you_vs_ai" human_sqls theme difficulty
       on_progress s
     = (Raised (mk_exn ValueError msg), s))
  /\ (fight_manager.falsy human_sqls = false
      /\ fight_manager.len human_sqls = (fight_manager.rounds self / 2)%Z ->
      exists first rest t more,
        human_sqls = Some (first :: rest)
        /\ fight_manager.turns
             (snd (fight_manager.run_fight self "you_vs_ai" human_sqls theme
                     difficulty on_progress s))
           = (fight_manager.turns s ++ t :: more)%list
        /\ fight_log.round_number t = 1%Z
        /\ fight_log.sql t = first).
Proof.
  split.
  - intro Hbad.
    unfold fight_manager.run_fight, fight_manager.bind.
    rewrite validate_human_mode_you_vs_ai.
    assert (Hcond : fight_manager.falsy human_sqls
                    || negb (fight_manager.len human_sqls
                             =? fight_manager.rounds self / 2)%Z = true).
    { destruct Hbad as [->|Hne]; [reflexivity|].
      apply Z.eqb_neq in Hne. rewrite Hne. apply orb_true_r. }
    rewrite Hcond. eexists. reflexivity.
  - intros [Hfalsy Hlen].
    destruct human_sqls as [[|first rest]|]; try discriminate.
    exists first, rest.
    unfold fight_manager.run_fight, fight_manager.bind.
    rewrite validate_human_mode_you_vs_ai.
    apply Z.eqb_eq in Hlen as Hlenb. rewrite Hlenb. cbn [orb negb fight_manager.falsy].
    destruct (rounds_at_least_two self (List.length rest) Hlen) as [n Hn].
    unfold fight_manager.range. rewrite Hn.
    cbn [seq map fight_manager.for_each Z.of_nat Z.add].
    unfold fight_manager.bind.
    destruct (first_human_round self theme on_progress first rest
                (fight_manager._difficulty_prompt difficulty)
                {| fight_manager.previous_query := None;
                   fight_manager.previous_result_summary := None;
                   fight_manager.challenge :=
                     (fight_manager._theme_prompt theme ++ " "
                      ++ fight_manager._difficulty_prompt difficulty)%string;
                   fight_manager.current_agent := fight_manager.agent_a self;
                   fight_manager.human_turn_index := 0 |} s eq_refl eq_refl)
      as (loc1 & s1 & t & Hrun & Ht & Hround & Hsql).
    rewrite Hrun.
    destruct (for_each_appends
                spec.turn_ok
                (fight_manager.round_body self "you_vs_ai"
                   (Some (first :: rest)) theme
                   (fight_manager._difficulty_prompt difficulty) on_progress)
                (fun x acc s0 =>
                   round_body_appends self (Some (first :: rest)) theme
                     on_progress "you_vs_ai"
                     (fight_manager._difficulty_prompt difficulty) x acc s0)
                (map (fun i => (1 + Z.of_nat i)%Z) (seq 1 n)) loc1 s1)
      as (more & Hmore & _).
    exists t, more.
    destruct (fight_manager.for_each _ _ loc1 s1) as [[loc'|e] s'];
      cbn [snd] in *; unfold fight_manager.get_turns; cbn [snd];
      rewrite Hmore, Ht, <- app_assoc; auto.
Qed.

Lemma human_mode_validation_witness :
  (exists msg,
      demo.fight demo.host (fst (demo.fresh demo.host 0%nat 2)) "you_vs_ai"
        (Some ["SELECT 1"; "SELECT 2"]) (snd (demo.fresh demo.host 0%nat 2))
      = (Raised (mk_exn ValueError msg), snd (demo.fresh demo.host 0%nat 2)))
  /\ (exists first rest t more,
         Some [demo.SELECT_ALL] = Some (first :: rest)
         /\ @fight_manager.turns demo.host
              (snd (demo.fight demo.host (fst (demo.fresh demo.host 0%nat 2))
                      "you_vs_ai" (Some [demo.SELECT_ALL])
                      (snd (demo.fresh demo.host 0%nat 2))))
            = (@fight_manager.turns demo.host
                 (snd (demo.fresh demo.host 0%nat 2)) ++ t :: more)%list
         /\ fight_log.round_number t = 1%Z
         /\ fight_log.sql t = first).
Proof.
  split.
  - apply (proj1 (@human_mode_validation demo.host
                    (fst (demo.fresh demo.host 0%nat 2))
                    (Some ["SELECT 1"; "SELECT 2"]) "Default chaos" "Chill" None
                    (snd (demo.fresh demo.host 0%nat 2)))).
    right. discriminate.
  - apply (proj2 (@human_mode_validation demo.host
                    (fst (demo.fresh demo.host 0%nat 2))
                    (Some [demo.SELECT_ALL]) "Default chaos" "Chill" None
                    (snd (demo.fresh demo.host 0%nat 2)))).
    split; reflexivity.
Defined.

(** With one round configured, the empty list has the required length
    [1 // 2 = 0], and the configuration error is raised all the same. *)
Lemma empty_human_list_rejected :
  fight_manager.len (Some [])
  = (fight_manager.rounds (fst (demo.fresh demo.host 0%nat 1)) / 2)%Z
  /\ demo.fight demo.host (fst (demo.fresh demo.host 0%nat 1)) "you_vs_ai"
       (Some []) (snd (demo.fresh demo.host 0%nat 1))
     = (Raised (mk_exn ValueError "Expected 0 human SQL queries, but got 0."),
        snd (demo.fresh demo.host 0%nat 1)).
Proof. split; reflexivity. Qed.

(** ** Failures of the generation capability *)

(** In [run_fight] the call of [generate_sql] stands outside the [try]:
    when the first agent's call raises, the exception leaves [run_fight]
    and no record is made. *)
Lemma run_fight_propagates_generation_failure
      {host : Host} (self : fight_manager.FightManager) (mode : string)
      (human_sqls : option (list string)) (theme difficulty : string)
      (on_progress : option (Z -> Z -> World -> World))
      (s : fight_manager.FightState) (e : exn) (w' : World) :
  String.eqb mode "you_vs_ai" = false ->
  (1 <= fight_manager.rounds self)%Z ->
  generate_sql (agent_at (fight_manager.agent_a self))
    (fight_manager.schema_description self) None None
    (fight_manager._theme_prompt theme ++ " "
     ++ fight_manager._difficulty_prompt difficulty)
    (snd (perf_counter (fight_manager.world s)))
  = (Raised e, w') ->
  fight_manager.run_fight self mode human_sqls theme difficulty on_progress s
  = (Raised e,
     {| fight_manager.turns := fight_manager.turns s;
        fight_manager.world := w' |}).
Proof.
  intros Hmode Hrounds Hgen.
  unfold fight_manager.run_fight, fight_manager.bind,
    fight_manager.validate_human_mode.
  rewrite Hmode. unfold fight_manager.ret at 1. unfold fight_manager.range.
  destruct (Z.to_nat (fight_manager.rounds self + 1 - 1)) as [|n] eqn:E;
    [lia|].
  cbn [seq map fight_manager.for_each Z.of_nat Z.add].
  unfold fight_manager.bind.
  match goal with
  | |- context [fight_manager.round_body ?a ?b ?c ?d ?f ?g ?h ?loc s] =>
      destruct (round_body_cases a b c d f g h loc s)
        as [(e' & s2 & Hraised & -> & _)
           |(q & idx & tok & s2 & loc' & s' & t & Hq & _)]
  end.
  - unfold fight_manager.obtain_sql in Hraised. rewrite Hmode in Hraised.
    cbn [andb fight_manager.current_agent fight_manager.previous_query
         fight_manager.previous_result_summary fight_manager.challenge
         fight_manager.world] in Hraised.
    unfold fight_manager.bind, fight_manager.call in Hraised.
    cbn [fight_manager.world fight_manager.turns] in Hraised.
    rewrite Hgen in Hraised. now injection Hraised as <- <-.
  - unfold fight_manager.obtain_sql in Hq. rewrite Hmode in Hq.
    cbn [andb fight_manager.current_agent fight_manager.previous_query
         fight_manager.previous_result_summary fight_manager.challenge
         fight_manager.world] in Hq.
    unfold fight_manager.bind, fight_manager.call in Hq.
    cbn [fight_manager.world fight_manager.turns] in Hq.
    rewrite Hgen in Hq. discriminate.
Qed.

(** The round-based manager does fold the failure into a failed round:
    no exception, no success, score zero, the error recorded. *)
Lemma execute_round_folds_generation_failure
      (World Row : Type)
      (fetch_schema_rows :
         World -> outcome (list (string * string * string)) * World)
      (validate_query : string -> bool * string)
      (execute_query_safely :
         string -> Z -> World -> (option (list Row) * option string) * World)
      (calculate_query_score : string -> Z -> Q -> Q)
      (time_time : World -> Q * World)
      (round_num : Z) (agent : sql_fight_manager.Agent World)
      (agent_name challenge : string)
      (previous_query previous_result_summary : option string)
      (w w1 w2 : World) (schema : string) (e : exn) :
  sql_fight_manager.get_schema World fetch_schema_rows w
  = (Returned schema, w1) ->
  agent schema challenge previous_query previous_result_summary w1
  = (Raised e, w2) ->
  sql_fight_manager.execute_round World Row fetch_schema_rows validate_query
    execute_query_safely calculate_query_score time_time round_num agent
    agent_name challenge previous_query previous_result_summary w
  = (Returned
       {| sql_fight_manager.round_number := round_num;
          sql_fight_manager.agent_name := agent_name;
          sql_fight_manager.query := None;
          sql_fight_manager.success := false;
          sql_fight_manager.error :=
            Some ("Agent failed to generate query: " ++ exn_str e);
          sql_fight_manager.execution_time := 0;
          sql_fight_manager.result_row_count := 0;
          sql_fight_manager.result_preview := None;
          sql_fight_manager.score := 0 |}, w2).
Proof.
  intros Hschema Hagent. unfold sql_fight_manager.execute_round.
  now rewrite Hschema, Hagent.
Qed.

(** C1.  The specification asks that a failing generation be caught and
    recorded as a failed turn; [run_fight] does not do so.  With an agent A whose
    provider fails, a two-round dual-agent fight ends with that very
    exception: nothing is recorded, agent B is never asked. *)
Theorem agent_exception_escapes_run_fight :
  demo.fight demo.failing_host (fst (demo.fresh demo.failing_host 0%nat 2))
    "ai_vs_ai" None (snd (demo.fresh demo.failing_host 0%nat 2))
  = (Raised (mk_exn OtherException "provider unavailable"),
     @fight_manager.Build_FightState demo.failing_host [] 1%nat).
Proof. reflexivity. Qed.

(** With three rounds and the one human query the validation asks for,
    the human's second turn finds no query: an [IndexError] ends the
    fight in round 3. *)
Example odd_rounds_index_error :
  fst (demo.fight demo.host (fst (demo.fresh demo.host 0%nat 3)) "you_vs_ai"
         (Some [demo.SELECT_ALL]) (snd (demo.fresh demo.host 0%nat 3)))
  = Raised (mk_exn IndexError "list index out of range").
Proof. reflexivity. Qed.

(** The scenario of the specification: a table of five rows, agents that
    always answer [SELECT * FROM t], two rounds.  Two valid turns, both
    scored 0, each with a preview of five rows. *)
Example two_round_scenario :
  exists t1 t2 s',
    demo.fight demo.host (fst (demo.fresh demo.host 0%nat 2)) "ai_vs_ai" None
      (snd (demo.fresh demo.host 0%nat 2)) = (Returned [t1; t2], s')
    /\ map fight_log.is_valid_sql [t1; t2] = [true; true]
    /\ map fight_log.complexity_score [t1; t2] = [0; 0]
    /\ map (fun t => option_map (@List.length _) (fight_log.rows_preview t))
           [t1; t2] = [Some 5%nat; Some 5%nat]
    /\ map fight_log.agent_name [t1; t2] = ["Agent A"; "Agent B"].
Proof.
  do 3 eexists. split; [vm_compute; reflexivity|]. repeat split.
Qed.

Example is_select_only_examples :
  is_select_only "SELECT * FROM people" = true
  /\ is_select_only "INSERT INTO people VALUES (1)" = false.
Proof. split; reflexivity. Qed.

(* ================================================================== *)
(** * Further properties of the code *)
(* ================================================================== *)

(** ** The admission filter, both ways *)

Lemma prefix_split (a s : string) :
  prefix a s = true -> exists post, s = a ++ post.
Proof.
  revert s. induction a as [|c a IH]; intros s H.
  - now exists s.
  - destruct s as [|d s]; [discriminate|]. simpl in H.
    destruct (ascii_dec c d) as [->|]; [|discriminate].
    destruct (IH s H) as [post ->]. now exists post.
Qed.

Lemma contains_split (sub s : string) :
  Py.contains sub s = true -> exists pre post, s = pre ++ sub ++ post.
Proof.
  induction s as [|c s IH]; cbn [Py.contains]; intro H.
  - rewrite orb_false_r in H. destruct (prefix_split _ _ H) as [post E].
    exists EmptyString, post. exact E.
  - apply orb_true_iff in H. destruct H as [H|H].
    + destruct (prefix_split _ _ H) as [post E].
      exists EmptyString, post. exact E.
    + destruct (IH H) as (pre & post & ->).
      now exists (String c pre), post.
Qed.

Lemma lower_split (s a b : string) :
  Py.lower s = a ++ b ->
  exists s1 s2, s = s1 ++ s2 /\ Py.lower s1 = a /\ Py.lower s2 = b.
Proof.
  revert s. induction a as [|c a IH]; intros s H.
  - exists EmptyString, s. auto.
  - destruct s as [|d s]; [discriminate|]. simpl in H.
    injection H as Hc H. destruct (IH s H) as (s1 & s2 & -> & H1 & H2).
    exists (String d s1), s2. simpl. now rewrite Hc, H1.
Qed.

Lemma forbidden_keyword_missing (kws : list string) (lowered : string) :
  no_forbidden_keyword kws lowered = false ->
  exists kw, In kw kws /\ Py.contains kw lowered = true.
Proof.
  induction kws as [|k kws IH]; simpl; [discriminate|].
  destruct (Py.contains k lowered) eqn:E.
  - intros _. exists k. auto.
  - intro H. destruct (IH H) as (kw & Hin & Hc). exists kw. auto.
Qed.

(** Of the texts of characters up to U+00FF, [is_select_only] accepts
    exactly those that begin, after leading white space, with the token
    SELECT and in which no keyword of the denylist occurs, letter case
    ignored. *)
Theorem is_select_only_accepts_exactly (text : string) :
  Unicode.is_select_only (Unicode.of_string text) = true
  <-> spec.begins_with_select_token text = true
      /\ forall kw, In kw FORBIDDEN_KEYWORDS ->
           ~ spec.occurs_ignoring_case kw text.
Proof.
  rewrite is_select_only_latin1. unfold is_select_only. rewrite select_only_pattern_spec. split.
  - destruct (spec.begins_with_select_token text); [|discriminate].
    cbn [negb]. intro Hno. split; [reflexivity|].
    intros kw Hin (pre & mid & post & -> & Hmid).
    rewrite (forbidden_keyword_found FORBIDDEN_KEYWORDS kw) in Hno;
      [discriminate | exact Hin |].
    rewrite !lower_app, Hmid, (forbidden_keywords_lowercase kw Hin).
    apply contains_app.
  - intros [-> Hnone]. cbn [negb].
    destruct (no_forbidden_keyword FORBIDDEN_KEYWORDS (Py.lower text)) eqn:E;
      [reflexivity|].
    destruct (forbidden_keyword_missing _ _ E) as (kw & Hin & Hc).
    destruct (contains_split _ _ Hc) as (pre' & post' & Hsplit).
    destruct (lower_split _ _ _ Hsplit) as (pre & rest & -> & _ & Hrest).
    destruct (lower_split _ _ _ Hrest) as (mid & post & -> & Hmid & _).
    elim (Hnone kw Hin). exists pre, mid, post. split; [reflexivity|].
    now rewrite Hmid, (forbidden_keywords_lowercase kw Hin).
Qed.

(** ** Letter case *)

Lemma lower_char_idempotent (c : ascii) :
  Py.lower_char (Py.lower_char c) = Py.lower_char c.
Proof. each_char c; reflexivity. Qed.

Lemma isspace_lower_char (c : ascii) :
  Py.isspace (Py.lower_char c) = Py.isspace c.
Proof. each_char c; reflexivity. Qed.

Lemma is_word_lower_char (c : ascii) :
  Re.is_word (Py.lower_char c) = Re.is_word c.
Proof. each_char c; reflexivity. Qed.

Lemma lower_idempotent (s : string) : Py.lower (Py.lower s) = Py.lower s.
Proof.
  induction s as [|c s IH]; simpl; [reflexivity|].
  now rewrite lower_char_idempotent, IH.
Qed.

Lemma lstrip_lower (s : string) :
  Py.lstrip (Py.lower s) = Py.lower (Py.lstrip s).
Proof.
  induction s as [|c s IH]; simpl; [reflexivity|].
  rewrite isspace_lower_char. now destruct (Py.isspace c).
Qed.

Lemma substring_lower (n m : nat) (s : string) :
  substring n m (Py.lower s) = Py.lower (substring n m s).
Proof.
  revert n m. induction s as [|c s IH]; intros n m.
  - now destruct n, m.
  - destruct n as [|n]; simpl; [|apply IH].
    destruct m as [|m]; simpl; [reflexivity | now rewrite IH].
Qed.

Lemma length_lower (s : string) :
  String.length (Py.lower s) = String.length s.
Proof. induction s as [|c s IH]; simpl; [reflexivity | now rewrite IH]. Qed.

Lemma word_after_lower (s : string) :
  Re.word_after (Py.lower s) = Re.word_after s.
Proof. destruct s; simpl; [reflexivity | apply is_word_lower_char]. Qed.

Lemma begins_with_select_token_lower (text : string) :
  spec.begins_with_select_token (Py.lower text)
  = spec.begins_with_select_token text.
Proof.
  unfold spec.begins_with_select_token, spec.drop.
  rewrite lstrip_lower, !substring_lower, length_lower, lower_idempotent.
  now rewrite word_after_lower.
Qed.

(** The verdict of [is_select_only] depends on the text only up to
    letter case. *)
Theorem is_select_only_ignores_case (a b : string) :
  Py.lower a = Py.lower b -> is_select_only a = is_select_only b.
Proof.
  intro H. unfold is_select_only. rewrite !select_only_pattern_spec.
  rewrite <- (begins_with_select_token_lower a),
    <- (begins_with_select_token_lower b), H.
  reflexivity.
Qed.

Lemma is_select_only_ignores_case_witness :
  is_select_only "SeLeCt * FROM People" = is_select_only "select * from people".
Proof.
  apply (is_select_only_ignores_case
           "SeLeCt * FROM People" "select * from people").
  reflexivity.
Defined.

(** ** The scorer's range *)

Lemma of_int_nonneg (n : Z) : (0 <= n)%Z -> 0 <= Float.of_int n.
Proof.
  intro H. apply nearest_nonneg. change 0 with (inject_Z 0).
  now rewrite <- Zle_Qle.
Qed.

Lemma of_int_ge_1 (n : Z) : (1 <= n)%Z -> 1 <= Float.of_int n.
Proof.
  intro H. change 1 with (2 ^ 0). apply nearest_ge_pow2; [lia|].
  change (2 ^ 0) with (inject_Z 1). now rewrite <- Zle_Qle.
Qed.

Lemma term_sign (n : Z) (lit : Q) :
  (0 <= n)%Z -> 1 # 8 <= Float.literal lit ->
  0 <= Float.mul (Float.of_int n) (Float.literal lit)
  /\ ((0 < n)%Z -> 1 # 8 <= Float.mul (Float.of_int n) (Float.literal lit)).
Proof.
  intros Hn Hlit. pose proof (of_int_nonneg n Hn) as H0. split.
  - apply nearest_nonneg. apply Qmult_le_0_compat; lra.
  - intro Hpos. pose proof (of_int_ge_1 n ltac:(lia)) as H1.
    change (1 # 8) with (2 ^ (-3)). apply nearest_ge_pow2; [lia|].
    change (2 ^ (-3)) with (1 # 8).
    set (x := Float.of_int n) in *. set (l := Float.literal lit) in *.
    clearbody x l. nra.
Qed.

Lemma add_sign (x y : Q) :
  0 <= x -> 0 <= y ->
  0 <= Float.add x y
  /\ (1 # 8 <= x -> 1 # 8 <= Float.add x y)
  /\ (1 # 8 <= y -> 1 # 8 <= Float.add x y).
Proof.
  intros Hx Hy. split; [apply nearest_nonneg; lra|].
  split; intro H; change (1 # 8) with (2 ^ (-3));
    (apply nearest_ge_pow2; [lia|]); change (2 ^ (-3)) with (1 # 8); lra.
Qed.

Lemma round_sign (x : Q) :
  0 <= x ->
  0 <= Float.round x 2 /\ (1 # 8 <= x -> 0 < Float.round x 2).
Proof.
  intro Hx. unfold Float.round, Py.round.
  change (Pos.pow 10 (Pos.of_nat 2)) with 100%positive.
  split.
  - apply nearest_nonneg. rewrite Qred_correct.
    assert (H : (0 <= Py.round_half_even (x * inject_Z 100))%Z).
    { apply rhe_ge. change (inject_Z 0) with 0. change (inject_Z 100) with 100.
      lra. }
    unfold Qle. simpl. lia.
  - intro Hbig.
    assert (H : (12 <= Py.round_half_even (x * inject_Z 100))%Z).
    { apply rhe_ge. change (inject_Z 12) with 12. change (inject_Z 100) with 100.
      lra. }
    apply Qlt_le_trans with (2 ^ (-4)); [reflexivity|].
    apply nearest_ge_pow2; [lia|]. rewrite Qred_correct.
    change (2 ^ (-4)) with (1 # 16). unfold Qle. simpl. lia.
Qed.

Lemma literal_values :
  Float.literal (3 # 2) == 3 # 2 /\ Float.literal 1 == 1
  /\ Float.literal 3 == 3
  /\ Float.literal (1 # 5) == 3602879701896397 # 18014398509481984.
Proof. repeat split; vm_compute; reflexivity. Qed.

Lemma score_of_counts_sign (a b c d e f : Z) :
  (0 <= a)%Z -> (0 <= b)%Z -> (0 <= c)%Z -> (0 <= d)%Z -> (0 <= e)%Z ->
  (0 <= f)%Z ->
  0 <= score_of_counts a b c d e f
  /\ (score_of_counts a b c d e f == 0
      <-> a = 0%Z /\ b = 0%Z /\ c = 0%Z /\ d = 0%Z /\ e = 0%Z /\ f = 0%Z).
Proof.
  intros Ha Hb Hc Hd He Hf.
  destruct literal_values as (L1 & L2 & L3 & L4).
  assert (Hsome : (0 < a \/ 0 < b \/ 0 < c \/ 0 < d \/ 0 < e \/ 0 < f)%Z ->
                  0 < score_of_counts a b c d e f).
  { intro Hpos. unfold score_of_counts. cbv zeta.
    destruct (term_sign b (3 # 2) Hb ltac:(rewrite L1; lra)) as [Tb0 Tb1].
    destruct (term_sign c 1 Hc ltac:(rewrite L2; lra)) as [Tc0 Tc1].
    destruct (term_sign d 3 Hd ltac:(rewrite L3; lra)) as [Td0 Td1].
    destruct (term_sign e (3 # 2) He ltac:(rewrite L1; lra)) as [Te0 Te1].
    destruct (term_sign f (1 # 5) Hf ltac:(rewrite L4; lra)) as [Tf0 Tf1].
    set (tb := Float.mul (Float.of_int b) _) in *.
    set (tc := Float.mul (Float.of_int c) _) in *.
    set (td := Float.mul (Float.of_int d) _) in *.
    set (te := Float.mul (Float.of_int e) _) in *.
    set (tf := Float.mul (Float.of_int f) _) in *.
    clearbody tb tc td te tf.
    pose proof (of_int_nonneg (0 + a * 2) ltac:(lia)) as Ia0.
    assert (Ia1 : (0 < a)%Z -> 1 # 8 <= Float.of_int (0 + a * 2)).
    { intro H. pose proof (of_int_ge_1 (0 + a * 2) ltac:(lia)). lra. }
    set (ia := Float.of_int (0 + a * 2)) in *. clearbody ia.
    destruct (add_sign ia tb Ia0 Tb0) as (S1 & S1a & S1b).
    set (s1 := Float.add ia tb) in *. clearbody s1.
    destruct (add_sign s1 tc S1 Tc0) as (S2 & S2a & S2b).
    set (s2 := Float.add s1 tc) in *. clearbody s2.
    destruct (add_sign s2 td S2 Td0) as (S3 & S3a & S3b).
    set (s3 := Float.add s2 td) in *. clearbody s3.
    destruct (add_sign s3 te S3 Te0) as (S4 & S4a & S4b).
    set (s4 := Float.add s3 te) in *. clearbody s4.
    destruct (add_sign s4 tf S4 Tf0) as (S5 & S5a & S5b).
    set (s5 := Float.add s4 tf) in *. clearbody s5.
    apply (round_sign s5 S5). intuition. }
  assert (Hnone : a = 0%Z /\ b = 0%Z /\ c = 0%Z /\ d = 0%Z /\ e = 0%Z
                  /\ f = 0%Z -> score_of_counts a b c d e f == 0).
  { intros (-> & -> & -> & -> & -> & ->). vm_compute. reflexivity. }
  assert (Hcases : (a = 0 /\ b = 0 /\ c = 0 /\ d = 0 /\ e = 0 /\ f = 0)%Z
                   \/ (0 < a \/ 0 < b \/ 0 < c \/ 0 < d \/ 0 < e \/ 0 < f)%Z)
    by lia.
  destruct Hcases as [Hz|Hp].
  - split; [rewrite (Hnone Hz); lra|]. split; [intros _; exact Hz | exact Hnone].
  - pose proof (Hsome Hp) as Hgt. split; [lra|]. split; [|exact Hnone].
    intro E. rewrite E in Hgt. discriminate.
Qed.

(** The score is never negative, and it is zero exactly when none of the
    six weighted substrings occurs in the text. *)
Theorem complexity_score_zero_iff (text : string) :
  0 <= complexity_score text
  /\ (complexity_score text == 0
      <-> forall sub w, In (sub, w) spec.WEIGHTS ->
            spec.occurrences sub text = 0%nat).
Proof.
  rewrite complexity_score_counts.
  destruct (score_of_counts_sign
              (Z.of_nat (spec.occurrences " join " text))
              (Z.of_nat (spec.occurrences " group by " text))
              (Z.of_nat (spec.occurrences " order by " text))
              (Z.of_nat (spec.occurrences " over(" text))
              (Z.of_nat (spec.occurrences " case " text))
              (Z.of_nat (spec.occurrences "(" text))) as [H0 Hiff];
    try apply Nat2Z.is_nonneg.
  split; [exact H0|]. rewrite Hiff. split.
  - intros (A & B & C & D & E & F) sub w Hin.
    unfold spec.WEIGHTS in Hin. simpl in Hin.
    destruct Hin as [H|[H|[H|[H|[H|[H|[]]]]]]]; injection H as <- _; lia.
  - intro H.
    repeat split.
    + rewrite (H " join " 2); [reflexivity | unfold spec.WEIGHTS; simpl; auto 10].
    + rewrite (H " group by " (3 # 2)); [reflexivity | unfold spec.WEIGHTS; simpl; auto 10].
    + rewrite (H " order by " 1); [reflexivity | unfold spec.WEIGHTS; simpl; auto 10].
    + rewrite (H " over(" 3); [reflexivity | unfold spec.WEIGHTS; simpl; auto 10].
    + rewrite (H " case " (3 # 2)); [reflexivity | unfold spec.WEIGHTS; simpl; auto 10].
    + rewrite (H "(" (1 # 5)); [reflexivity | unfold spec.WEIGHTS; simpl; auto 10].
Qed.

(** ** Table names that are already clean *)

Lemma tidy_char_facts (c : ascii) :
  props.tidy_char c = true ->
  Py.isspace c = false
  /\ (if ascii_dec " " c then true else false) = false
  /\ (Py.isalnum c || Ascii.eqb c "_") = true
  /\ Py.lower_char c = c.
Proof. each_char c; vm_compute; intro H; (discriminate H || auto). Qed.

Lemma replace_space_chars (Q : ascii -> bool) (s : string) :
  Q "_"%char = true -> spec.all_chars Q s = true ->
  spec.all_chars Q (Py.replace_from " " "_" 0 s) = true.
Proof.
  intros Hu. induction s as [|c s IH]; [reflexivity|].
  cbn [spec.all_chars Py.replace_from prefix String.length Nat.sub].
  intro H. apply andb_true_iff in H. destruct H as [Hc Hs].
  destruct (ascii_dec " " c) as [_|_].
  - replace (prefix "" s) with true by (now destruct s).
    cbn [append spec.all_chars]. rewrite Hu. now apply IH.
  - cbn [spec.all_chars]. rewrite Hc. now apply IH.
Qed.

Lemma lower_chars_fixed (s : string) :
  spec.all_chars (fun c => Ascii.eqb (Py.lower_char c) c) (Py.lower s) = true.
Proof.
  induction s as [|c s IH]; [reflexivity|]. cbn [Py.lower spec.all_chars].
  now rewrite lower_char_idempotent, Ascii.eqb_refl.
Qed.

Lemma filter_chars_both (ok Q : ascii -> bool) (s : string) :
  spec.all_chars Q s = true ->
  spec.all_chars (fun c => ok c && Q c) (Py.filter_chars ok s) = true.
Proof.
  induction s as [|c s IH]; [reflexivity|]. cbn [spec.all_chars Py.filter_chars].
  intro H. apply andb_true_iff in H. destruct H as [Hc Hs].
  destruct (ok c) eqn:Hok; [|now apply IH].
  cbn [spec.all_chars]. now rewrite Hok, Hc, IH.
Qed.

(** The result of [_sanitize_table_name] is a tidy name. *)
Lemma sanitize_table_name_tidy (name : string) :
  props.tidy_name (fight_manager._sanitize_table_name name) = true.
Proof.
  unfold fight_manager._sanitize_table_name.
  destruct (Py.strip name) as [|c0 s0]; [reflexivity|].
  set (ok := fun ch : ascii => Py.isalnum ch || Ascii.eqb ch "_").
  assert (Hall : spec.all_chars props.tidy_char
                   (Py.filter_chars ok
                      (Py.replace (Py.lower (String c0 s0)) " " "_")) = true).
  { apply (filter_chars_both ok (fun c => Ascii.eqb (Py.lower_char c) c)).
    apply replace_space_chars; [reflexivity | apply lower_chars_fixed]. }
  destruct (Py.filter_chars ok _) as [|c r]; [reflexivity|].
  destruct (Py.isdigit c) eqn:Hd.
  - change ("t_" ++ String c r) with (String "t" (String "_" (String c r))).
    unfold props.tidy_name. cbn [spec.all_chars] in *. now rewrite Hall.
  - unfold props.tidy_name. now rewrite Hd, Hall.
Qed.

Lemma rstrip_tidy (s : string) :
  spec.all_chars props.tidy_char s = true -> Py.rstrip s = s.
Proof.
  induction s as [|c s IH]; [reflexivity|]. cbn [spec.all_chars Py.rstrip].
  intro H. apply andb_true_iff in H. destruct H as [Hc Hs].
  rewrite (IH Hs). destruct (tidy_char_facts c Hc) as (Hsp & _).
  destruct s; [now rewrite Hsp | reflexivity].
Qed.

Lemma lower_tidy (s : string) :
  spec.all_chars props.tidy_char s = true -> Py.lower s = s.
Proof.
  induction s as [|c s IH]; [reflexivity|]. cbn [spec.all_chars Py.lower].
  intro H. apply andb_true_iff in H. destruct H as [Hc Hs].
  destruct (tidy_char_facts c Hc) as (_ & _ & _ & ->). now rewrite IH.
Qed.

Lemma replace_space_tidy (s : string) :
  spec.all_chars props.tidy_char s = true ->
  Py.replace_from " " "_" 0 s = s.
Proof.
  induction s as [|c s IH]; [reflexivity|].
  cbn [spec.all_chars Py.replace_from prefix].
  intro H. apply andb_true_iff in H. destruct H as [Hc Hs].
  destruct (tidy_char_facts c Hc) as (_ & Hne & _).
  destruct (ascii_dec " " c); [discriminate|]. now rewrite IH.
Qed.

Lemma filter_chars_tidy (s : string) :
  spec.all_chars props.tidy_char s = true ->
  Py.filter_chars (fun ch => Py.isalnum ch || Ascii.eqb ch "_") s = s.
Proof.
  induction s as [|c s IH]; [reflexivity|].
  cbn [spec.all_chars Py.filter_chars].
  intro H. apply andb_true_iff in H. destruct H as [Hc Hs].
  destruct (tidy_char_facts c Hc) as (_ & _ & -> & _). now rewrite IH.
Qed.

Lemma sanitize_tidy_fixed (s : string) :
  props.tidy_name s = true -> fight_manager._sanitize_table_name s = s.
Proof.
  unfold props.tidy_name. destruct s as [|c r]; [discriminate|].
  intro H. apply andb_true_iff in H. destruct H as [Hd Hall].
  apply negb_true_iff in Hd.
  assert (Hc : props.tidy_char c = true)
    by (cbn [spec.all_chars] in Hall; now apply andb_true_iff in Hall).
  destruct (tidy_char_facts c Hc) as (Hsp & _).
  unfold fight_manager._sanitize_table_name, Py.strip.
  cbn [Py.lstrip]. rewrite Hsp, (rstrip_tidy _ Hall), (lower_tidy _ Hall).
  unfold Py.replace. rewrite (replace_space_tidy _ Hall).
  rewrite (filter_chars_tidy _ Hall). now rewrite Hd.
Qed.

(** A name that is already clean (not empty, only alphanumeric characters
    and underscores, none changed by [lower], no digit in front) comes
    back from [_sanitize_table_name] unchanged. *)
Theorem sanitize_table_name_keeps_tidy (s : string) :
  props.tidy_name s = true -> fight_manager._sanitize_table_name s = s.
Proof. exact (sanitize_tidy_fixed s). Qed.

Lemma sanitize_table_name_keeps_tidy_witness :
  fight_manager._sanitize_table_name "orders_2024" = "orders_2024".
Proof.
  apply (sanitize_table_name_keeps_tidy "orders_2024"). reflexivity.
Defined.

(** Sanitizing twice is sanitizing once. *)
Theorem sanitize_table_name_idempotent (name : string) :
  fight_manager._sanitize_table_name (fight_manager._sanitize_table_name name)
  = fight_manager._sanitize_table_name name.
Proof.
  apply sanitize_tidy_fixed, sanitize_table_name_tidy.
Qed.

(** ** Token estimates *)

(** The estimate is zero exactly for the empty text, never exceeds the
    number of characters, and never falls when the text gets longer. *)
Theorem estimate_tokens_bounds (a b : string) :
  (fight_manager._estimate_tokens a = 0%Z <-> a = EmptyString)
  /\ (0 <= fight_manager._estimate_tokens a <= Z.of_nat (String.length a))%Z
  /\ ((String.length a <= String.length b)%nat ->
      (fight_manager._estimate_tokens a <= fight_manager._estimate_tokens b)%Z).
Proof.
  unfold fight_manager._estimate_tokens.
  destruct a as [|c a].
  - split; [tauto|]. split; [simpl; lia|]. intros _. destruct b; lia.
  - set (n := Z.of_nat (String.length (String c a))).
    assert (Hn : (1 <= n)%Z) by (unfold n; simpl String.length; lia).
    assert (Hdiv : (n / 4 <= n)%Z) by (apply Z.div_le_upper_bound; lia).
    split; [split; [lia | discriminate]|]. split; [lia|].
    intro Hlen. destruct b as [|d b]; [simpl in Hlen; lia|].
    assert (Hmono : (n / 4 <= Z.of_nat (String.length (String d b)) / 4)%Z)
      by (apply Z.div_le_mono; unfold n; lia).
    lia.
Qed.

(** ** Themes and difficulties *)

Lemma lower_all_space (s : string) :
  spec.all_chars Py.isspace s = true ->
  spec.all_chars Py.isspace (Py.lower s) = true.
Proof.
  induction s as [|c s IH]; [reflexivity|]. cbn [Py.lower spec.all_chars].
  intro H. apply andb_true_iff in H. destruct H as [Hc Hs].
  now rewrite isspace_lower_char, Hc, IH.
Qed.

Lemma lstrip_space (s : string) :
  spec.all_chars Py.isspace s = true -> Py.lstrip s = EmptyString.
Proof.
  induction s as [|c s IH]; [reflexivity|]. cbn [spec.all_chars Py.lstrip].
  intro H. apply andb_true_iff in H. destruct H as [-> Hs]. now apply IH.
Qed.

Lemma rstrip_space (s : string) :
  spec.all_chars Py.isspace s = true -> Py.rstrip s = EmptyString.
Proof.
  induction s as [|c s IH]; [reflexivity|]. cbn [spec.all_chars Py.rstrip].
  intro H. apply andb_true_iff in H. destruct H as [Hc Hs].
  now rewrite (IH Hs), Hc.
Qed.

Lemma lstrip_app_space (l x : string) :
  spec.all_chars Py.isspace l = true -> Py.lstrip (l ++ x) = Py.lstrip x.
Proof.
  induction l as [|c l IH]; [reflexivity|].
  cbn [spec.all_chars append Py.lstrip].
  intro H. apply andb_true_iff in H. destruct H as [-> Hl]. now apply IH.
Qed.

Lemma rstrip_app_space (x r : string) :
  spec.all_chars Py.isspace r = true -> Py.rstrip (x ++ r) = Py.rstrip x.
Proof.
  intro Hr. induction x as [|c x IH]; [now apply rstrip_space|].
  cbn [append Py.rstrip]. now rewrite IH.
Qed.

Lemma strip_app_space (x r : string) :
  spec.all_chars Py.isspace r = true -> Py.strip (x ++ r) = Py.strip x.
Proof.
  intro Hr. unfold Py.strip. induction x as [|c x IH].
  - cbn [append]. now rewrite (lstrip_space r Hr).
  - cbn [append Py.lstrip]. destruct (Py.isspace c); [exact IH|].
    exact (rstrip_app_space (String c x) r Hr).
Qed.

Lemma strip_padding (l x r : string) :
  spec.all_chars Py.isspace l = true -> spec.all_chars Py.isspace r = true ->
  Py.strip (l ++ x ++ r) = Py.strip x.
Proof.
  intros Hl Hr. unfold Py.strip at 1. rewrite (lstrip_app_space l _ Hl).
  exact (strip_app_space x r Hr).
Qed.

Lemma prompts_of_key (a b : string) :
  Py.strip (Py.lower a) = Py.strip (Py.lower b) ->
  fight_manager._theme_prompt a = fight_manager._theme_prompt b
  /\ fight_manager._difficulty_prompt a = fight_manager._difficulty_prompt b.
Proof.
  intro H. unfold fight_manager._theme_prompt, fight_manager._difficulty_prompt.
  now rewrite H.
Qed.

(** The theme and difficulty prompts do not depend on white space around
    the name nor on its letter case. *)
Theorem prompts_ignore_padding_and_case (l name r : string) :
  spec.all_chars Py.isspace l = true ->
  spec.all_chars Py.isspace r = true ->
  fight_manager._theme_prompt (l ++ name ++ r)
  = fight_manager._theme_prompt (Py.lower name)
  /\ fight_manager._difficulty_prompt (l ++ name ++ r)
     = fight_manager._difficulty_prompt (Py.lower name)
  /\ fight_manager._theme_prompt (Py.lower name)
     = fight_manager._theme_prompt name
  /\ fight_manager._difficulty_prompt (Py.lower name)
     = fight_manager._difficulty_prompt name.
Proof.
  intros Hl Hr.
  assert (H1 : Py.strip (Py.lower (l ++ name ++ r))
               = Py.strip (Py.lower (Py.lower name))).
  { rewrite !lower_app, lower_idempotent.
    apply strip_padding; now apply lower_all_space. }
  assert (H2 : Py.strip (Py.lower (Py.lower name)) = Py.strip (Py.lower name))
    by now rewrite lower_idempotent.
  destruct (prompts_of_key _ _ H1) as [T1 D1].
  destruct (prompts_of_key _ _ H2) as [T2 D2].
  auto.
Qed.

Lemma prompts_ignore_padding_and_case_witness :
  fight_manager._theme_prompt ("  " ++ "Space Pirates" ++ " ")
  = fight_manager._theme_prompt (Py.lower "Space Pirates")
  /\ fight_manager._difficulty_prompt ("  " ++ "Space Pirates" ++ " ")
     = fight_manager._difficulty_prompt (Py.lower "Space Pirates")
  /\ fight_manager._theme_prompt (Py.lower "Space Pirates")
     = fight_manager._theme_prompt "Space Pirates"
  /\ fight_manager._difficulty_prompt (Py.lower "Space Pirates")
     = fight_manager._difficulty_prompt "Space Pirates".
Proof.
  apply (prompts_ignore_padding_and_case "  " "Space Pirates" " ");
    reflexivity.
Defined.

(** ** The schema text and the catalog's order *)

Lemma key_injective (l : list catalog.column_row) (a b : catalog.column_row) :
  NoDup (map props.position_key l) -> In a l -> In b l ->
  props.position_key a = props.position_key b -> a = b.
Proof.
  induction l as [|x l IH]; intros Hnd Ha Hb E; [contradiction|].
  cbn [map] in Hnd. inversion Hnd as [|? ? Hnot Hnd']; subst.
  destruct Ha as [->|Ha], Hb as [->|Hb]; auto.
  - elim Hnot. rewrite E. now apply in_map.
  - elim Hnot. rewrite <- E. now apply in_map.
Qed.

Lemma row_leb_antisym (a b : catalog.column_row) :
  catalog.row_leb a b = true -> catalog.row_leb b a = true ->
  props.position_key a = props.position_key b.
Proof.
  unfold catalog.row_leb, props.position_key. intros Hab Hba.
  rewrite String.compare_antisym in Hba.
  destruct (String.compare (catalog.table_name a) (catalog.table_name b)) eqn:E;
    try discriminate.
  apply String.compare_eq_iff in E. apply Nat.leb_le in Hab, Hba.
  f_equal; [exact E | lia].
Qed.

Lemma fetched_unique (cat : catalog.Catalog) (rows rows' : list catalog.column_row) :
  NoDup (map props.position_key (filter catalog.in_main cat)) ->
  catalog.fetched cat rows -> catalog.fetched cat rows' -> rows = rows'.
Proof.
  intros Hnd [Hp Hs] [Hp' Hs'].
  apply sorted_perm_unique with (leb := catalog.row_leb); auto.
  - intros a b Ha Hb Hab Hba.
    apply (key_injective (filter catalog.in_main cat)); auto.
    + exact (Permutation_in _ Hp Ha).
    + exact (Permutation_in _ Hp Hb).
    + now apply row_leb_antisym.
  - now rewrite Hp, Hp'.
Qed.

Lemma filter_perm {A : Type} (f : A -> bool) (l l' : list A) :
  Permutation l l' -> Permutation (filter f l) (filter f l').
Proof.
  induction 1 as [|x l l' _ IH|x y l|l l' l'' _ IH1 _ IH2]; simpl.
  - constructor.
  - destruct (f x); [now constructor | exact IH].
  - destruct (f x), (f y); try reflexivity. apply perm_swap.
  - now transitivity (filter f l').
Qed.

(** When no two columns of schema [main] share table name and position,
    the schema text does not depend on the order in which the catalog
    holds its rows, nor on the order in which the database returns
    them. *)
Theorem introspect_schema_order_independent (cat cat' : catalog.Catalog) :
  NoDup (map props.position_key (filter catalog.in_main cat)) ->
  Permutation cat cat' ->
  fight_manager.introspect_schema cat = fight_manager.introspect_schema cat'
  /\ forall rows,
       catalog.fetched cat' rows ->
       Py.join (String "010" "")
         (fight_manager.schema_lines None (map catalog.selected rows))
       = fight_manager.introspect_schema cat.
Proof.
  intros Hnd Hperm.
  assert (H : forall rows,
             catalog.fetched cat' rows ->
             rows = catalog.order_by catalog.row_leb
                      (filter catalog.in_main cat)).
  { intros rows [Hp Hs]. apply (fetched_unique cat); auto.
    - split; [|exact Hs]. rewrite Hp. symmetry. now apply filter_perm.
    - apply query_fetched. }
  split.
  - unfold fight_manager.introspect_schema, catalog.schema_query.
    now rewrite <- (H _ (query_fetched cat')).
  - intros rows Hf. unfold fight_manager.introspect_schema, catalog.schema_query.
    now rewrite (H rows Hf).
Qed.

Lemma introspect_schema_order_independent_witness :
  fight_manager.introspect_schema (demo.tables ++ demo.people)%list
  = fight_manager.introspect_schema (demo.people ++ demo.tables)%list.
Proof.
  refine (proj1 (introspect_schema_order_independent
                   (demo.tables ++ demo.people)%list
                   (demo.people ++ demo.tables)%list _ _)).
  - cbv. repeat constructor; simpl; intuition discriminate.
  - apply Permutation_app_comm.
Defined.

(** ** One round, in full *)

Section RoundInFull.

Import fight_manager.

Context {host : Host}.

Variables (self : FightManager) (mode : string)
          (human_sqls : option (list string)) (theme difficulty_text : string)
          (on_progress : option (Z -> Z -> World -> World)).

Local Abbreviation started s :=
  {| turns := turns s; world := snd (perf_counter (world s)) |}.

(** A text that is not admitted never reaches the database. *)
Lemma check_and_execute_rejected (q : string) (s : FightState) :
  check_and_execute false q s = (Returned (Some REJECTED, None), s).
Proof. reflexivity. Qed.

Lemma check_and_execute_outcome (valid : bool) (q : string) (s : FightState) :
  exists error rows_preview s',
    check_and_execute valid q s = (Returned (error, rows_preview), s')
    /\ turns s' = turns s
    /\ (valid = false -> error = Some REJECTED /\ rows_preview = None /\ s' = s)
    /\ (error = None -> valid = true).
Proof.
  destruct valid.
  - destruct (check_and_execute_spec true q s)
      as (error & rows & s' & Hrun & Ht & _ & _).
    exists error, rows, s'. repeat split; auto; discriminate.
  - exists (Some REJECTED), None, s. repeat split; auto; discriminate.
Qed.

(** When the round gets its SQL, it ends normally: the record and the
    local variables are made of the SQL, the outcome of the guarded
    execution and the clock. *)
Lemma round_body_full (round_num : Z) (loc : Locals) (s s2 : FightState)
      (q : string) (idx : nat) (tokens : Z) :
  obtain_sql self mode human_sqls loc (started s)
  = (Returned (q, idx, tokens), s2) ->
  exists error rows_preview s3,
    check_and_execute (is_select_only q) q s2
    = (Returned (error, rows_preview), s3)
    /\ round_body self mode human_sqls theme difficulty_text on_progress
         round_num loc s
       = (Returned (props.locals_after self theme difficulty_text loc q idx
                      rows_preview),
          {| turns :=
               (turns s
                ++ [props.turn_of round_num loc q tokens error rows_preview
                      (fst (perf_counter (world s3))
                       - fst (perf_counter (world s)))])%list;
             world :=
               props.after_progress on_progress round_num (rounds self)
                 (snd (perf_counter (world s3))) |}).
Proof.
  intro Hobtain.
  pose proof (obtain_sql_turns self mode human_sqls loc (started s)) as Hturns.
  rewrite Hobtain in Hturns. cbn [snd turns] in Hturns.
  destruct (check_and_execute_outcome (is_select_only q) q s2)
    as (error & rows_preview & s3 & Hexec & Hturns3 & _ & _).
  exists error, rows_preview, s3. split; [exact Hexec|].
  unfold round_body, bind, observe.
  destruct (perf_counter (world s)) as [start_time w0].
  cbn [fst snd] in *. rewrite Hobtain, Hexec.
  unfold append_turn, ret.
  destruct (perf_counter (world s3)) as [end_time w3].
  cbn [fst snd turns world]. rewrite Hturns3, Hturns.
  destruct on_progress as [notify|]; reflexivity.
Qed.

(** When getting the SQL raises, so does the round, with the state that
    the failed call left. *)
Lemma round_body_raised (round_num : Z) (loc : Locals) (s s2 : FightState)
      (e : exn) :
  obtain_sql self mode human_sqls loc (started s) = (Raised e, s2) ->
  round_body self mode human_sqls theme difficulty_text on_progress
    round_num loc s = (Raised e, s2).
Proof.
  intro Hobtain. unfold round_body, bind, observe.
  destruct (perf_counter (world s)) as [start_time w0].
  cbn [snd] in *. now rewrite Hobtain.
Qed.

Lemma turn_of_ok (round_num : Z) (loc : Locals) (q : string) (tokens : Z)
      (error : option string)
      (rows_preview : option (list (fight_log.dict Value))) (duration : Q) :
  (is_select_only q = false -> error = Some REJECTED /\ rows_preview = None) ->
  props.record_ok
    (props.turn_of round_num loc q tokens error rows_preview duration).
Proof.
  intro Hrej. unfold props.record_ok, props.turn_of. cbn.
  split; [reflexivity|]. split.
  - intro H. apply andb_true_iff in H. destruct H as [Hv He].
    split; [exact Hv|]. now destruct error.
  - exact Hrej.
Qed.

End RoundInFull.

Section Records.

Import fight_manager.

Context {host : Host}.

Variables (self : FightManager) (mode : string)
          (human_sqls : option (list string)) (theme difficulty : string)
          (on_progress : option (Z -> Z -> World -> World)).

Local Abbreviation started s :=
  {| turns := turns s; world := snd (perf_counter (world s)) |}.

(** A round whose SQL is not admitted makes its record (the fixed
    rejection message, no rows, not valid, the score of the text) and
    leaves the world as the call that produced the SQL left it, but for
    the clock and the progress callback: the database is not touched. *)
Theorem rejected_round_skips_database
        (difficulty_text : string) (round_num : Z) (loc : Locals)
        (s s2 : FightState) (q : string) (idx : nat) (tokens : Z) :
  obtain_sql self mode human_sqls loc (started s)
  = (Returned (q, idx, tokens), s2) ->
  is_select_only q = false ->
  round_body self mode human_sqls theme difficulty_text on_progress
    round_num loc s
  = (Returned (props.locals_after self theme difficulty_text loc q idx None),
     {| turns :=
          (turns s
           ++ [props.turn_of round_num loc q tokens (Some REJECTED) None
                 (fst (perf_counter (world s2))
                  - fst (perf_counter (world s)))])%list;
        world :=
          props.after_progress on_progress round_num (rounds self)
            (snd (perf_counter (world s2))) |}).
Proof.
  intros Hobtain Hrejected.
  destruct (round_body_full self mode human_sqls theme difficulty_text
              on_progress round_num loc s s2 q idx tokens Hobtain)
    as (error & rows & s3 & Hexec & Hrun).
  rewrite Hrejected, check_and_execute_rejected in Hexec.
  injection Hexec as <- <- <-. exact Hrun.
Qed.

(** The rounds from index [a] on: the records made, wherever the loop
    stops. *)
Lemma fight_loop (n : nat) :
  forall (a : nat) (loc : Locals) (s : FightState),
    current_agent loc = spec.side self a ->
    challenge loc = props.prompt_at theme difficulty a ->
    exists new,
      turns (snd (for_each (map (fun i => (1 + Z.of_nat i)%Z) (seq a n))
                    (round_body self mode human_sqls theme
                       (_difficulty_prompt difficulty) on_progress) loc s))
      = (turns s ++ new)%list
      /\ (List.length new <= n)%nat
      /\ (forall loc',
             fst (for_each (map (fun i => (1 + Z.of_nat i)%Z) (seq a n))
                    (round_body self mode human_sqls theme
                       (_difficulty_prompt difficulty) on_progress) loc s)
             = Returned loc' -> List.length new = n)
      /\ forall i t, nth_error new i = Some t ->
           fight_log.round_number t = (Z.of_nat (a + i) + 1)%Z
           /\ fight_log.agent_name t
              = name (agent_at (spec.side self (a + i)))
           /\ fight_log.prompt t = props.prompt_at theme difficulty (a + i)
           /\ props.record_ok t.
Proof.
  induction n as [|n IH]; intros a loc s Hside Hprompt.
  - exists []. cbn. rewrite app_nil_r. repeat split; auto;
      destruct i; discriminate.
  - cbn [seq map for_each]. unfold bind.
    destruct (obtain_sql self mode human_sqls loc (started s))
      as [[[[q idx] tokens]|e] s2] eqn:Hobtain.
    2:{ rewrite (round_body_raised self mode human_sqls theme
                   (_difficulty_prompt difficulty) on_progress
                   (1 + Z.of_nat a) loc s s2 e Hobtain).
        pose proof (obtain_sql_turns self mode human_sqls loc (started s)) as Ht.
        rewrite Hobtain in Ht. cbn [snd turns] in Ht.
        exists []. cbn. rewrite app_nil_r. repeat split; auto; try lia;
          try discriminate; destruct i; discriminate. }
    destruct (round_body_full self mode human_sqls theme
                (_difficulty_prompt difficulty) on_progress
                (1 + Z.of_nat a) loc s s2 q idx tokens Hobtain)
      as (error & rows & s3 & Hexec & ->).
    destruct (check_and_execute_outcome (is_select_only q) q s2)
      as (error' & rows' & s3' & Hexec' & _ & Hrej & _).
    rewrite Hexec in Hexec'. injection Hexec' as <- <- <-.
    match goal with
    | |- context [for_each _ _ ?l ?st] =>
        destruct (IH (S a) l st) as (new & Hnew & Hlen & Hret & Hrec)
    end.
    + cbn [props.locals_after current_agent]. rewrite Hside.
      apply side_next.
    + reflexivity.
    + match goal with
      | H : turns _ = (turns {| turns := (_ ++ [?t])%list; world := _ |} ++ _)%list
        |- _ => exists (t :: new); assert (Hok : props.record_ok t)
      end.
      { apply turn_of_ok. intro Hq. destruct (Hrej Hq) as (He & Hr & _). auto. }
      split; [rewrite Hnew; cbn [turns]; now rewrite <- app_assoc|].
      split; [cbn; lia|].
      split; [intros loc' Hl; cbn; f_equal; exact (Hret loc' Hl)|].
      intros [|i] u; cbn [nth_error].
      * intro Hu. assert (E : props.turn_of (1 + Z.of_nat a) loc q tokens
                                error rows
                                (fst (perf_counter (world s3))
                                 - fst (perf_counter (world s))) = u)
          by congruence.
        rewrite <- E. rewrite Nat.add_0_r.
        split; [unfold props.turn_of; cbn [fight_log.round_number]; lia|].
        split; [unfold props.turn_of; cbn [fight_log.agent_name];
                now rewrite Hside|].
        split; [unfold props.turn_of; cbn [fight_log.prompt]; exact Hprompt|].
        exact Hok.
      * intro Hu. rewrite Nat.add_succ_r. exact (Hrec i u Hu).
Qed.

(** The records of a fight, in any mode and with any agents, whether
    [run_fight] returns or raises: record [i] (from 0) has round number
    [i + 1], the name of agent A for even [i] and of agent B for odd
    [i], the opening prompt for [i = 0] and the follow-up prompt after,
    the score of its own SQL text, validity only for admitted SQL, and
    the fixed rejection without rows for SQL that is not admitted; there
    are at most N of them, and exactly N when [run_fight] returns. *)
Theorem run_fight_record_positions (s : FightState) :
  exists new,
    turns (snd (run_fight self mode human_sqls theme difficulty on_progress s))
    = (turns s ++ new)%list
    /\ (List.length new <= Z.to_nat (rounds self))%nat
    /\ (forall l,
           fst (run_fight self mode human_sqls theme difficulty on_progress s)
           = Returned l ->
           l = (turns s ++ new)%list
           /\ List.length new = Z.to_nat (rounds self))
    /\ forall i t, nth_error new i = Some t ->
         fight_log.round_number t = (Z.of_nat i + 1)%Z
         /\ fight_log.agent_name t = name (agent_at (spec.side self i))
         /\ fight_log.prompt t = props.prompt_at theme difficulty i
         /\ props.record_ok t.
Proof.
  unfold run_fight, bind.
  pose proof (validate_human_mode_state self human_sqls mode s) as Hv.
  destruct (validate_human_mode self mode human_sqls s) as [[[]|e] s1];
    cbn [snd] in Hv; subst s1.
  2:{ exists []. cbn. rewrite app_nil_r. repeat split; auto; try lia;
        try discriminate; destruct i; discriminate. }
  unfold range. replace (rounds self + 1 - 1)%Z with (rounds self) by lia.
  match goal with
  | |- context [for_each _ _ ?l s] =>
      destruct (fight_loop (Z.to_nat (rounds self)) 0 l s eq_refl eq_refl)
        as (new & Hnew & Hlen & Hret & Hrec)
  end.
  exists new.
  destruct (for_each _ _ _ s) as [[loc'|e] s'] eqn:Hloop;
    cbn [fst snd] in *; unfold get_turns; cbn [fst snd].
  - split; [exact Hnew|]. split; [exact Hlen|].
    split; [intros l [= <-]; split; [exact Hnew | exact (Hret loc' eq_refl)]|].
    exact Hrec.
  - split; [exact Hnew|]. split; [exact Hlen|].
    split; [discriminate | exact Hrec].
Qed.

End Records.

Lemma rejected_round_skips_database_witness :
  exists loc' t,
    @fight_manager.round_body props.dropping_host
      (fst (demo.fresh props.dropping_host 0%nat 2)) "ai_vs_ai" None
      "Default chaos" "Chill" None 1
      {| fight_manager.previous_query := None;
         fight_manager.previous_result_summary := None;
         fight_manager.challenge := "go";
         fight_manager.current_agent := 0%nat;
         fight_manager.human_turn_index := 0 |}
      (snd (demo.fresh props.dropping_host 0%nat 2))
    = (Returned loc',
       @fight_manager.Build_FightState props.dropping_host [t] 1%nat)
    /\ fight_log.error t = Some fight_manager.REJECTED.
Proof.
  do 2 eexists. split.
  - apply (@rejected_round_skips_database props.dropping_host
             (fst (demo.fresh props.dropping_host 0%nat 2)) "ai_vs_ai" None
             "Default chaos" None "Chill" 1
             {| fight_manager.previous_query := None;
                fight_manager.previous_result_summary := None;
                fight_manager.challenge := "go";
                fight_manager.current_agent := 0%nat;
                fight_manager.human_turn_index := 0 |}
             (snd (demo.fresh props.dropping_host 0%nat 2))
             (@fight_manager.Build_FightState props.dropping_host [] 1%nat)
             "DROP TABLE t" 0%nat 3%Z);
      reflexivity.
  - reflexivity.
Defined.

(** ** Human against agent *)

Lemma div2_step (a : nat) :
  (Nat.even a = true -> Nat.div2 (S a) = Nat.div2 a)
  /\ (Nat.even a = false -> Nat.div2 (S a) = S (Nat.div2 a)).
Proof.
  induction a as [|a [IHe IHo]]; [split; [reflexivity | discriminate]|].
  rewrite Nat.even_succ, <- Nat.negb_even.
  change (Nat.div2 (S (S a))) with (S (Nat.div2 a)).
  destruct (Nat.even a); cbn [negb]; split; intro H; try discriminate.
  - now rewrite (IHe eq_refl).
  - now rewrite (IHo eq_refl).
Qed.

Lemma div2_mono (a b : nat) : (a <= b)%nat -> (Nat.div2 a <= Nat.div2 b)%nat.
Proof.
  intro H. rewrite !Nat.div2_div. now apply Nat.Div0.div_le_mono.
Qed.

Lemma for_each_app {host : Host} {A St : Type} (xs ys : list A)
      (body : A -> St -> fight_manager.M St) (acc : St)
      (s : fight_manager.FightState) :
  fight_manager.for_each (xs ++ ys) body acc s
  = fight_manager.bind (fight_manager.for_each xs body acc)
      (fight_manager.for_each ys body) s.
Proof.
  revert acc s. induction xs as [|x xs IH]; intros acc s; [reflexivity|].
  cbn [app fight_manager.for_each]. unfold fight_manager.bind in *.
  destruct (body x acc s) as [[acc'|e] s1]; [|reflexivity].
  apply IH.
Qed.

Section HumanFights.

Import fight_manager.

Context {host : Host}.

Variables (self : FightManager) (queries : list string)
          (theme difficulty_text : string)
          (on_progress : option (Z -> Z -> World -> World)).

Hypothesis text_always : spec.agents_return_text.
Hypothesis distinct : agent_a self <> agent_b self.

Lemma obtain_sql_human_turn (loc : Locals) (s : FightState) (q : string) :
  current_agent loc = agent_a self ->
  nth_error queries (human_turn_index loc) = Some q ->
  obtain_sql self "you_vs_ai" (Some queries) loc s
  = (Returned (q, S (human_turn_index loc), 0%Z), s).
Proof.
  intros Hagent Hq. unfold obtain_sql.
  change (String.eqb "you_vs_ai" "you_vs_ai") with true.
  rewrite Hagent, Nat.eqb_refl. cbn [andb].
  unfold bind, subscript. now rewrite Hq.
Qed.

Lemma obtain_sql_human_missing (loc : Locals) (s : FightState) :
  current_agent loc = agent_a self ->
  nth_error queries (human_turn_index loc) = None ->
  obtain_sql self "you_vs_ai" (Some queries) loc s
  = (Raised (mk_exn IndexError "list index out of range"), s).
Proof.
  intros Hagent Hq. unfold obtain_sql.
  change (String.eqb "you_vs_ai" "you_vs_ai") with true.
  rewrite Hagent, Nat.eqb_refl. cbn [andb].
  unfold bind, subscript. now rewrite Hq.
Qed.

Lemma obtain_sql_agent_turn (loc : Locals) (s : FightState) :
  current_agent loc = agent_b self ->
  exists text s',
    obtain_sql self "you_vs_ai" (Some queries) loc s
    = (Returned (text, human_turn_index loc, _estimate_tokens text), s').
Proof.
  intro Hagent. unfold obtain_sql. rewrite Hagent.
  assert (E : Nat.eqb (agent_b self) (agent_a self) = false)
    by (apply Nat.eqb_neq; intro H; now apply distinct).
  rewrite E, andb_false_r. unfold bind, call, ret.
  destruct (text_always (agent_b self) (schema_description self)
              (previous_query loc) (previous_result_summary loc)
              (challenge loc) (world s)) as (text & w' & Ht).
  rewrite Ht. eauto.
Qed.

(** The rounds from index [a] on, as long as the human has queries
    left. *)
Lemma human_loop (n : nat) :
  forall (a : nat) (loc : Locals) (s : FightState),
    current_agent loc = spec.side self a ->
    human_turn_index loc = Nat.div2 (S a) ->
    (Nat.div2 (S (a + n)) <= List.length queries)%nat ->
    exists loc' s' new,
      for_each (map (fun i => (1 + Z.of_nat i)%Z) (seq a n))
        (round_body self "you_vs_ai" (Some queries) theme difficulty_text
           on_progress) loc s = (Returned loc', s')
      /\ turns s' = (turns s ++ new)%list
      /\ List.length new = n
      /\ current_agent loc' = spec.side self (a + n)
      /\ human_turn_index loc' = Nat.div2 (S (a + n))
      /\ forall i t, nth_error new i = Some t ->
           if Nat.even (a + i)
           then nth_error queries (Nat.div2 (a + i)) = Some (fight_log.sql t)
                /\ fight_log.estimated_tokens t = Some 0%Z
                /\ fight_log.agent_name t = name (agent_at (agent_a self))
           else fight_log.agent_name t = name (agent_at (agent_b self)).
Proof.
  induction n as [|n IH]; intros a loc s Hside Hindex Hrange.
  - exists loc, s, []. cbn. rewrite app_nil_r, Nat.add_0_r.
    repeat split; auto. intros [|i] t; discriminate.
  - cbn [seq map for_each]. unfold bind.
    destruct (div2_step a) as [Heven Hodd].
    assert (Hstep :
              exists q idx tokens s2,
                obtain_sql self "you_vs_ai" (Some queries) loc
                  {| turns := turns s;
                     world := snd (perf_counter (world s)) |}
                = (Returned (q, idx, tokens), s2)
                /\ idx = Nat.div2 (S (S a))
                /\ if Nat.even a
                   then nth_error queries (Nat.div2 a) = Some q
                        /\ tokens = 0%Z
                   else True).
    { unfold spec.side in Hside. destruct (Nat.even a) eqn:Ha.
      - rewrite (Heven eq_refl) in Hindex.
        assert (Hlt : (Nat.div2 a < List.length queries)%nat).
        { pose proof (div2_mono (S (S a)) (S (a + S n)) ltac:(lia)) as Hm.
          change (Nat.div2 (S (S a))) with (S (Nat.div2 a)) in Hm. lia. }
        destruct (nth_error queries (Nat.div2 a)) as [q|] eqn:Hq;
          [|apply nth_error_None in Hq; lia].
        exists q, (S (human_turn_index loc)), 0%Z. eexists.
        split; [apply obtain_sql_human_turn; [exact Hside | now rewrite Hindex]|].
        split; [rewrite Hindex; reflexivity | auto].
      - destruct (obtain_sql_agent_turn loc
                    {| turns := turns s;
                       world := snd (perf_counter (world s)) |} Hside)
          as (text & s2 & Hob).
        exists text, (human_turn_index loc), (_estimate_tokens text), s2.
        split; [exact Hob|]. split; [|exact I].
        rewrite Hindex, (Hodd eq_refl). reflexivity. }
    destruct Hstep as (q & idx & tokens & s2 & Hobtain & Hidx & Hq).
    destruct (round_body_full self "you_vs_ai" (Some queries) theme
                difficulty_text on_progress (1 + Z.of_nat a) loc s s2 q idx
                tokens Hobtain)
      as (error & rows & s3 & _ & ->).
    match goal with
    | |- context [for_each _ _ ?l ?st] =>
        destruct (IH (S a) l st) as (loc' & s' & new & -> & Hnew & Hlen & Hc & Hi & Hrec)
    end.
    + cbn [props.locals_after current_agent]. rewrite Hside. apply side_next.
    + cbn [props.locals_after human_turn_index]. exact Hidx.
    + now rewrite Nat.add_succ_r in Hrange.
    + match goal with
      | H : turns _ = (turns {| turns := (_ ++ [?t])%list; world := _ |} ++ _)%list
        |- _ => exists loc', s', (t :: new)
      end.
      split; [reflexivity|].
      split; [rewrite Hnew; cbn [turns]; now rewrite <- app_assoc|].
      split; [cbn; now rewrite Hlen|].
      rewrite Nat.add_succ_r. split; [exact Hc|]. split; [exact Hi|].
      intros [|i] u; cbn [nth_error].
      * intro Hu.
        assert (E : props.turn_of (1 + Z.of_nat a) loc q tokens error rows
                      (fst (perf_counter (world s3))
                       - fst (perf_counter (world s))) = u) by congruence.
        rewrite <- E, Nat.add_0_r. unfold props.turn_of.
        cbn [fight_log.sql fight_log.estimated_tokens fight_log.agent_name].
        rewrite Hside. unfold spec.side.
        destruct (Nat.even a); [|reflexivity].
        destruct Hq as [Hq ->]. auto.
      * intro Hu. rewrite Nat.add_succ_r. exact (Hrec i u Hu).
Qed.

End HumanFights.

Lemma even_double (k : nat) : Nat.even (2 * k) = true.
Proof. apply Nat.even_spec. now exists k. Qed.

Lemma human_validation_passes
      {host : Host} (self : fight_manager.FightManager)
      (queries : list string) (s : fight_manager.FightState) :
  queries <> [] ->
  (fight_manager.rounds self / 2)%Z = Z.of_nat (List.length queries) ->
  fight_manager.validate_human_mode self "you_vs_ai" (Some queries) s
  = (Returned tt, s).
Proof.
  intros Hne Hlen. rewrite validate_human_mode_you_vs_ai.
  cbn [fight_manager.len]. rewrite Hlen, Z.eqb_refl.
  destruct queries; [now elim Hne | reflexivity].
Qed.

(** Human against agent with an even number of rounds, half as many
    human queries, two distinct agent objects and an agent that returns
    text: [run_fight] returns with all N rounds recorded; the records
    of even index are the human's, carrying the queries in order with a
    token estimate of zero, the others are agent B's. *)
Theorem human_fight_completes
        {host : Host} (self : fight_manager.FightManager)
        (queries : list string) (theme difficulty : string)
        (on_progress : option (Z -> Z -> World -> World))
        (s : fight_manager.FightState) :
  spec.agents_return_text ->
  fight_manager.agent_a self <> fight_manager.agent_b self ->
  queries <> [] ->
  fight_manager.rounds self = (2 * Z.of_nat (List.length queries))%Z ->
  exists new s',
    fight_manager.run_fight self "you_vs_ai" (Some queries) theme difficulty
      on_progress s
    = (Returned (fight_manager.turns s ++ new)%list, s')
    /\ List.length new = (2 * List.length queries)%nat
    /\ forall i t, nth_error new i = Some t ->
         if Nat.even i
         then nth_error queries (Nat.div2 i) = Some (fight_log.sql t)
              /\ fight_log.estimated_tokens t = Some 0%Z
              /\ fight_log.agent_name t
                 = name (agent_at (fight_manager.agent_a self))
         else fight_log.agent_name t
              = name (agent_at (fight_manager.agent_b self)).
Proof.
  intros Htext Hdistinct Hne Hrounds.
  unfold fight_manager.run_fight, fight_manager.bind.
  rewrite human_validation_passes;
    [|exact Hne | rewrite Hrounds, Z.mul_comm; apply Z.div_mul; lia].
  unfold fight_manager.range.
  replace (Z.to_nat (fight_manager.rounds self + 1 - 1))
    with (2 * List.length queries)%nat by lia.
  match goal with
  | |- context [fight_manager.for_each _ _ ?l s] =>
      destruct (human_loop self queries theme
                  (fight_manager._difficulty_prompt difficulty) on_progress
                  Htext Hdistinct (2 * List.length queries) 0 l s
                  eq_refl eq_refl)
        as (loc' & s' & new & -> & Hnew & Hlen & _ & _ & Hrec)
  end.
  - cbn [Nat.add]. rewrite Nat.div2_succ_double. lia.
  - exists new, s'. unfold fight_manager.get_turns. rewrite Hnew.
    split; [reflexivity|]. split; [exact Hlen|]. exact Hrec.
Qed.

Lemma human_fight_completes_witness :
  exists new s',
    demo.fight demo.host (fst (demo.fresh demo.host 0%nat 2)) "you_vs_ai"
      (Some [demo.SELECT_ALL]) (snd (demo.fresh demo.host 0%nat 2))
    = (Returned new, s')
    /\ List.length new = 2%nat.
Proof.
  destruct (@human_fight_completes demo.host
              (fst (demo.fresh demo.host 0%nat 2)) [demo.SELECT_ALL]
              "Default chaos" "Chill" None
              (snd (demo.fresh demo.host 0%nat 2)))
    as (new & s' & Hrun & Hlen & _).
  - exact demo_agents_return_text.
  - discriminate.
  - discriminate.
  - reflexivity.
  - exists new, s'. split; [exact Hrun | exact Hlen].
Defined.

(** Human against agent, on a manager whose two agents are distinct
    objects and with an agent that returns text.  With an odd number N of
    rounds, three or more, and the N // 2 queries that the validation
    asks for, the list is one query short: after N - 1 recorded rounds
    the human's last turn raises [IndexError], which leaves
    [run_fight]. *)
Theorem human_fight_odd_rounds_index_error
        {host : Host} (self : fight_manager.FightManager)
        (queries : list string) (theme difficulty : string)
        (on_progress : option (Z -> Z -> World -> World))
        (s : fight_manager.FightState) :
  spec.agents_return_text ->
  fight_manager.agent_a self <> fight_manager.agent_b self ->
  queries <> [] ->
  fight_manager.rounds self = (2 * Z.of_nat (List.length queries) + 1)%Z ->
  exists new s',
    fight_manager.run_fight self "you_vs_ai" (Some queries) theme difficulty
      on_progress s
    = (Raised (mk_exn IndexError "list index out of range"), s')
    /\ fight_manager.turns s' = (fight_manager.turns s ++ new)%list
    /\ List.length new = (2 * List.length queries)%nat.
Proof.
  intros Htext Hdistinct Hne Hrounds.
  unfold fight_manager.run_fight, fight_manager.bind.
  rewrite human_validation_passes;
    [|exact Hne
     |rewrite Hrounds; symmetry; apply Z.div_unique with (r := 1%Z); lia].
  unfold fight_manager.range.
  replace (Z.to_nat (fight_manager.rounds self + 1 - 1))
    with (S (2 * List.length queries)) by lia.
  rewrite seq_S, map_app, for_each_app. unfold fight_manager.bind.
  match goal with
  | |- context [fight_manager.for_each (map _ (seq 0 _)) _ ?l s] =>
      destruct (human_loop self queries theme
                  (fight_manager._difficulty_prompt difficulty) on_progress
                  Htext Hdistinct (2 * List.length queries) 0 l s
                  eq_refl eq_refl)
        as (loc' & s' & new & -> & Hnew & Hlen & Hagent & Hindex & _)
  end.
  - cbn [Nat.add]. rewrite Nat.div2_succ_double. lia.
  - cbn [Nat.add] in Hagent, Hindex.
    rewrite Nat.div2_succ_double in Hindex.
    unfold spec.side in Hagent. rewrite even_double in Hagent.
    cbn [map fight_manager.for_each]. unfold fight_manager.bind.
    rewrite (round_body_raised self "you_vs_ai" (Some queries) theme
               (fight_manager._difficulty_prompt difficulty) on_progress _
               loc' s'
               {| fight_manager.turns := fight_manager.turns s';
                  fight_manager.world :=
                    snd (perf_counter (fight_manager.world s')) |}
               (mk_exn IndexError "list index out of range")).
    + exists new. eexists. split; [reflexivity|].
      split; [exact Hnew | exact Hlen].
    + apply obtain_sql_human_missing; [exact Hagent|].
      rewrite Hindex. apply nth_error_None. lia.
Qed.

Lemma human_fight_odd_rounds_index_error_witness :
  exists s',
    demo.fight demo.host (fst (demo.fresh demo.host 0%nat 3)) "you_vs_ai"
      (Some [demo.SELECT_ALL]) (snd (demo.fresh demo.host 0%nat 3))
    = (Raised (mk_exn IndexError "list index out of range"), s')
    /\ List.length (@fight_manager.turns demo.host s') = 2%nat.
Proof.
  destruct (@human_fight_odd_rounds_index_error demo.host
              (fst (demo.fresh demo.host 0%nat 3)) [demo.SELECT_ALL]
              "Default chaos" "Chill" None
              (snd (demo.fresh demo.host 0%nat 3)))
    as (new & s' & Hrun & Hturns & Hlen).
  - exact demo_agents_return_text.
  - discriminate.
  - discriminate.
  - reflexivity.
  - exists s'. split; [exact Hrun|]. rewrite Hturns. exact Hlen.
Defined.

(** ** The first fight of a new manager *)

Lemma dual_agent_run
      {host : Host} (self : fight_manager.FightManager)
      (human_sqls : option (list string)) (theme difficulty : string)
      (on_progress : option (Z -> Z -> World -> World))
      (s : fight_manager.FightState) :
  spec.agents_return_text ->
  exists new s',
    fight_manager.run_fight self "ai_vs_ai" human_sqls theme difficulty
      on_progress s
    = (Returned (fight_manager.turns s ++ new)%list, s')
    /\ List.length new = Z.to_nat (fight_manager.rounds self)
    /\ forall i t, nth_error new i = Some t ->
         fight_log.round_number t = (Z.of_nat i + 1)%Z
         /\ fight_log.agent_name t = name (agent_at (spec.side self i)).
Proof.
  intro Htext.
  unfold fight_manager.run_fight, fight_manager.bind,
    fight_manager.validate_human_mode.
  change (String.eqb "ai_vs_ai" "you_vs_ai") with false. cbv iota.
  unfold fight_manager.ret at 1. unfold fight_manager.range.
  replace (fight_manager.rounds self + 1 - 1)%Z
    with (fight_manager.rounds self) by lia.
  match goal with
  | |- context [fight_manager.for_each _ _ ?l s] =>
      destruct (ai_loop self human_sqls theme
                  (fight_manager._difficulty_prompt difficulty) on_progress
                  Htext (Z.to_nat (fight_manager.rounds self)) 0 l s eq_refl)
        as (loc' & s' & new & Hloop & Hturns & Hlen & Hrec)
  end.
  rewrite Hloop. exists new, s'. unfold fight_manager.get_turns.
  rewrite Hturns. repeat split; auto; now apply Hrec.
Qed.

Lemma init_made
      {host : Host} (agent_a agent_b : ref) (rounds : option Z) (n_rows : Z)
      (weirdness : Q) (rng_seed : Z)
      (extra_tables : list (string * DataFrame)) (w w' : World)
      (self : fight_manager.FightManager) (s : fight_manager.FightState) :
  fight_manager.init agent_a agent_b rounds n_rows weirdness rng_seed
    extra_tables w = (Returned (self, s), w') ->
  fight_manager.agent_a self = agent_a
  /\ fight_manager.agent_b self = agent_b
  /\ fight_manager.rounds self = fight_manager.rounds_or_default rounds
  /\ fight_manager.turns s = [].
Proof.
  unfold fight_manager.init.
  destruct (seed_random_data n_rows weirdness rng_seed w) as [[[]|e] w1];
    [|discriminate].
  destruct (fight_manager.create_extra_tables extra_tables [] w1)
    as [[names|e] w2]; [|discriminate].
  intro H. injection H as Hself Hs _. subst self s. repeat split.
Qed.

(** On a manager as [__init__] makes it, a dual-agent fight with agents
    that return text returns exactly N records, N the rounds asked for
    (the default for none or zero), numbered 1..N, agent A's and agent
    B's in turn. *)
Theorem new_manager_fight_returns_all_rounds
        {host : Host} (agent_a agent_b : ref) (rounds : option Z) (n_rows : Z)
        (weirdness : Q) (rng_seed : Z)
        (extra_tables : list (string * DataFrame)) (w w' : World)
        (self : fight_manager.FightManager) (s : fight_manager.FightState)
        (human_sqls : option (list string)) (theme difficulty : string)
        (on_progress : option (Z -> Z -> World -> World)) :
  fight_manager.init agent_a agent_b rounds n_rows weirdness rng_seed
    extra_tables w = (Returned (self, s), w') ->
  spec.agents_return_text ->
  exists l s',
    fight_manager.run_fight self "ai_vs_ai" human_sqls theme difficulty
      on_progress s
    = (Returned l, s')
    /\ List.length l = Z.to_nat (fight_manager.rounds_or_default rounds)
    /\ forall i t, nth_error l i = Some t ->
         fight_log.round_number t = (Z.of_nat i + 1)%Z
         /\ fight_log.agent_name t
            = name (agent_at (if Nat.even i then agent_a else agent_b)).
Proof.
  intros Hinit Htext.
  destruct (init_made _ _ _ _ _ _ _ _ _ _ _ Hinit) as (Ha & Hb & Hr & Ht).
  destruct (dual_agent_run self human_sqls theme difficulty on_progress s
              Htext)
    as (new & s' & Hrun & Hlen & Hrec).
  rewrite Hrun, Ht. cbn [app]. exists new, s'.
  split; [reflexivity|]. split; [now rewrite Hlen, Hr|].
  intros i t Hit. destruct (Hrec i t Hit) as [H1 H2].
  split; [exact H1|]. rewrite H2. unfold spec.side. now rewrite Ha, Hb.
Qed.

Lemma new_manager_fight_returns_all_rounds_witness :
  exists l s',
    demo.fight demo.host (fst (demo.fresh demo.host 0%nat 4)) "ai_vs_ai" None
      (snd (demo.fresh demo.host 0%nat 4)) = (Returned l, s')
    /\ List.length l = 4%nat.
Proof.
  destruct (@new_manager_fight_returns_all_rounds demo.host 0%nat 1%nat
              (Some 4%Z) 200%Z 1%Q 42%Z [] 0%nat 0%nat
              (fst (demo.fresh demo.host 0%nat 4))
              (snd (demo.fresh demo.host 0%nat 4))
              None "Default chaos" "Chill" None eq_refl
              demo_agents_return_text)
    as (l & s' & Hrun & Hlen & _).
  exists l, s'. split; [exact Hrun | exact Hlen].
Defined.

(** ** Preview rows *)

Section PreviewRowFacts.

Context {host : Host}.

Lemma dict_set_get (d : fight_log.dict Value) (k k0 : string) (v : Value) :
  props.dict_get (fight_manager.dict_set d k v) k0
  = if String.eqb k k0 then Some v else props.dict_get d k0.
Proof.
  induction d as [|[k' v'] d IH]; cbn [fight_manager.dict_set props.dict_get].
  - reflexivity.
  - destruct (String.eqb_spec k' k) as [->|Hne]; cbn [props.dict_get].
    + now destruct (String.eqb k k0).
    + rewrite IH. destruct (String.eqb_spec k' k0) as [->|]; [|reflexivity].
      destruct (String.eqb_spec k k0) as [->|]; [now elim Hne | reflexivity].
Qed.

Lemma dict_set_keys (d : fight_log.dict Value) (k : string) (v : Value) :
  map fst (fight_manager.dict_set d k v)
  = if in_dec string_dec k (map fst d) then map fst d
    else (map fst d ++ [k])%list.
Proof.
  induction d as [|[k' v'] d IH]; cbn [fight_manager.dict_set map fst].
  - reflexivity.
  - destruct (String.eqb_spec k' k) as [->|Hne]; cbn [map fst].
    + destruct (in_dec string_dec k (k :: map fst d)) as [_|Hn];
        [reflexivity | elim Hn; now left].
    + rewrite IH.
      destruct (in_dec string_dec k (map fst d)) as [Hin|Hnin];
        destruct (in_dec string_dec k (k' :: map fst d)) as [Hin'|Hnin'];
        try reflexivity.
      * elim Hnin'. now right.
      * destruct Hin' as [E|Hin']; [now elim Hne | now elim Hnin].
Qed.

Lemma dict_set_nodup (d : fight_log.dict Value) (k : string) (v : Value) :
  NoDup (map fst d) -> NoDup (map fst (fight_manager.dict_set d k v)).
Proof.
  intro H. rewrite dict_set_keys.
  destruct (in_dec string_dec k (map fst d)) as [_|Hnin]; [exact H|].
  apply NoDup_app; [exact H | repeat constructor; intros [] | ].
  intros x Hx [<-|[]]. now apply Hnin.
Qed.

Lemma dict_of_fold (pairs : list (string * Value)) :
  forall d : fight_log.dict Value,
    NoDup (map fst d) ->
    NoDup (map fst (fold_left
                      (fun d kv => fight_manager.dict_set d (fst kv) (snd kv))
                      pairs d))
    /\ forall k,
        props.dict_get
          (fold_left (fun d kv => fight_manager.dict_set d (fst kv) (snd kv))
             pairs d) k
        = match props.last_value pairs k with
          | Some v => Some v
          | None => props.dict_get d k
          end.
Proof.
  induction pairs as [|[k v] pairs IH]; intros d Hd; cbn [fold_left].
  - split; [exact Hd | reflexivity].
  - destruct (IH (fight_manager.dict_set d k v) (dict_set_nodup d k v Hd))
      as [Hnd Hget].
    split; [exact Hnd|]. intro k0. cbn [fst snd]. rewrite Hget.
    cbn [props.last_value].
    destruct (props.last_value pairs k0); [reflexivity|].
    rewrite dict_set_get. now destruct (String.eqb k k0).
Qed.

(** A preview row, [dict(zip(col_names, row))], has each column name
    once; looked up by name it gives the value of the last column of
    that name. *)
Theorem preview_row_keys_distinct (col_names : list string)
        (row : list Value) :
  NoDup (map fst (fight_manager.dict_of (combine col_names row)))
  /\ forall k,
      props.dict_get (fight_manager.dict_of (combine col_names row)) k
      = props.last_value (combine col_names row) k.
Proof.
  destruct (dict_of_fold (combine col_names row) [] (NoDup_nil _))
    as [Hnd Hget].
  split; [exact Hnd|]. intro k. unfold fight_manager.dict_of.
  rewrite Hget.
  now destruct (props.last_value (combine col_names row) k).
Qed.

Lemma dict_of_distinct (pairs : list (string * Value)) :
  forall d : fight_log.dict Value,
    NoDup (map fst d ++ map fst pairs) ->
    fold_left (fun d kv => fight_manager.dict_set d (fst kv) (snd kv)) pairs d
    = (d ++ pairs)%list.
Proof.
  induction pairs as [|[k v] pairs IH]; intros d Hnd; cbn [fold_left].
  - now rewrite app_nil_r.
  - cbn [map fst] in Hnd.
    assert (Hset : fight_manager.dict_set d k v = (d ++ [(k, v)])%list).
    { apply NoDup_remove_2 in Hnd.
      assert (Hnin : ~ In k (map fst d))
        by (intro H; apply Hnd, in_or_app; now left).
      clear - Hnin. induction d as [|[k' v'] d IHd]; [reflexivity|].
      cbn [fight_manager.dict_set app].
      destruct (String.eqb_spec k' k) as [->|_].
      - elim Hnin. now left.
      - rewrite IHd; [reflexivity|]. intro H. apply Hnin. now right. }
    cbn [fst snd]. rewrite Hset, IH.
    + now rewrite <- app_assoc.
    + rewrite map_app. cbn [map fst]. rewrite <- app_assoc. exact Hnd.
Qed.

Lemma combine_keys_nodup (col_names : list string) (row : list Value) :
  NoDup col_names -> NoDup (map fst (combine col_names row)).
Proof.
  intro Hnd. revert row.
  induction Hnd as [|c cols Hnot Hnd IH]; intros row; [constructor|].
  destruct row as [|v row]; [constructor|]. cbn [combine map fst].
  constructor; [|apply IH].
  intro Hin. apply Hnot. apply in_map_iff in Hin.
  destruct Hin as ([c' v'] & <- & Hin). now apply in_combine_l in Hin.
Qed.

(** When the column names are distinct, the preview row is the columns
    paired with the values, in column order. *)
Theorem preview_row_distinct_columns (col_names : list string)
        (row : list Value) :
  NoDup col_names ->
  fight_manager.dict_of (combine col_names row) = combine col_names row.
Proof.
  intro Hnd. unfold fight_manager.dict_of.
  rewrite dict_of_distinct; [reflexivity|]. cbn [map app].
  now apply combine_keys_nodup.
Qed.

End PreviewRowFacts.

Lemma preview_row_distinct_columns_witness :
  @fight_manager.dict_of demo.host (combine ["id"; "v"] [1; 10]%Z)
  = combine ["id"; "v"] [1; 10]%Z.
Proof.
  apply (@preview_row_distinct_columns demo.host ["id"; "v"] [1; 10]%Z).
  repeat constructor; simpl; intuition discriminate.
Defined.

(** ** The round-based manager *)

Section RoundBasedManager.

Variables World Row : Type.
Variable fetch_schema_rows :
  World -> outcome (list (string * string * string)) * World.
Variable validate_query : string -> bool * string.
Variable execute_query_safely :
  string -> Z -> World -> (option (list Row) * option string) * World.
Variable calculate_query_score : string -> Z -> Q -> Q.
Variable time_time : World -> Q * World.
Variables AGENT_A_NAME AGENT_B_NAME TIE : string.
Variable format_2f : Q -> string.

Local Abbreviation execute_round :=
  (sql_fight_manager.execute_round World Row fetch_schema_rows validate_query
     execute_query_safely calculate_query_score time_time).

Local Abbreviation fight_round :=
  (sql_fight_manager.fight_round World Row fetch_schema_rows validate_query
     execute_query_safely calculate_query_score time_time AGENT_A_NAME
     AGENT_B_NAME format_2f).

Local Abbreviation fight_rounds :=
  (sql_fight_manager.fight_rounds World Row fetch_schema_rows validate_query
     execute_query_safely calculate_query_score time_time AGENT_A_NAME
     AGENT_B_NAME format_2f).

Local Abbreviation run_fight :=
  (sql_fight_manager.run_fight World Row fetch_schema_rows validate_query
     execute_query_safely calculate_query_score time_time AGENT_A_NAME
     AGENT_B_NAME TIE format_2f).

Local Abbreviation score_of := (sql_fight_manager.score Row).

Lemma truthy_not_none (error : option string) :
  sql_fight_manager.truthy error = true -> error <> None.
Proof. destruct error; [discriminate | discriminate]. Qed.

Lemma preview_length (x : Row) (rows : list Row) :
  (1 <= List.length (firstn 10 (x :: rows)) <= 10)%nat.
Proof.
  split; [cbn; lia | apply firstn_le_length].
Qed.

Lemma execute_round_cases (round_num : Z)
      (agent : sql_fight_manager.Agent World) (agent_name challenge : string)
      (previous_query previous_result_summary : option string) (w : World) :
  match execute_round round_num agent agent_name challenge previous_query
          previous_result_summary w with
  | (Raised e, w') =>
      sql_fight_manager.get_schema World fetch_schema_rows w = (Raised e, w')
  | (Returned r, _) => props.round_ok round_num agent_name r
  end.
Proof.
  unfold sql_fight_manager.execute_round.
  destruct (sql_fight_manager.get_schema World fetch_schema_rows w)
    as [[schema|e] w1]; [|reflexivity].
  destruct (agent schema challenge previous_query previous_result_summary w1)
    as [[q|e] w2].
  2:{ unfold props.round_ok; cbn.
      split; [|split; [|split; [|split]]]; try reflexivity; try discriminate.
      intros _. repeat split; try reflexivity; discriminate. }
  destruct (validate_query q) as [[|] verr]; cbn [negb].
  2:{ unfold props.round_ok; cbn.
      split; [|split; [|split; [|split]]]; try reflexivity; try discriminate.
      intros _. repeat split; try reflexivity; discriminate. }
  destruct (time_time w2) as [t0 w3].
  destruct (execute_query_safely q sql_fight_manager.QUERY_TIMEOUT_SECONDS w3)
    as [[result error] w4].
  destruct (time_time w4) as [t1 w5].
  destruct (sql_fight_manager.truthy error) eqn:Herr.
  - unfold props.round_ok; cbn.
    split; [|split; [|split; [|split]]]; try reflexivity; try discriminate.
    intros _. split; [now apply truthy_not_none | repeat split].
  - unfold props.round_ok.
    cbn [sql_fight_manager.round_number sql_fight_manager.agent_name
         sql_fight_manager.success sql_fight_manager.error
         sql_fight_manager.query sql_fight_manager.score
         sql_fight_manager.result_row_count sql_fight_manager.result_preview].
    split; [|split; [|split; [|split]]]; try reflexivity; try discriminate.
    + intros _. split; [reflexivity | discriminate].
    + intros rows. destruct result as [[|x xs]|]; try discriminate.
      intro H. cbv beta iota in H.
      assert (E : firstn 10 (x :: xs) = rows) by congruence.
      rewrite <- E. apply preview_length.
Qed.

(** Every round record of the round-based executor is well formed, and
    the only exception that leaves [execute_round] is one raised while
    the schema is read. *)
Theorem execute_round_record (round_num : Z)
        (agent : sql_fight_manager.Agent World) (agent_name challenge : string)
        (previous_query previous_result_summary : option string) (w : World) :
  match execute_round round_num agent agent_name challenge previous_query
          previous_result_summary w with
  | (Raised e, w') =>
      sql_fight_manager.get_schema World fetch_schema_rows w = (Raised e, w')
  | (Returned r, _) => props.round_ok round_num agent_name r
  end.
Proof.
  exact (execute_round_cases round_num agent agent_name challenge
           previous_query previous_result_summary w).
Qed.

(** A query that the validation refuses is not executed: the round fails
    with the validation's message and the world is as the agent's call
    left it. *)
Theorem execute_round_skips_invalid_query (round_num : Z)
        (agent : sql_fight_manager.Agent World) (agent_name challenge : string)
        (previous_query previous_result_summary : option string)
        (w w1 w2 : World) (schema q : string) :
  sql_fight_manager.get_schema World fetch_schema_rows w
  = (Returned schema, w1) ->
  agent schema challenge previous_query previous_result_summary w1
  = (Returned q, w2) ->
  fst (validate_query q) = false ->
  execute_round round_num agent agent_name challenge previous_query
    previous_result_summary w
  = (Returned
       {| sql_fight_manager.round_number := round_num;
          sql_fight_manager.agent_name := agent_name;
          sql_fight_manager.query := Some q;
          sql_fight_manager.success := false;
          sql_fight_manager.error :=
            Some ("Query validation failed: " ++ snd (validate_query q));
          sql_fight_manager.execution_time := 0;
          sql_fight_manager.result_row_count := 0;
          sql_fight_manager.result_preview := None;
          sql_fight_manager.score := 0 |}, w2).
Proof.
  intros Hschema Hagent Hinvalid. unfold sql_fight_manager.execute_round.
  rewrite Hschema, Hagent.
  destruct (validate_query q) as [valid verr]. cbn [fst snd] in *.
  now rewrite Hinvalid.
Qed.

Hypothesis schema_readable :
  forall w, exists rows w', fetch_schema_rows w = (Returned rows, w').

Lemma execute_round_returns (round_num : Z)
      (agent : sql_fight_manager.Agent World) (agent_name challenge : string)
      (previous_query previous_result_summary : option string) (w : World) :
  exists r w',
    execute_round round_num agent agent_name challenge previous_query
      previous_result_summary w = (Returned r, w')
    /\ props.round_ok round_num agent_name r.
Proof.
  pose proof (execute_round_cases round_num agent agent_name challenge
                previous_query previous_result_summary w) as H.
  destruct (execute_round round_num agent agent_name challenge previous_query
              previous_result_summary w) as [[r|e] w'].
  - now exists r, w'.
  - unfold sql_fight_manager.get_schema in H.
    destruct (schema_readable w) as (rows & w1 & E).
    rewrite E in H. discriminate.
Qed.

Lemma fight_round_spec (self : sql_fight_manager.FightManager World)
      (round_num : Z) (c : sql_fight_manager.Carry)
      (st : sql_fight_manager.FightState Row) (w : World) :
  exists ra rb c' w',
    fight_round self round_num c st w
    = (Returned c',
       {| sql_fight_manager.current_round := round_num;
          sql_fight_manager.agent_a_score :=
            sql_fight_manager.agent_a_score Row st + score_of ra;
          sql_fight_manager.agent_b_score :=
            sql_fight_manager.agent_b_score Row st + score_of rb;
          sql_fight_manager.rounds :=
            ((sql_fight_manager.rounds Row st ++ [ra]) ++ [rb])%list;
          sql_fight_manager.winner := sql_fight_manager.winner Row st |}, w')
    /\ props.round_ok round_num AGENT_A_NAME ra
    /\ props.round_ok round_num AGENT_B_NAME rb.
Proof.
  unfold sql_fight_manager.fight_round.
  match goal with
  | |- context [sql_fight_manager.execute_round _ _ _ _ _ _ _ ?n ?ag ?nm ?ch ?pq ?ps w] =>
      destruct (execute_round_returns n ag nm ch pq ps w)
        as (ra & w1 & -> & Hra)
  end.
  cbn [sql_fight_manager.current_round sql_fight_manager.agent_a_score
       sql_fight_manager.agent_b_score sql_fight_manager.rounds
       sql_fight_manager.winner].
  match goal with
  | |- context [sql_fight_manager.execute_round _ _ _ _ _ _ _ ?n ?ag ?nm ?ch ?pq ?ps w1] =>
      destruct (execute_round_returns n ag nm ch pq ps w1)
        as (rb & w2 & -> & Hrb)
  end.
  cbn [sql_fight_manager.current_round sql_fight_manager.agent_a_score
       sql_fight_manager.agent_b_score sql_fight_manager.rounds
       sql_fight_manager.winner].
  exists ra, rb. do 2 eexists. split; [reflexivity|]. now split.
Qed.

(** The rounds from number [a + 1] on. *)
Lemma fight_rounds_spec (self : sql_fight_manager.FightManager World)
      (n : nat) :
  forall (a : nat) (c : sql_fight_manager.Carry)
         (st : sql_fight_manager.FightState Row) (w : World),
  exists new c' st' w',
    fight_rounds self (map (fun i => (1 + Z.of_nat i)%Z) (seq a n)) c st w
    = (Returned c', st', w')
    /\ sql_fight_manager.rounds Row st'
       = (sql_fight_manager.rounds Row st ++ new)%list
    /\ List.length new = (2 * n)%nat
    /\ sql_fight_manager.agent_a_score Row st'
       = fold_left (fun acc r => acc + score_of r) (props.evens new)
           (sql_fight_manager.agent_a_score Row st)
    /\ sql_fight_manager.agent_b_score Row st'
       = fold_left (fun acc r => acc + score_of r) (props.odds new)
           (sql_fight_manager.agent_b_score Row st)
    /\ sql_fight_manager.winner Row st' = sql_fight_manager.winner Row st
    /\ forall i r, nth_error new i = Some r ->
         props.round_ok (Z.of_nat (a + Nat.div2 i) + 1)
           (if Nat.even i then AGENT_A_NAME else AGENT_B_NAME) r.
Proof.
  induction n as [|n IH]; intros a c st w.
  - exists [], c, st, w. cbn. rewrite app_nil_r.
    do 6 (split; [reflexivity|]). intros [|i] r; discriminate.
  - cbn [seq map sql_fight_manager.fight_rounds].
    destruct (fight_round_spec self (1 + Z.of_nat a) c st w)
      as (ra & rb & c1 & w1 & -> & Hra & Hrb).
    match goal with
    | |- context [sql_fight_manager.fight_rounds _ _ _ _ _ _ _ _ _ _ _ _ c1 ?st1 w1] =>
        destruct (IH (S a) c1 st1 w1)
          as (new & c' & st' & w' & -> & Hrounds & Hlen & Ha & Hb & Hw & Hrec)
    end.
    cbn [sql_fight_manager.rounds sql_fight_manager.agent_a_score
         sql_fight_manager.agent_b_score sql_fight_manager.winner]
      in Hrounds, Ha, Hb, Hw.
    exists (ra :: rb :: new), c', st', w'.
    split; [reflexivity|].
    split; [rewrite Hrounds, <- !app_assoc; reflexivity|].
    split; [cbn [List.length]; lia|].
    split; [exact Ha|]. split; [exact Hb|]. split; [exact Hw|].
    intros [|[|i]] r; cbn [nth_error].
    + intros [= <-]. cbn [Nat.div2 Nat.even].
      replace (Z.of_nat (a + 0) + 1)%Z with (1 + Z.of_nat a)%Z by lia.
      exact Hra.
    + intros [= <-]. cbn [Nat.div2 Nat.even].
      replace (Z.of_nat (a + 0) + 1)%Z with (1 + Z.of_nat a)%Z by lia.
      exact Hrb.
    + intro Hr. change (Nat.div2 (S (S i))) with (S (Nat.div2 i)).
      change (Nat.even (S (S i))) with (Nat.even i).
      rewrite Nat.add_succ_r. exact (Hrec i r Hr).
Qed.

(** As long as the schema can be read, [run_fight] returns: it appends
    two records per round, agent A's and then agent B's, both with the
    round's number; every record is well formed (a failed turn scores
    zero); the result carries the manager's whole list of records and
    the configured number of rounds. *)
Theorem round_based_fight_records
        (self : sql_fight_manager.FightManager World)
        (st : sql_fight_manager.FightState Row) (w : World) :
  exists res st' w' new,
    run_fight self st w = (Returned res, st', w')
    /\ sql_fight_manager.result_rounds Row res
       = (sql_fight_manager.rounds Row st ++ new)%list
    /\ sql_fight_manager.rounds Row st'
       = (sql_fight_manager.rounds Row st ++ new)%list
    /\ sql_fight_manager.result_total_rounds Row res
       = sql_fight_manager.num_rounds World self
    /\ List.length new
       = (2 * Z.to_nat (sql_fight_manager.num_rounds World self))%nat
    /\ forall i r, nth_error new i = Some r ->
         props.round_ok (Z.of_nat (Nat.div2 i) + 1)
           (if Nat.even i then AGENT_A_NAME else AGENT_B_NAME) r.
Proof.
  unfold sql_fight_manager.run_fight, fight_manager.range.
  replace (sql_fight_manager.num_rounds World self + 1 - 1)%Z
    with (sql_fight_manager.num_rounds World self) by lia.
  match goal with
  | |- context [sql_fight_manager.fight_rounds _ _ _ _ _ _ _ _ _ _ _ _ ?c st w] =>
      destruct (fight_rounds_spec self
                  (Z.to_nat (sql_fight_manager.num_rounds World self)) 0 c st w)
        as (new & c' & st' & w' & -> & Hrounds & Hlen & _ & _ & _ & Hrec)
  end.
  do 3 eexists. exists new. split; [reflexivity|].
  cbn [sql_fight_manager.result_rounds sql_fight_manager.rounds
       sql_fight_manager.result_total_rounds].
  split; [exact Hrounds|]. split; [exact Hrounds|]. split; [reflexivity|].
  split; [exact Hlen|]. exact Hrec.
Qed.

(** The scores of [run_fight]: each side's score grows by the scores of
    its own records of this fight, and the winner is the side with the
    strictly higher score, the tie marker when the scores are equal. *)
Theorem round_based_fight_scores
        (self : sql_fight_manager.FightManager World)
        (st : sql_fight_manager.FightState Row) (w : World) :
  exists res st' w' new,
    run_fight self st w = (Returned res, st', w')
    /\ sql_fight_manager.rounds Row st'
       = (sql_fight_manager.rounds Row st ++ new)%list
    /\ sql_fight_manager.result_agent_a_score Row res
       = fold_left (fun acc r => acc + score_of r) (props.evens new)
           (sql_fight_manager.agent_a_score Row st)
    /\ sql_fight_manager.result_agent_b_score Row res
       = fold_left (fun acc r => acc + score_of r) (props.odds new)
           (sql_fight_manager.agent_b_score Row st)
    /\ sql_fight_manager.winner Row st'
       = sql_fight_manager.result_winner Row res
    /\ (sql_fight_manager.result_agent_b_score Row res
        < sql_fight_manager.result_agent_a_score Row res ->
        sql_fight_manager.result_winner Row res = Some AGENT_A_NAME)
    /\ (sql_fight_manager.result_agent_a_score Row res
        < sql_fight_manager.result_agent_b_score Row res ->
        sql_fight_manager.result_winner Row res = Some AGENT_B_NAME)
    /\ (sql_fight_manager.result_agent_a_score Row res
        == sql_fight_manager.result_agent_b_score Row res ->
        sql_fight_manager.result_winner Row res = Some TIE).
Proof.
  unfold sql_fight_manager.run_fight, fight_manager.range.
  replace (sql_fight_manager.num_rounds World self + 1 - 1)%Z
    with (sql_fight_manager.num_rounds World self) by lia.
  match goal with
  | |- context [sql_fight_manager.fight_rounds _ _ _ _ _ _ _ _ _ _ _ _ ?c st w] =>
      destruct (fight_rounds_spec self
                  (Z.to_nat (sql_fight_manager.num_rounds World self)) 0 c st w)
        as (new & c' & st' & w' & -> & Hrounds & _ & Ha & Hb & _ & _)
  end.
  do 3 eexists. exists new. split; [reflexivity|].
  cbn [sql_fight_manager.result_rounds sql_fight_manager.rounds
       sql_fight_manager.result_agent_a_score
       sql_fight_manager.result_agent_b_score
       sql_fight_manager.result_winner sql_fight_manager.winner
       sql_fight_manager.agent_a_score sql_fight_manager.agent_b_score].
  split; [exact Hrounds|]. split; [exact Ha|]. split; [exact Hb|].
  split; [reflexivity|].
  unfold sql_fight_manager.decide_winner.
  set (a := sql_fight_manager.agent_a_score Row st').
  set (b := sql_fight_manager.agent_b_score Row st').
  destruct (Qle_bool a b) eqn:Hab; destruct (Qle_bool b a) eqn:Hba;
    cbn [negb];
    repeat match goal with
           | H : Qle_bool _ _ = true |- _ => apply Qle_bool_iff in H
           | H : Qle_bool ?x ?y = false |- _ =>
               assert (y < x)
                 by (apply Qnot_le_lt; intro Hle;
                     apply Qle_bool_iff in Hle; congruence);
               clear H
           end;
    repeat split; intros; try reflexivity; exfalso; lra.
Qed.

End RoundBasedManager.

Lemma execute_round_skips_invalid_query_witness :
  snd (sql_fight_manager.execute_round nat Z props.arena_fetch
         props.arena_validate props.arena_execute props.arena_score
         props.arena_time 1 (props.arena_answering "DROP TABLE t")
         "Agent Alpha" "Explore the data." None None 0%nat)
  = 0%nat.
Proof.
  rewrite (execute_round_skips_invalid_query nat Z props.arena_fetch
             props.arena_validate props.arena_execute props.arena_score
             props.arena_time 1 (props.arena_answering "DROP TABLE t")
             "Agent Alpha" "Explore the data." None None 0%nat 0%nat 0%nat
             _ "DROP TABLE t" eq_refl eq_refl eq_refl).
  reflexivity.
Defined.

Lemma round_based_fight_records_witness :
  exists res st' w',
    props.arena_run (props.arena_manager 2) (sql_fight_manager.initial_state Z)
      0%nat = (Returned res, st', w')
    /\ List.length (sql_fight_manager.result_rounds Z res) = 4%nat.
Proof.
  destruct (round_based_fight_records nat Z props.arena_fetch
              props.arena_validate props.arena_execute props.arena_score
              props.arena_time "Agent Alpha" "Agent Beta" "TIE"
              (fun _ => "0.00"%string)
              (fun w => ex_intro _ _ (ex_intro _ w eq_refl))
              (props.arena_manager 2) (sql_fight_manager.initial_state Z)
              0%nat)
    as (res & st' & w' & new & Hrun & Hres & _ & _ & Hlen & _).
  exists res, st', w'. split; [exact Hrun|]. rewrite Hres. exact Hlen.
Defined.

Lemma round_based_fight_scores_witness :
  exists res st' w',
    props.arena_run (props.arena_manager 2) (sql_fight_manager.initial_state Z)
      0%nat = (Returned res, st', w')
    /\ sql_fight_manager.winner Z st'
       = sql_fight_manager.result_winner Z res.
Proof.
  destruct (round_based_fight_scores nat Z props.arena_fetch
              props.arena_validate props.arena_execute props.arena_score
              props.arena_time "Agent Alpha" "Agent Beta" "TIE"
              (fun _ => "0.00"%string)
              (fun w => ex_intro _ _ (ex_intro _ w eq_refl))
              (props.arena_manager 2) (sql_fight_manager.initial_state Z)
              0%nat)
    as (res & st' & w' & new & Hrun & _ & _ & _ & Hwin & _).
  exists res, st', w'. split; [exact Hrun | exact Hwin].
Defined.
